(** * Shopping-list state engine of [App.tsx]: a shallow embedding

    The React component keeps four collections (categories, items, sets,
    purchase logs) and mutates them through state updaters.  Each updater
    is embedded here as a pure function on lists; the values a handler
    reads from its closure ([items], [categories]) are explicit arguments,
    separate from the [prev] value the queued updater receives.

    Fire-and-forget remote writes ([upsertItem], [deleteItemApi]), toasts
    and timers do not feed back into the four collections and are left
    out. *)

From Stdlib Require Import List String Ascii ZArith Bool Lia.
From Stdlib Require Import Permutation Sorted.
Import ListNotations.

Local Open Scope Z_scope.
Local Open Scope list_scope.

(** ** What the host platform provides *)

(** [String.prototype.toLowerCase], [toUpperCase] and [trim].  Their
    Unicode tables are the platform's; the engine only composes them. *)
Class JsString := {
  toLowerCase : string -> string;
  toUpperCase : string -> string;
  trim : string -> string
}.

(** [new Date(t).setHours(0, 0, 0, 0)]: the local midnight that starts the
    calendar day of the instant [t] (milliseconds since the epoch). *)
Class JsDate := {
  startOfDay : Z -> Z
}.

(** [String.prototype.localeCompare]: negative, zero or positive. *)
Class JsCollate := {
  localeCompare : string -> string -> Z
}.

(** ** Data model ([types.ts]) *)

Module CategoryDef.
Record t := mk {
  id : string;
  name : string;
  emoji : string
}.
End CategoryDef.
Abbreviation CategoryDef := CategoryDef.t.

Module ProductItem.
Record t := mk {
  id : string;
  name : string;
  categoryId : string;
  completed : bool;
  onList : bool;
  purchaseCount : Z;
  completedAt : option Z
}.
End ProductItem.
Abbreviation ProductItem := ProductItem.t.

Module SetItem.
Record t := mk {
  name : string;
  categoryName : string;
  emoji : string
}.
End SetItem.
Abbreviation SetItem := SetItem.t.

Module ShoppingSet.
Record t := mk {
  id : string;
  name : string;
  emoji : string;
  items : list SetItem;
  usageCount : option Z
}.
End ShoppingSet.
Abbreviation ShoppingSet := ShoppingSet.t.

Module LogItem.
Record t := mk {
  name : string;
  categoryId : string
}.
End LogItem.
Abbreviation LogItem := LogItem.t.

Module PurchaseLog.
Record t := mk {
  id : string;
  date : Z;
  items : list LogItem
}.
End PurchaseLog.
Abbreviation PurchaseLog := PurchaseLog.t.

(** A row as the remote store delivers it.  [category] and
    [purchase_count] may be absent. *)
Module DbItem.
Record t := mk {
  id : string;
  text : string;
  category : option string;
  is_bought : bool;
  purchase_count : option Z
}.
End DbItem.
Abbreviation DbItem := DbItem.t.

(** An item parsed from dictated text (the voice modal). *)
Module ParsedItem.
Record t := mk {
  name : string;
  categoryName : string;
  suggestedEmoji : string;
  selected : bool
}.
End ParsedItem.
Abbreviation ParsedItem := ParsedItem.t.

Module SmartCategoryResponse.
Record t := mk {
  categoryName : string;
  suggestedEmoji : string
}.
End SmartCategoryResponse.
Abbreviation SmartCategoryResponse := SmartCategoryResponse.t.

(** A reading of the clock together with a rendering of [Math.random()],
    from which the code builds fresh ids. *)
Module Tick.
Record t := mk {
  now : Z;
  random : string
}.
End Tick.
Abbreviation Tick := Tick.t.

(** [itemToUpdateAfterCategory]: an item waiting for the category that is
    being created. *)
Module PendingItem.
Record t := mk {
  id : option string;
  name : string;
  onList : bool
}.
End PendingItem.
Abbreviation PendingItem := PendingItem.t.

(** The collections of the component, with the two undo slots. *)
Module AppState.
Record t := mk {
  categories : list CategoryDef;
  items : list ProductItem;
  sets : list ShoppingSet;
  logs : list PurchaseLog;
  lastCompletedItem : option string;
  lastDeletedItem : option ProductItem
}.
End AppState.
Abbreviation AppState := AppState.t.

(** How the call to [categorizeProduct] ended. *)
Inductive AiOutcome :=
| AiThrows
| AiNull
| AiSmart (smart : SmartCategoryResponse).

(** The fields of a rejected AI call that [callWithRetry] looks at:
    [error.status], [error.code], [error.message] and, under
    [error.error], [code] and [status]. *)
Module InnerError.
Record t := mk {
  code : option Z;
  status : option string
}.
End InnerError.
Abbreviation InnerError := InnerError.t.

Module AiError.
Record t := mk {
  status : option Z;
  code : option Z;
  message : option string;
  error : option InnerError
}.
End AiError.
Abbreviation AiError := AiError.t.

(** How one call of [fn] ended. *)
Inductive Attempt (T : Type) :=
| Resolved (v : T)
| Rejected (e : AiError).
Arguments Resolved {T} v.
Arguments Rejected {T} e.

(** How [callWithRetry] ended. *)
Inductive Settled (T : Type) :=
| Returned (v : T)
| Thrown (e : AiError).
Arguments Returned {T} v.
Arguments Thrown {T} e.

(** The three authoring modes of the set modal, each with its input:
    the lines of the text, the selected item ids, the previewed tuples
    with their [checked] mark. *)
Inductive SetCreationMode :=
| ModeText (newSetManualItems : list string)
| ModeHistory (selectedHistoryItems : list string)
| ModeAi (aiSetPreviewItems : list (SetItem * option bool)).

(** ** JavaScript idioms *)

(** [s || d] on strings: the empty string is falsy. *)
Definition str_or (s d : string) : string :=
  match s with
  | EmptyString => d
  | _ => s
  end.

(** [o || d] on an optional string. *)
Definition ostr_or (o : option string) (d : string) : string :=
  match o with
  | Some s => str_or s d
  | None => d
  end.

(** [o || 0] on an optional number. *)
Definition onum_or0 (o : option Z) : Z :=
  match o with
  | Some n => n
  | None => 0
  end.

(** Truthiness of an optional number: [undefined] and [0] are falsy. *)
Definition truthy_num (o : option Z) : bool :=
  match o with
  | Some n => negb (n =? 0)
  | None => false
  end.

(** [s.charAt(0)] *)
Definition charAt0 (s : string) : string :=
  match s with
  | EmptyString => EmptyString
  | String c _ => String c EmptyString
  end.

(** [s.slice(1)] *)
Definition slice1 (s : string) : string :=
  match s with
  | EmptyString => EmptyString
  | String _ r => r
  end.

(** [a.lastIndexOf(x)], with [None] for [-1]. *)
Fixpoint lastIndexOf (l : list string) (x : string) : option nat :=
  match l with
  | [] => None
  | y :: r =>
      match lastIndexOf r x with
      | Some k => Some (S k)
      | None => if String.eqb y x then Some O else None
      end
  end.

(** [a.splice(k, 1)] on a copy: the list without its element at [k]. *)
Fixpoint splice1 {A : Type} (k : nat) (l : list A) : list A :=
  match l, k with
  | [], _ => []
  | _ :: r, O => r
  | y :: r, S k' => y :: splice1 k' r
  end.

(** Decimal rendering of a number, as [String(n)] gives for an integer. *)
Definition digit_char (d : Z) : ascii := ascii_of_N (Z.to_N (48 + d)).

Fixpoint digits_acc (fuel : nat) (n : Z) (acc : string) : string :=
  match fuel with
  | O => acc
  | S f =>
      let acc' := String (digit_char (n mod 10)) acc in
      if n / 10 =? 0 then acc' else digits_acc f (n / 10) acc'
  end.

Definition Number_toString (n : Z) : string :=
  if n <? 0
  then String "-" (digits_acc (S (Z.to_nat (Z.log2 (- n)))) (- n) EmptyString)
  else digits_acc (S (Z.to_nat (Z.log2 n))) n EmptyString.

(** ** Concrete platform used to run the model on examples: ASCII case
    mapping, trimming of blanks, and UTC days. *)

Definition ascii_lower (c : ascii) : ascii :=
  let n := N_of_ascii c in
  if ((65 <=? n) && (n <=? 90))%N then ascii_of_N (n + 32) else c.

Definition ascii_upper (c : ascii) : ascii :=
  let n := N_of_ascii c in
  if ((97 <=? n) && (n <=? 122))%N then ascii_of_N (n - 32) else c.

Fixpoint string_map (f : ascii -> ascii) (s : string) : string :=
  match s with
  | EmptyString => EmptyString
  | String c r => String (f c) (string_map f r)
  end.

Definition is_blank (c : ascii) : bool :=
  let n := N_of_ascii c in
  ((n =? 32) || ((9 <=? n) && (n <=? 13)))%N.

Fixpoint trim_start (s : string) : string :=
  match s with
  | EmptyString => EmptyString
  | String c r => if is_blank c then trim_start r else s
  end.

Fixpoint trim_end (s : string) : string :=
  match s with
  | EmptyString => EmptyString
  | String c r =>
      match trim_end r with
      | EmptyString => if is_blank c then EmptyString else String c EmptyString
      | r' => String c r'
      end
  end.

Definition ascii_strings : JsString := {|
  toLowerCase := string_map ascii_lower;
  toUpperCase := string_map ascii_upper;
  trim := fun s => trim_end (trim_start s)
|}.

Definition ms_per_day : Z := 86400000.

Definition utc_days : JsDate := {|
  startOfDay := fun t => t - t mod ms_per_day
|}.

(** Comparison of strings by their codes, for running examples. *)
Definition code_collate : JsCollate := {|
  localeCompare := fun a b =>
    match String.compare a b with
    | Lt => -1
    | Eq => 0
    | Gt => 1
    end
|}.

Section Engine.

Context {JS : JsString} {JD : JsDate}.

Definition sentinel_id : string := "dept_none"%string.

(** The literal the code falls back to when no sentinel row is found. *)
Definition default_none : CategoryDef :=
  CategoryDef.mk "dept_none"%string "Без категории"%string "⚪"%string.

Definition is_sentinel (c : CategoryDef) : bool :=
  String.eqb (CategoryDef.id c) sentinel_id.

(** [a.toLowerCase() === b.toLowerCase()] *)
Definition same_name (a b : string) : bool :=
  String.eqb (toLowerCase a) (toLowerCase b).

(** ** Remote events ([authAndSync], [subscribeToItems]) *)

Definition fromDb (ri : DbItem) : ProductItem :=
  ProductItem.mk
    (DbItem.id ri)
    (DbItem.text ri)
    (ostr_or (DbItem.category ri) sentinel_id)
    (DbItem.is_bought ri)
    true
    (onum_or0 (DbItem.purchase_count ri))
    None.

(** [setItems(mappedItems)] after [getItems]. *)
Definition loadItems (remoteItems : list DbItem) : list ProductItem :=
  map fromDb remoteItems.

Definition onInsert (newItem : DbItem) (prev : list ProductItem)
  : list ProductItem :=
  match find (fun i => String.eqb (ProductItem.id i) (DbItem.id newItem)) prev with
  | Some _ => prev
  | None => prev ++ [fromDb newItem]
  end.

Definition onUpdate (updatedItem : DbItem) (prev : list ProductItem)
  : list ProductItem :=
  map (fun i =>
         if String.eqb (ProductItem.id i) (DbItem.id updatedItem)
         then ProductItem.mk
                (ProductItem.id i)
                (DbItem.text updatedItem)
                (ostr_or (DbItem.category updatedItem) sentinel_id)
                (DbItem.is_bought updatedItem)
                (ProductItem.onList i)
                (onum_or0 (DbItem.purchase_count updatedItem))
                (ProductItem.completedAt i)
         else i) prev.

Definition onDelete (deletedId : string) (prev : list ProductItem)
  : list ProductItem :=
  filter (fun i => negb (String.eqb (ProductItem.id i) deletedId)) prev.

(** [items.filter(i => i.onList)]: the buy list with the filter on 'All'. *)
Definition buyList (items : list ProductItem) : list ProductItem :=
  filter ProductItem.onList items.

(** ** Daily rollover *)

Definition rollover_item (todayStr : Z) (item : ProductItem) : ProductItem :=
  if ProductItem.completed item
     && truthy_num (ProductItem.completedAt item)
     && (startOfDay (onum_or0 (ProductItem.completedAt item)) <? todayStr)
  then ProductItem.mk
         (ProductItem.id item)
         (ProductItem.name item)
         (ProductItem.categoryId item)
         false
         false
         (ProductItem.purchaseCount item)
         None
  else item.

Definition dailyRollover (now : Z) (prev : list ProductItem)
  : list ProductItem :=
  map (rollover_item (startOfDay now)) prev.

(** ** Purchase log bookkeeping (inside [toggleComplete], [undoCompletion]) *)

(** [currentLogs.find(l => new Date(l.date).setHours(0,0,0,0) === today)] *)
Definition todays_entry (today : Z) (currentLogs : list PurchaseLog)
  : option PurchaseLog :=
  find (fun l => startOfDay (PurchaseLog.date l) =? today) currentLogs.

(** The [newCompleted] branch of the log updater. *)
Definition log_append (itemForLog : LogItem) (now today : Z)
  (currentLogs : list PurchaseLog) : list PurchaseLog :=
  match todays_entry today currentLogs with
  | Some logEntry =>
      map (fun l =>
             if String.eqb (PurchaseLog.id l) (PurchaseLog.id logEntry)
             then PurchaseLog.mk (PurchaseLog.id l) (PurchaseLog.date l)
                    (PurchaseLog.items l ++ [itemForLog])
             else l) currentLogs
  | None =>
      PurchaseLog.mk (Number_toString now) now [itemForLog] :: currentLogs
  end.

(** The other branch, shared verbatim with [undoCompletion]. *)
Definition log_remove_last (itemName : string) (today : Z)
  (currentLogs : list PurchaseLog) : list PurchaseLog :=
  match todays_entry today currentLogs with
  | Some logEntry =>
      match lastIndexOf (map LogItem.name (PurchaseLog.items logEntry)) itemName with
      | Some lastIndex =>
          let newItems := splice1 lastIndex (PurchaseLog.items logEntry) in
          map (fun l =>
                 if String.eqb (PurchaseLog.id l) (PurchaseLog.id logEntry)
                 then PurchaseLog.mk (PurchaseLog.id l) (PurchaseLog.date l) newItems
                 else l) currentLogs
      | None => currentLogs
      end
  | None => currentLogs
  end.

(** ** Toggle completion *)

(** What the [map] callback returns for a row whose id matches. *)
Definition toggle_item (now : Z) (item : ProductItem) : ProductItem :=
  if negb (ProductItem.completed item)
  then ProductItem.mk
         (ProductItem.id item) (ProductItem.name item)
         (ProductItem.categoryId item)
         true
         (ProductItem.onList item)
         (ProductItem.purchaseCount item + 1)
         (Some now)
  else ProductItem.mk
         (ProductItem.id item) (ProductItem.name item)
         (ProductItem.categoryId item)
         false
         (ProductItem.onList item)
         (ProductItem.purchaseCount item)
         None.

(** The log updater the callback queues for a matching row. *)
Definition toggle_log (now today : Z) (item : ProductItem)
  (currentLogs : list PurchaseLog) : list PurchaseLog :=
  if negb (ProductItem.completed item)
  then log_append
         (LogItem.mk (ProductItem.name item) (ProductItem.categoryId item))
         now today currentLogs
  else log_remove_last (ProductItem.name item) today currentLogs.

Definition toggleComplete_items (id : string) (now : Z)
  (prev : list ProductItem) : list ProductItem :=
  map (fun item =>
         if String.eqb (ProductItem.id item) id
         then toggle_item now item
         else item) prev.

(** The log updaters are queued while [prev.map] walks the rows, one per
    matching row, and run in that order. *)
Definition toggleComplete_logs (id : string) (now today : Z)
  (prev : list ProductItem) (currentLogs : list PurchaseLog)
  : list PurchaseLog :=
  fold_left
    (fun lg item =>
       if String.eqb (ProductItem.id item) id
       then toggle_log now today item lg
       else lg) prev currentLogs.

(** The clock is read inside the callback; the rows of one pass share the
    reading [now], and [today] is the day computed right after it.

    [setLastCompletedItem(id)] runs for a matching row that becomes
    completed. *)
Definition toggleComplete_last (id : string) (prev : list ProductItem)
  (last : option string) : option string :=
  if existsb (fun item => String.eqb (ProductItem.id item) id
                          && negb (ProductItem.completed item)) prev
  then Some id
  else last.

(** ** Timed undo of a completion *)

Definition undo_item (it : ProductItem) : ProductItem :=
  ProductItem.mk
    (ProductItem.id it) (ProductItem.name it) (ProductItem.categoryId it)
    false
    (ProductItem.onList it)
    (Z.max 0 (ProductItem.purchaseCount it - 1))
    None.

Definition undoCompletion_items (lastCompletedItem : string)
  (prev : list ProductItem) : list ProductItem :=
  map (fun it =>
         if String.eqb (ProductItem.id it) lastCompletedItem
         then undo_item it
         else it) prev.

Definition undoCompletion_logs (lastCompletedItem : string) (today : Z)
  (items : list ProductItem) (currentLogs : list PurchaseLog)
  : list PurchaseLog :=
  match find (fun i => String.eqb (ProductItem.id i) lastCompletedItem) items with
  | Some itemToUndo => log_remove_last (ProductItem.name itemToUndo) today currentLogs
  | None => currentLogs
  end.

(** ** Finalize-add *)

(** [name.trim().charAt(0).toUpperCase() + name.trim().slice(1)] *)
Definition capName (name : string) : string :=
  String.append (toUpperCase (charAt0 (trim name))) (slice1 (trim name)).

(** [Date.now().toString() + Math.random().toString(36).substr(2, 5)] *)
Definition new_item_id (tk : Tick) : string :=
  String.append (Number_toString (Tick.now tk)) (Tick.random tk).

(** The row update of the merge branch. *)
Definition merge_item (existing : ProductItem) (categoryId : string)
  (onList : bool) (i : ProductItem) : ProductItem :=
  ProductItem.mk
    (ProductItem.id i)
    (ProductItem.name i)
    (if negb (String.eqb categoryId sentinel_id)
     then categoryId else ProductItem.categoryId i)
    (if onList then false else ProductItem.completed i)
    (onList || ProductItem.onList existing)
    (ProductItem.purchaseCount i)
    (if onList then None else ProductItem.completedAt i).

(** [items] is the list the handler closed over; the result is the
    updater handed to [setItems]. *)
Definition finalizeAddItem (items : list ProductItem)
  (name categoryId : string) (onList : bool) (tk : Tick)
  (prev : list ProductItem) : list ProductItem :=
  match find (fun i => same_name (ProductItem.name i) (capName name)) items with
  | Some existing =>
      map (fun i =>
             if String.eqb (ProductItem.id i) (ProductItem.id existing)
             then merge_item existing categoryId onList i
             else i) prev
  | None =>
      ProductItem.mk
        (new_item_id tk)
        (capName name)
        (str_or categoryId sentinel_id)
        false
        onList
        0
        None :: prev
  end.

(** ** Other item handlers *)

Definition toggleHistoryItem (items : list ProductItem) (item : ProductItem)
  (tk : Tick) (prev : list ProductItem) : list ProductItem :=
  if ProductItem.onList item && negb (ProductItem.completed item)
  then map (fun i =>
              if String.eqb (ProductItem.id i) (ProductItem.id item)
              then ProductItem.mk
                     (ProductItem.id i) (ProductItem.name i)
                     (ProductItem.categoryId i)
                     false
                     false
                     (ProductItem.purchaseCount i)
                     (ProductItem.completedAt i)
              else i) prev
  else finalizeAddItem items (ProductItem.name item)
         (ProductItem.categoryId item) true tk prev.

Definition performItemDelete (item : ProductItem) (prev : list ProductItem)
  : list ProductItem :=
  filter (fun i => negb (String.eqb (ProductItem.id i) (ProductItem.id item))) prev.

(** The undo button of the delete toast. *)
Definition undoDelete (lastDeletedItem : option ProductItem)
  (p : list ProductItem) : list ProductItem :=
  match lastDeletedItem with
  | Some it => it :: p
  | None => p
  end.

(** The save button of the item edit modal. *)
Definition saveEditedItem (editingItem : ProductItem)
  (editItemName editItemCategoryId : string) (prev : list ProductItem)
  : list ProductItem :=
  let updatedItem :=
    ProductItem.mk
      (ProductItem.id editingItem)
      editItemName
      editItemCategoryId
      (ProductItem.completed editingItem)
      (ProductItem.onList editingItem)
      (ProductItem.purchaseCount editingItem)
      (ProductItem.completedAt editingItem) in
  map (fun i =>
         if String.eqb (ProductItem.id i) (ProductItem.id editingItem)
         then updatedItem else i) prev.

(** [handleBulkAdd]: every line goes through finalize-add against the same
    closed-over [items]. *)
Definition bulk_lines (raw : list (string * Tick)) : list (string * Tick) :=
  filter (fun l => negb (String.eqb (fst l) EmptyString))
    (map (fun l => (trim (fst l), snd l)) raw).

Definition handleBulkAdd (items : list ProductItem)
  (raw : list (string * Tick)) (bulkAddCategory : option string)
  (shouldAddToList : bool) (prev : list ProductItem) : list ProductItem :=
  match bulkAddCategory with
  | None | Some EmptyString => prev
  | Some cat =>
      fold_left
        (fun acc l => finalizeAddItem items (fst l) cat shouldAddToList (snd l) acc)
        (bulk_lines raw) prev
  end.

(** ** Category registry *)

(** ['dept_' + Date.now()] *)
Definition new_cat_id_now (now : Z) : string :=
  String.append "dept_" (Number_toString now).

(** ['dept_' + Date.now() + Math.random()] *)
Definition new_cat_id (tk : Tick) : string :=
  String.append (String.append "dept_" (Number_toString (Tick.now tk)))
    (Tick.random tk).

(** [cats.find(c => c.id === 'dept_none') || { id: 'dept_none', ... }] *)
Definition systemNone (cats : list CategoryDef) : CategoryDef :=
  match find is_sentinel cats with
  | Some c => c
  | None => default_none
  end.

(** [openCategoryModal(cat)]: [None] when the guard returns early,
    otherwise the value [editingCategory] takes. *)
Definition openCategoryModal (cat : option CategoryDef)
  : option (option CategoryDef) :=
  match cat with
  | Some c => if is_sentinel c then None else Some (Some c)
  | None => Some None
  end.

(** The updater [saveCategory] hands to [setCategories]. *)
Definition saveCategory_cats (editingCategory : option CategoryDef)
  (catName catEmoji : string) (now : Z) (prev : list CategoryDef)
  : list CategoryDef :=
  let others :=
    filter (fun c =>
              negb (is_sentinel c)
              && match editingCategory with
                 | Some e => negb (String.eqb (CategoryDef.id c) (CategoryDef.id e))
                 | None => true
                 end) prev in
  let newCat :=
    CategoryDef.mk
      (match editingCategory with
       | Some e => CategoryDef.id e
       | None => new_cat_id_now now
       end)
      catName catEmoji in
  others ++ [newCat; systemNone prev].

(** The item part of [saveCategory]. *)
Definition saveCategory_items (items : list ProductItem)
  (editingCategory : option CategoryDef)
  (itemToUpdateAfterCategory : option PendingItem) (now : Z) (tk : Tick)
  (prev : list ProductItem) : list ProductItem :=
  match editingCategory, itemToUpdateAfterCategory with
  | None, Some p =>
      match PendingItem.id p with
      | Some (String c r) =>
          map (fun i =>
                 if String.eqb (ProductItem.id i) (String c r)
                 then ProductItem.mk
                        (ProductItem.id i)
                        (PendingItem.name p)
                        (new_cat_id_now now)
                        (ProductItem.completed i)
                        (ProductItem.onList i)
                        (ProductItem.purchaseCount i)
                        (ProductItem.completedAt i)
                 else i) prev
      | _ =>
          finalizeAddItem items (PendingItem.name p) (new_cat_id_now now)
            (PendingItem.onList p) tk prev
      end
  | _, _ => prev
  end.

Definition performDeleteCategory_items (id : string) (prev : list ProductItem)
  : list ProductItem :=
  map (fun item =>
         if String.eqb (ProductItem.categoryId item) id
         then ProductItem.mk
                (ProductItem.id item) (ProductItem.name item)
                sentinel_id
                (ProductItem.completed item) (ProductItem.onList item)
                (ProductItem.purchaseCount item) (ProductItem.completedAt item)
         else item) prev.

Definition performDeleteCategory_cats (id : string) (prev : list CategoryDef)
  : list CategoryDef :=
  filter (fun c => negb (String.eqb (CategoryDef.id c) id)) prev.

(** ** Set expansion and acceptance of dictated items *)

(** The local helper [reorderCats]. *)
Definition reorderCats (cats : list CategoryDef) : list CategoryDef :=
  filter (fun c => negb (is_sentinel c)) cats ++ [systemNone cats].

(** One element to add: name, category name, emoji, and the clock
    readings for a category id and for an item id. *)
Definition AddRequest : Type := (string * string * string) * (Tick * Tick).

(** The body of the [forEach], on the pair ([updatedCats], queued item
    state). *)
Definition expand_one (items : list ProductItem)
  (acc : list CategoryDef * list ProductItem) (rq : AddRequest)
  : list CategoryDef * list ProductItem :=
  let '((name, categoryName, emoji), (ctk, itk)) := rq in
  let '(updatedCats, prev) := acc in
  match find (fun i => same_name (ProductItem.name i) name) items with
  | Some historyItem =>
      (updatedCats,
       finalizeAddItem items name (ProductItem.categoryId historyItem) true itk prev)
  | None =>
      match find (fun c => same_name (CategoryDef.name c) categoryName) updatedCats with
      | Some cat =>
          (updatedCats, finalizeAddItem items name (CategoryDef.id cat) true itk prev)
      | None =>
          let cat := CategoryDef.mk (new_cat_id ctk) categoryName (str_or emoji "📦") in
          (updatedCats ++ [cat],
           finalizeAddItem items name (CategoryDef.id cat) true itk prev)
      end
  end.

Definition expand_all (categories : list CategoryDef)
  (items : list ProductItem) (rqs : list AddRequest)
  : list CategoryDef * list ProductItem :=
  fold_left (expand_one items) rqs (categories, items).

Definition set_request (x : SetItem * (Tick * Tick)) : AddRequest :=
  ((SetItem.name (fst x), SetItem.categoryName (fst x), SetItem.emoji (fst x)), snd x).

Definition bump_usage (set : ShoppingSet) (prev : list ShoppingSet)
  : list ShoppingSet :=
  map (fun s =>
         if String.eqb (ShoppingSet.id s) (ShoppingSet.id set)
         then ShoppingSet.mk
                (ShoppingSet.id s) (ShoppingSet.name s) (ShoppingSet.emoji s)
                (ShoppingSet.items s)
                (Some (onum_or0 (ShoppingSet.usageCount s) + 1))
         else s) prev.

Definition addSpecificItemsFromSet (set : ShoppingSet)
  (itemsToAdd : list (SetItem * (Tick * Tick))) (st : AppState) : AppState :=
  let r := expand_all (AppState.categories st) (AppState.items st)
             (map set_request itemsToAdd) in
  AppState.mk
    (reorderCats (fst r))
    (snd r)
    (bump_usage set (AppState.sets st))
    (AppState.logs st)
    (AppState.lastCompletedItem st)
    (AppState.lastDeletedItem st).

Definition parsed_request (x : ParsedItem * (Tick * Tick)) : AddRequest :=
  ((ParsedItem.name (fst x), ParsedItem.categoryName (fst x),
    ParsedItem.suggestedEmoji (fst x)), snd x).

(** The confirm button of the dictation modal. *)
Definition acceptParsedItems (parsedItems : list (ParsedItem * (Tick * Tick)))
  (st : AppState) : AppState :=
  let toAdd := filter (fun x => ParsedItem.selected (fst x)) parsedItems in
  let r := expand_all (AppState.categories st) (AppState.items st)
             (map parsed_request toAdd) in
  AppState.mk
    (reorderCats (fst r))
    (snd r)
    (AppState.sets st)
    (AppState.logs st)
    (AppState.lastCompletedItem st)
    (AppState.lastDeletedItem st).

(** ** Handlers on the whole state *)

Definition with_items (st : AppState) (items' : list ProductItem) : AppState :=
  AppState.mk (AppState.categories st) items' (AppState.sets st)
    (AppState.logs st) (AppState.lastCompletedItem st)
    (AppState.lastDeletedItem st).

Definition toggleComplete (id : string) (now today : Z) (st : AppState)
  : AppState :=
  AppState.mk
    (AppState.categories st)
    (toggleComplete_items id now (AppState.items st))
    (AppState.sets st)
    (toggleComplete_logs id now today (AppState.items st) (AppState.logs st))
    (toggleComplete_last id (AppState.items st) (AppState.lastCompletedItem st))
    (AppState.lastDeletedItem st).

Definition undoCompletion (today : Z) (st : AppState) : AppState :=
  match AppState.lastCompletedItem st with
  | Some (String c r) =>
      AppState.mk
        (AppState.categories st)
        (undoCompletion_items (String c r) (AppState.items st))
        (AppState.sets st)
        (undoCompletion_logs (String c r) today (AppState.items st) (AppState.logs st))
        None
        (AppState.lastDeletedItem st)
  | _ => st
  end.

Definition deleteItem (item : ProductItem) (st : AppState) : AppState :=
  AppState.mk (AppState.categories st)
    (performItemDelete item (AppState.items st))
    (AppState.sets st) (AppState.logs st) (AppState.lastCompletedItem st)
    (Some item).

Definition saveCategory (editingCategory : option CategoryDef)
  (catName catEmoji : string)
  (itemToUpdateAfterCategory : option PendingItem) (now : Z) (tk : Tick)
  (st : AppState) : AppState :=
  match trim catName with
  | EmptyString => st
  | _ =>
      AppState.mk
        (saveCategory_cats editingCategory catName catEmoji now (AppState.categories st))
        (saveCategory_items (AppState.items st) editingCategory
           itemToUpdateAfterCategory now tk (AppState.items st))
        (AppState.sets st) (AppState.logs st)
        (AppState.lastCompletedItem st) (AppState.lastDeletedItem st)
  end.

Definition deleteCategory (id : string) (st : AppState) : AppState :=
  if String.eqb id sentinel_id then st
  else
    AppState.mk
      (performDeleteCategory_cats id (AppState.categories st))
      (performDeleteCategory_items id (AppState.items st))
      (AppState.sets st) (AppState.logs st)
      (AppState.lastCompletedItem st) (AppState.lastDeletedItem st).

(** [handleAddItemFromModal], with [targetId] standing for
    [forcedCategoryId || addItemCategory] and [ai] for the outcome of the
    awaited call, used only on the path that makes it. *)
Definition handleAddItemFromModal (addItemText targetId : string)
  (onList isAiEnabled : bool) (ai : AiOutcome) (now : Z) (tk : Tick)
  (st : AppState) : AppState :=
  let items := AppState.items st in
  let categories := AppState.categories st in
  match trim addItemText with
  | EmptyString => st
  | name =>
      match find (fun i => same_name (ProductItem.name i) name) items with
      | Some existingItem =>
          with_items st
            (finalizeAddItem items name
               (if negb (String.eqb targetId sentinel_id)
                then targetId else ProductItem.categoryId existingItem)
               onList tk items)
      | None =>
          if negb isAiEnabled
             || (negb (String.eqb targetId sentinel_id)
                 && negb (String.eqb targetId "other"))
          then with_items st (finalizeAddItem items name targetId onList tk items)
          else
            match ai with
            | AiThrows =>
                with_items st (finalizeAddItem items name sentinel_id onList tk items)
            | AiNull =>
                with_items st (finalizeAddItem items name targetId onList tk items)
            | AiSmart smart =>
                match find (fun c => same_name (CategoryDef.name c)
                                       (SmartCategoryResponse.categoryName smart))
                        categories with
                | Some existingCat =>
                    with_items st
                      (finalizeAddItem items name (CategoryDef.id existingCat) onList tk items)
                | None =>
                    let newCat :=
                      CategoryDef.mk (new_cat_id_now now)
                        (SmartCategoryResponse.categoryName smart)
                        (str_or (SmartCategoryResponse.suggestedEmoji smart) "📦") in
                    AppState.mk
                      (filter (fun c => negb (is_sentinel c)) categories
                         ++ [newCat; systemNone categories])
                      (finalizeAddItem items name (CategoryDef.id newCat) onList tk items)
                      (AppState.sets st) (AppState.logs st)
                      (AppState.lastCompletedItem st) (AppState.lastDeletedItem st)
                end
            end
      end
  end.

(** ** The engine as a transition system *)

Inductive Action :=
| RemoteLoad (remoteItems : list DbItem)
| RemoteInsert (newItem : DbItem)
| RemoteUpdate (updatedItem : DbItem)
| RemoteDelete (deletedId : string)
| DailyRollover (now : Z)
| AddItemFromModal (addItemText targetId : string) (onList isAiEnabled : bool)
    (ai : AiOutcome) (now : Z) (tk : Tick)
| BulkAdd (raw : list (string * Tick)) (bulkAddCategory : option string)
    (shouldAddToList : bool)
| ToggleComplete (id : string) (now today : Z)
| UndoCompletion (today : Z)
| ToggleHistoryItem (item : ProductItem) (tk : Tick)
| DeleteItem (item : ProductItem)
| UndoDelete
| SaveEditedItem (editingItem : ProductItem) (editItemName editItemCategoryId : string)
| SaveCategory (cat : option CategoryDef) (catName catEmoji : string)
    (itemToUpdateAfterCategory : option PendingItem) (now : Z) (tk : Tick)
| DeleteCategory (id : string)
| AddItemsFromSet (set : ShoppingSet) (itemsToAdd : list (SetItem * (Tick * Tick)))
| AcceptParsed (parsedItems : list (ParsedItem * (Tick * Tick))).

Definition step (st : AppState) (a : Action) : AppState :=
  match a with
  | RemoteLoad remoteItems => with_items st (loadItems remoteItems)
  | RemoteInsert newItem => with_items st (onInsert newItem (AppState.items st))
  | RemoteUpdate updatedItem => with_items st (onUpdate updatedItem (AppState.items st))
  | RemoteDelete deletedId => with_items st (onDelete deletedId (AppState.items st))
  | DailyRollover now => with_items st (dailyRollover now (AppState.items st))
  | AddItemFromModal addItemText targetId onList isAiEnabled ai now tk =>
      handleAddItemFromModal addItemText targetId onList isAiEnabled ai now tk st
  | BulkAdd raw bulkAddCategory shouldAddToList =>
      with_items st
        (handleBulkAdd (AppState.items st) raw bulkAddCategory shouldAddToList
           (AppState.items st))
  | ToggleComplete id now today => toggleComplete id now today st
  | UndoCompletion today => undoCompletion today st
  | ToggleHistoryItem item tk =>
      with_items st (toggleHistoryItem (AppState.items st) item tk (AppState.items st))
  | DeleteItem item => deleteItem item st
  | UndoDelete =>
      with_items st (undoDelete (AppState.lastDeletedItem st) (AppState.items st))
  | SaveEditedItem editingItem editItemName editItemCategoryId =>
      with_items st
        (saveEditedItem editingItem editItemName editItemCategoryId (AppState.items st))
  | SaveCategory cat catName catEmoji pending now tk =>
      match openCategoryModal cat with
      | Some editingCategory =>
          saveCategory editingCategory catName catEmoji pending now tk st
      | None => st
      end
  | DeleteCategory id => deleteCategory id st
  | AddItemsFromSet set itemsToAdd => addSpecificItemsFromSet set itemsToAdd st
  | AcceptParsed parsedItems => acceptParsedItems parsedItems st
  end.

Definition run (st : AppState) (actions : list Action) : AppState :=
  fold_left step actions st.

(** ** Properties the claims speak about *)

(** The listing ends with a row carrying the sentinel id. *)
Definition sentinel_last (cats : list CategoryDef) : bool :=
  match last (map Some cats) None with
  | Some c => is_sentinel c
  | None => false
  end.

Definition contains_sentinel (cats : list CategoryDef) : bool :=
  existsb is_sentinel cats.

(** [completed] and [completedAt] agree on a row. *)
Definition coherent (i : ProductItem) : bool :=
  Bool.eqb (ProductItem.completed i)
    (match ProductItem.completedAt i with Some _ => true | None => false end).

(** The non-sentinel rows of a listing, in order. *)
Definition others (cats : list CategoryDef) : list CategoryDef :=
  filter (fun c => negb (is_sentinel c)) cats.

(** The tuples of the entry found for [today], none when there is no
    such entry. *)
Definition today_items (today : Z) (currentLogs : list PurchaseLog)
  : list LogItem :=
  match todays_entry today currentLogs with
  | Some logEntry => PurchaseLog.items logEntry
  | None => []
  end.

(** Every row of the store, and the row kept for the delete undo, has
    [completed] and [completedAt] in agreement. *)
Definition store_coherent (st : AppState) : Prop :=
  Forall (fun i => coherent i = true) (AppState.items st)
  /\ forall i, AppState.lastDeletedItem st = Some i -> coherent i = true.

(** The three remote events that write [completed] from [is_bought]. *)
Definition is_remote_write (a : Action) : bool :=
  match a with
  | RemoteLoad _ | RemoteInsert _ | RemoteUpdate _ => true
  | _ => false
  end.

(** The row a handler receives from the rendered list agrees with the
    store: same completed flag as the stored rows of that id for the
    history toggle, a coherent row for delete and edit. *)
Definition handed_row_agrees (st : AppState) (a : Action) : Prop :=
  match a with
  | ToggleHistoryItem item _ =>
      forall i, In i (AppState.items st) ->
                ProductItem.id i = ProductItem.id item ->
                ProductItem.completed i = ProductItem.completed item
  | DeleteItem item => coherent item = true
  | SaveEditedItem editingItem _ _ => coherent editingItem = true
  | _ => True
  end.

(** The completion instant of the row, when it has one, is a reading of
    a running clock: [Date.now()] is the only value the handlers write
    into [completedAt], and it does not read 0. *)
Definition stamped (i : ProductItem) : bool :=
  match ProductItem.completedAt i with
  | Some t => negb (t =? 0)
  | None => true
  end.

Definition store_stamped (st : AppState) : Prop :=
  Forall (fun i => stamped i = true) (AppState.items st)
  /\ forall i, AppState.lastDeletedItem st = Some i -> stamped i = true.

(** What an action brings in from outside the store: the clock reading of
    a completion, and the row of the rendered list that delete and edit
    are given. *)
Definition brings_stamped (a : Action) : bool :=
  match a with
  | ToggleComplete _ now _ => negb (now =? 0)
  | DeleteItem item => stamped item
  | SaveEditedItem editingItem _ _ => stamped editingItem
  | _ => true
  end.

Definition rq_categoryName (rq : AddRequest) : string := snd (fst (fst rq)).

(** ** Sample data for running the model *)

Definition ex_none : CategoryDef := default_none.
Definition ex_fruit : CategoryDef := CategoryDef.mk "dept_1" "Fruit" "F".
Definition ex_dairy : CategoryDef := CategoryDef.mk "dept_2" "Dairy" "D".

(** A purchased row that is off the list. *)
Definition ex_milk : ProductItem :=
  ProductItem.mk "i1" "Milk" "dept_2" true false 3 (Some 1000).

(** A purchased row stamped with the instant 0. *)
Definition ex_bread : ProductItem :=
  ProductItem.mk "i2" "Bread" "dept_none" true true 1 (Some 0).

Definition ex_bread_tuple : LogItem := LogItem.mk "Bread" "dept_none".

Definition ex_log : PurchaseLog :=
  PurchaseLog.mk "0" 0 [ex_bread_tuple; LogItem.mk "Milk" "dept_2"; ex_bread_tuple].

Definition ex_db_milk : DbItem :=
  DbItem.mk "i1" "Oat milk" None true (Some 7).

Definition ex_flour : SetItem := SetItem.mk "Flour" "Baking" "B".

Definition ex_set : ShoppingSet :=
  ShoppingSet.mk "s1" "Cake" "C" [ex_flour] None.

Definition ex_tick : Tick := Tick.mk 1700000000000 "0.5".

Definition ex_state : AppState :=
  AppState.mk [ex_fruit; ex_dairy; ex_none] [ex_milk] [ex_set] [] (Some "i1"%string) None.

(** One stored row, completed today, with today's log entry. *)
Definition ex_state_bread : AppState :=
  AppState.mk [ex_none] [ex_bread] [] [ex_log] (Some "i2"%string) None.

(** A listing that holds the sentinel, but not at the end. *)
Definition ex_state_sentinel_first : AppState :=
  AppState.mk [ex_none; ex_fruit; ex_dairy] [] [] [] None None.

Definition ex_state_fresh : AppState :=
  AppState.mk [ex_none] [] [ex_set] [] None None.

(** ** Derived views *)

Context {JC : JsCollate}.

(** [s.includes(sub)] *)
Fixpoint includes (s sub : string) : bool :=
  String.prefix sub s
  || match s with
     | EmptyString => false
     | String _ r => includes r sub
     end.

(** A [Set]: its members in insertion order. *)
Definition set_has {A : Type} (eqb : A -> A -> bool) (s : list A) (x : A) : bool :=
  existsb (eqb x) s.

Definition set_add {A : Type} (eqb : A -> A -> bool) (s : list A) (x : A) : list A :=
  if set_has eqb s x then s else s ++ [x].

(** A [Record<string, number>]: its entries in insertion order. *)
Definition rec_get (r : list (string * Z)) (k : string) : option Z :=
  option_map snd (find (fun kv => String.eqb (fst kv) k) r).

Fixpoint rec_set (r : list (string * Z)) (k : string) (v : Z) : list (string * Z) :=
  match r with
  | [] => [(k, v)]
  | (k', v') :: rest =>
      if String.eqb k' k then (k', v) :: rest else (k', v') :: rec_set rest k v
  end.

(** [Array.prototype.sort] with a comparator: a stable sort, here by
    insertion from the right. *)
Fixpoint sort_insert {A : Type} (cmp : A -> A -> Z) (x : A) (sorted : list A) : list A :=
  match sorted with
  | [] => [x]
  | y :: r => if cmp x y <=? 0 then x :: y :: r else y :: sort_insert cmp x r
  end.

Definition js_sort {A : Type} (cmp : A -> A -> Z) (l : list A) : list A :=
  fold_right (sort_insert cmp) [] l.

(** [getTodayPurchaseCount(itemName)] *)
Definition getTodayPurchaseCount (today : Z) (logs : list PurchaseLog)
  (itemName : string) : nat :=
  match todays_entry today logs with
  | Some log =>
      List.length (filter (fun i => String.eqb (LogItem.name i) itemName)
                     (PurchaseLog.items log))
  | None => O
  end.

(** The number of tuples of a name in a day's list. *)
Definition count_name (n : string) (l : list LogItem) : nat :=
  List.length (filter (fun i => String.eqb (LogItem.name i) n) l).

(** The purchase counts of the items of one category, added up. *)
Definition category_total (c : string) (items : list ProductItem) : Z :=
  fold_right Z.add 0
    (map ProductItem.purchaseCount
       (filter (fun i => String.eqb (ProductItem.categoryId i) c) items)).

(** What the [Map] of [historyList] holds once the rows [seen] have been
    walked: distinct keys, each the lower-case name of its row, each row
    the first of [seen] under that name, and a key for every row seen. *)
Definition unique_ok (seen : list ProductItem) (unique : list (string * ProductItem))
  : Prop :=
  NoDup (map fst unique)
  /\ (forall k i, In (k, i) unique ->
        k = toLowerCase (ProductItem.name i)
        /\ find (fun j => same_name (ProductItem.name j) (ProductItem.name i)) seen = Some i)
  /\ (forall j, In j seen -> In (toLowerCase (ProductItem.name j)) (map fst unique)).

(** [uniqueHistoryDaysCount] *)
Definition uniqueHistoryDaysCount (logs : list PurchaseLog) : nat :=
  List.length
    (fold_left (fun s l => set_add Z.eqb s (startOfDay (PurchaseLog.date l))) logs []).

(** The memo [buyList] with the category filter. *)
Definition buyListFor (selectedCategoryFilter : string) (items : list ProductItem)
  : list ProductItem :=
  let filtered := filter ProductItem.onList items in
  if negb (String.eqb selectedCategoryFilter "All")
  then filter (fun i => String.eqb (ProductItem.categoryId i) selectedCategoryFilter) filtered
  else filtered.

(** [active] and [completed] of the memo that computes [activeGroups] and
    [completedToday]. *)
Definition activeOf (buyList : list ProductItem) : list ProductItem :=
  filter (fun i => negb (ProductItem.completed i)) buyList.

Definition completedTodayOf (todayStr : Z) (buyList : list ProductItem)
  : list ProductItem :=
  filter (fun i =>
            ProductItem.completed i
            && truthy_num (ProductItem.completedAt i)
            && (startOfDay (onum_or0 (ProductItem.completedAt i)) =? todayStr))
    buyList.

(** The test of the effect that sends the filter back to 'All'. *)
Definition hasActiveItems (selectedCategoryFilter : string)
  (items : list ProductItem) : bool :=
  existsb (fun i =>
             ProductItem.onList i
             && negb (ProductItem.completed i)
             && String.eqb (ProductItem.categoryId i) selectedCategoryFilter) items.

Definition activeCategoryIds (items : list ProductItem) : list string :=
  fold_left
    (fun activeIds item =>
       if ProductItem.onList item && negb (ProductItem.completed item)
       then set_add String.eqb activeIds (ProductItem.categoryId item)
       else activeIds) items [].

(** [categoryRankings]; [item.purchaseCount || 0] is the count itself. *)
Definition categoryRankings (items : list ProductItem) : list (string * Z) :=
  fold_left
    (fun rankings item =>
       rec_set rankings (ProductItem.categoryId item)
         (onum_or0 (rec_get rankings (ProductItem.categoryId item))
          + ProductItem.purchaseCount item)) items [].

Definition sortedActiveCategories (categories : list CategoryDef)
  (items : list ProductItem) : list CategoryDef :=
  js_sort
    (fun a b =>
       onum_or0 (rec_get (categoryRankings items) (CategoryDef.id b))
       - onum_or0 (rec_get (categoryRankings items) (CategoryDef.id a)))
    (filter (fun cat => set_has String.eqb (activeCategoryIds items) (CategoryDef.id cat))
       categories).

Definition sortedSets (sets : list ShoppingSet) : list ShoppingSet :=
  js_sort
    (fun a b => onum_or0 (ShoppingSet.usageCount b) - onum_or0 (ShoppingSet.usageCount a))
    sets.

(** The [Map] of [historyList], keyed by the lower-case name: its entries
    in insertion order. *)
Definition historyList_unique (items : list ProductItem)
  : list (string * ProductItem) :=
  fold_left
    (fun unique item =>
       if existsb (fun kv => String.eqb (fst kv) (toLowerCase (ProductItem.name item))) unique
       then unique
       else unique ++ [(toLowerCase (ProductItem.name item), item)]) items [].

(** The comparator shared by [historyList] and [historyListFull]. *)
Definition history_cmp (a b : ProductItem) : Z :=
  if negb (ProductItem.purchaseCount b =? ProductItem.purchaseCount a)
  then ProductItem.purchaseCount b - ProductItem.purchaseCount a
  else localeCompare (ProductItem.name a) (ProductItem.name b).

Definition historyList (items : list ProductItem) : list ProductItem :=
  js_sort history_cmp (map snd (historyList_unique items)).

Definition historyListFull (items : list ProductItem) : list ProductItem :=
  js_sort history_cmp items.

(** ** Set registry *)

(** [categories.find(c => c.id === id) || categories.find(c => c.id ===
    'dept_none')!] followed by the reads of [cat.name] and [cat.emoji]:
    [None] when both lookups fail and the read throws. *)
Definition set_tuple (categories : list CategoryDef) (name : string)
  (categoryId : option string) : option SetItem :=
  let found :=
    match categoryId with
    | Some cid => find (fun c => String.eqb (CategoryDef.id c) cid) categories
    | None => None
    end in
  match (match found with Some c => Some c | None => find is_sentinel categories end) with
  | Some cat =>
      Some (SetItem.mk name (CategoryDef.name cat) (str_or (CategoryDef.emoji cat) "📦"))
  | None => None
  end.

(** [a.map(f)] where [f] may throw: the first throw ends the whole map. *)
Fixpoint map_throwing {A B : Type} (f : A -> option B) (l : list A) : option (list B) :=
  match l with
  | [] => Some []
  | x :: r =>
      match f x with
      | Some y =>
          match map_throwing f r with
          | Some ys => Some (y :: ys)
          | None => None
          end
      | None => None
      end
  end.

Definition text_tuple (categories : list CategoryDef) (items : list ProductItem)
  (name : string) : option SetItem :=
  set_tuple categories
    (String.append (toUpperCase (charAt0 name)) (slice1 name))
    (option_map ProductItem.categoryId
       (find (fun it => same_name (ProductItem.name it) name) items)).

(** The callback of the history mode: [Some None] stands for the [null]
    that is filtered out afterwards. *)
Definition history_tuple (categories : list CategoryDef) (items : list ProductItem)
  (id : string) : option (option SetItem) :=
  match find (fun i => String.eqb (ProductItem.id i) id) items with
  | None => Some None
  | Some item =>
      match set_tuple categories (ProductItem.name item)
              (Some (ProductItem.categoryId item)) with
      | Some t => Some (Some t)
      | None => None
      end
  end.

Fixpoint drop_nulls {A : Type} (l : list (option A)) : list A :=
  match l with
  | [] => []
  | Some x :: r => x :: drop_nulls r
  | None :: r => drop_nulls r
  end.

(** The part of [handleManualSetCreate] that builds [setItems]: the outer
    [None] is a guard returning early, the inner one a throw. *)
Definition build_setItems (categories : list CategoryDef)
  (items : list ProductItem) (mode : SetCreationMode)
  : option (option (list SetItem)) :=
  match mode with
  | ModeText lines =>
      match filter (fun s => negb (String.eqb s EmptyString)) (map trim lines) with
      | [] => None
      | rawItems => Some (map_throwing (text_tuple categories items) rawItems)
      end
  | ModeHistory selected =>
      match selected with
      | [] => None
      | _ =>
          Some (option_map drop_nulls
                  (map_throwing (history_tuple categories items) selected))
      end
  | ModeAi preview =>
      match preview with
      | [] => None
      | _ =>
          Some (Some (map fst
                        (filter (fun i => match snd i with
                                          | Some false => false
                                          | _ => true
                                          end) preview)))
      end
  end.

(** [handleManualSetCreate]: [None] when it throws, otherwise the set
    registry it leaves. *)
Definition handleManualSetCreate (categories : list CategoryDef)
  (items : list ProductItem) (newSetName newSetEmoji : string)
  (mode : SetCreationMode) (editingSet : option ShoppingSet) (now : Z)
  (prev : list ShoppingSet) : option (list ShoppingSet) :=
  match trim newSetName with
  | EmptyString => Some prev
  | _ =>
      match build_setItems categories items mode with
      | None => Some prev
      | Some None => None
      | Some (Some setItems) =>
          match editingSet with
          | Some e =>
              Some (map (fun s =>
                           if String.eqb (ShoppingSet.id s) (ShoppingSet.id e)
                           then ShoppingSet.mk (ShoppingSet.id s) newSetName newSetEmoji
                                  setItems (ShoppingSet.usageCount s)
                           else s) prev)
          | None =>
              Some (ShoppingSet.mk (Number_toString now) newSetName newSetEmoji
                      setItems (Some 0) :: prev)
          end
      end
  end.

Definition performSetDelete (set : ShoppingSet) (prev : list ShoppingSet)
  : list ShoppingSet :=
  filter (fun s => negb (String.eqb (ShoppingSet.id s) (ShoppingSet.id set))) prev.

(** ** Retrying an AI call ([callWithRetry]) *)

Definition MODELS : list string := ["gemini-2.0-flash"%string; "gemini-1.5-flash"%string].

(** [MODELS[currentModelIndex] || MODELS[0]] *)
Definition getModelName (currentModelIndex : nat) : string :=
  match nth_error MODELS currentModelIndex with
  | Some m => str_or m (nth O MODELS EmptyString)
  | None => nth O MODELS EmptyString
  end.

Definition num_is (o : option Z) (n : Z) : bool :=
  match o with
  | Some v => v =? n
  | None => false
  end.

Definition message_includes (e : AiError) (sub : string) : bool :=
  match AiError.message e with
  | Some m => includes m sub
  | None => false
  end.

Definition str_is (o : option string) (s : string) : bool :=
  match o with
  | Some v => String.eqb v s
  | None => false
  end.

Definition isModelError (e : AiError) : bool :=
  num_is (AiError.status e) 400
  || num_is (AiError.status e) 404
  || num_is (AiError.code e) 400
  || num_is (AiError.code e) 404
  || message_includes e "400"
  || message_includes e "404"
  || message_includes e "not found"
  || match AiError.error e with
     | Some inner =>
         num_is (InnerError.code inner) 400 || num_is (InnerError.code inner) 404
     | None => false
     end.

Definition isRetryable (e : AiError) : bool :=
  num_is (AiError.status e) 429
  || num_is (AiError.code e) 429
  || num_is (AiError.status e) 503
  || num_is (AiError.code e) 503
  || message_includes e "429"
  || message_includes e "503"
  || message_includes e "quota"
  || message_includes e "RESOURCE_EXHAUSTED"
  || message_includes e "Overloaded"
  || match AiError.error e with
     | Some inner =>
         num_is (InnerError.code inner) 429
         || num_is (InnerError.code inner) 503
         || str_is (InnerError.status inner) "RESOURCE_EXHAUSTED"
         || str_is (InnerError.status inner) "UNAVAILABLE"
     | None => false
     end.

(** [attempts] lists how the successive calls of [fn] end; the result
    carries the value of [currentModelIndex] left behind and the number
    of calls made, and is [None] when the list is used up before the
    function settles.  The waits between calls are left out. *)
Fixpoint callWithRetry {T : Type} (attempts : list (Attempt T)) (retries : Z)
  (currentModelIndex : nat) : option (Settled T * nat * nat) :=
  match attempts with
  | [] => None
  | Resolved v :: _ => Some (Returned v, currentModelIndex, 1%nat)
  | Rejected e :: rest =>
      if isModelError e && (currentModelIndex <? List.length MODELS - 1)%nat
      then
        match callWithRetry rest retries (S currentModelIndex) with
        | Some (r, idx, calls) => Some (r, idx, S calls)
        | None => None
        end
      else if (0 <? retries) && isRetryable e
      then
        match callWithRetry rest (retries - 1) currentModelIndex with
        | Some (r, idx, calls) => Some (r, idx, S calls)
        | None => None
        end
      else Some (Thrown e, currentModelIndex, 1%nat)
  end.

(** ** More sample data *)

(** An uncompleted row on the list. *)
Definition ex_eggs : ProductItem :=
  ProductItem.mk "i3" "Eggs" "dept_2" false true 2 None.

(** The same product as [ex_milk] under another id and letter case. *)
Definition ex_milk_upper : ProductItem :=
  ProductItem.mk "i4" "MILK" "dept_1" false true 9 None.

Definition ex_db_salt : DbItem :=
  DbItem.mk "i9" "Salt" (Some "dept_1"%string) false None.

Definition ex_state_two : AppState :=
  AppState.mk [ex_fruit; ex_dairy; ex_none] [ex_eggs; ex_milk] [ex_set] [] None None.

Definition ex_state_eggs : AppState :=
  AppState.mk [ex_dairy; ex_none] [ex_eggs] [] [] None None.

Definition ex_bulk_lines : list (string * Tick) :=
  [("eggs"%string, Tick.mk 1 "a"); ("   "%string, Tick.mk 2 "b");
   ("eggs"%string, Tick.mk 3 "c")].

(** A bulk-add text with the same line twice: the clock reading is the
    same for both lines, the random suffix differs. *)
Definition ex_bulk_eggs : list (string * Tick) :=
  [("eggs"%string, Tick.mk 1700000000000 "k3x9q");
   ("eggs"%string, Tick.mk 1700000000000 "p07ma")].

Definition ex_eggs_first : ProductItem :=
  ProductItem.mk "1700000000000k3x9q" "Eggs" "dept_2" false true 0 None.

Definition ex_eggs_second : ProductItem :=
  ProductItem.mk "1700000000000p07ma" "Eggs" "dept_2" false true 0 None.

Definition ex_err_429 : AiError := AiError.mk (Some 429) None None None.

Definition ex_err_404 : AiError :=
  AiError.mk None None (Some "model not found"%string) None.

Definition ex_attempts : list (Attempt Z) :=
  [Rejected ex_err_404; Rejected ex_err_429; Resolved 7].

Definition ex_attempts_long : list (Attempt Z) :=
  [Rejected ex_err_429; Rejected ex_err_429; Rejected ex_err_404; Rejected ex_err_429;
   Rejected ex_err_429; Rejected ex_err_429; Rejected ex_err_429].

(** * Theorems *)

(** ** Generic facts on the array methods used by the updaters *)

Lemma nth_error_map_some {A B : Type} (f : A -> B) (l : list A) (k : nat) (x : A) :
  nth_error l k = Some x -> nth_error (map f l) k = Some (f x).
Proof.
  intro H. rewrite nth_error_map, H. reflexivity.
Qed.

Lemma find_some_id_present (id : string) (prev : list ProductItem) (i : ProductItem) :
  In i prev -> ProductItem.id i = id ->
  exists j, find (fun x => String.eqb (ProductItem.id x) id) prev = Some j.
Proof.
  intros Hin Hid.
  destruct (find (fun x => String.eqb (ProductItem.id x) id) prev) as [j|] eqn:E.
  - now exists j.
  - apply (find_none _ _ E) in Hin. rewrite Hid, String.eqb_refl in Hin. discriminate.
Qed.

(** ** Remote insert *)

Lemma onInsert_present (newItem : DbItem) (prev : list ProductItem) (i : ProductItem) :
  In i prev -> ProductItem.id i = DbItem.id newItem -> onInsert newItem prev = prev.
Proof.
  intros Hin Hid. unfold onInsert.
  destruct (find_some_id_present _ _ _ Hin Hid) as [j ->]. reflexivity.
Qed.

Lemma onInsert_idempotent (newItem : DbItem) (prev : list ProductItem) :
  onInsert newItem (onInsert newItem prev) = onInsert newItem prev.
Proof.
  destruct (find (fun i => String.eqb (ProductItem.id i) (DbItem.id newItem)) prev)
    as [j|] eqn:E.
  - assert (H : onInsert newItem prev = prev)
      by (unfold onInsert; rewrite E; reflexivity).
    rewrite H. exact H.
  - assert (H : onInsert newItem prev = prev ++ [fromDb newItem])
      by (unfold onInsert; rewrite E; reflexivity).
    rewrite H. apply (onInsert_present newItem _ (fromDb newItem)).
    + apply in_or_app. right. left. reflexivity.
    + reflexivity.
Qed.

Lemma onInsert_iter (newItem : DbItem) (prev : list ProductItem) (n : nat) :
  Nat.iter (S n) (onInsert newItem) prev = onInsert newItem prev.
Proof.
  induction n as [|n IH].
  - reflexivity.
  - change (Nat.iter (S (S n)) (onInsert newItem) prev)
      with (onInsert newItem (Nat.iter (S n) (onInsert newItem) prev)).
    rewrite IH. apply onInsert_idempotent.
Qed.

(** C4.  A remote insert whose id is already held by a local row returns the
    store as it was: same rows, same fields, same length; and delivering
    the event [S n] times gives what one delivery gives. *)
Theorem remote_insert_of_known_id_is_noop
  (newItem : DbItem) (prev : list ProductItem) (i : ProductItem) :
  In i prev -> ProductItem.id i = DbItem.id newItem ->
  onInsert newItem prev = prev
  /\ List.length (onInsert newItem prev) = List.length prev
  /\ forall n, Nat.iter (S n) (onInsert newItem) prev = onInsert newItem prev.
Proof.
  intros Hin Hid.
  pose proof (onInsert_present newItem prev i Hin Hid) as E.
  split; [exact E|]. split.
  - rewrite E. reflexivity.
  - intro n. apply onInsert_iter.
Qed.

(** ** Remote update *)

Lemma buyList_onUpdate_ids (updatedItem : DbItem) (prev : list ProductItem) :
  map ProductItem.id (buyList (onUpdate updatedItem prev))
  = map ProductItem.id (buyList prev).
Proof.
  unfold buyList, onUpdate.
  induction prev as [|i prev IH]; simpl.
  - reflexivity.
  - destruct (String.eqb (ProductItem.id i) (DbItem.id updatedItem)); simpl;
      destruct (ProductItem.onList i); simpl; rewrite IH; reflexivity.
Qed.

(** C10.  A remote update keeps the id and the onList flag (and the
    completion instant) of the local row it matches and takes name,
    category, completed flag and purchase count from the notification, an
    absent category or count being read as the sentinel id or 0; the ids
    on the buy list are the same before and after. *)
Theorem remote_update_frame
  (updatedItem : DbItem) (prev : list ProductItem) (k : nat) (i : ProductItem) :
  nth_error prev k = Some i ->
  ProductItem.id i = DbItem.id updatedItem ->
  (exists i',
      nth_error (onUpdate updatedItem prev) k = Some i'
      /\ ProductItem.id i' = ProductItem.id i
      /\ ProductItem.onList i' = ProductItem.onList i
      /\ ProductItem.completedAt i' = ProductItem.completedAt i
      /\ ProductItem.name i' = DbItem.text updatedItem
      /\ ProductItem.categoryId i' = ostr_or (DbItem.category updatedItem) sentinel_id
      /\ ProductItem.completed i' = DbItem.is_bought updatedItem
      /\ ProductItem.purchaseCount i' = onum_or0 (DbItem.purchase_count updatedItem))
  /\ List.length (onUpdate updatedItem prev) = List.length prev
  /\ map ProductItem.id (buyList (onUpdate updatedItem prev))
     = map ProductItem.id (buyList prev)
  /\ map ProductItem.onList (onUpdate updatedItem prev) = map ProductItem.onList prev.
Proof.
  intros Hk Hid. split; [|split; [|split]].
  - eexists. split.
    + unfold onUpdate. apply nth_error_map_some. exact Hk.
    + cbv beta. rewrite Hid, String.eqb_refl. simpl. repeat split.
  - unfold onUpdate. apply length_map.
  - apply buyList_onUpdate_ids.
  - unfold onUpdate. rewrite map_map. apply map_ext.
    intro a. destruct (String.eqb _ _); reflexivity.
Qed.

(** ** Toggling and undoing a completion *)

Lemma undoCompletion_armed (today : Z) (st : AppState) (id : string) :
  AppState.lastCompletedItem st = Some id ->
  id <> EmptyString ->
  undoCompletion today st
  = AppState.mk
      (AppState.categories st)
      (undoCompletion_items id (AppState.items st))
      (AppState.sets st)
      (undoCompletion_logs id today (AppState.items st) (AppState.logs st))
      None
      (AppState.lastDeletedItem st).
Proof.
  intros Hlast Hne. unfold undoCompletion. rewrite Hlast.
  destruct id; [congruence|reflexivity].
Qed.

Lemma toggle_item_count_monotone (now : Z) (item : ProductItem) :
  ProductItem.purchaseCount item <= ProductItem.purchaseCount (toggle_item now item).
Proof.
  unfold toggle_item. destruct (ProductItem.completed item); simpl; lia.
Qed.

(** C3.  For a completed row with purchase count n: un-toggling leaves n,
    toggling again gives n + 1; no toggle lowers the count of any row; the
    undo handler, when its slot names the row, gives max 0 (n - 1). *)
Theorem retoggle_counts_once_more
  (id : string) (now1 now2 today1 today2 today3 : Z) (st : AppState)
  (k : nat) (it : ProductItem) :
  nth_error (AppState.items st) k = Some it ->
  ProductItem.id it = id ->
  ProductItem.completed it = true ->
  let st1 := toggleComplete id now1 today1 st in
  let st2 := toggleComplete id now2 today2 st1 in
  (exists it1,
      nth_error (AppState.items st1) k = Some it1
      /\ ProductItem.completed it1 = false
      /\ ProductItem.purchaseCount it1 = ProductItem.purchaseCount it)
  /\ (exists it2,
      nth_error (AppState.items st2) k = Some it2
      /\ ProductItem.completed it2 = true
      /\ ProductItem.purchaseCount it2 = ProductItem.purchaseCount it + 1)
  /\ (forall now x, ProductItem.purchaseCount x
                    <= ProductItem.purchaseCount (toggle_item now x))
  /\ (AppState.lastCompletedItem st = Some id -> id <> EmptyString ->
      exists it3,
        nth_error (AppState.items (undoCompletion today3 st)) k = Some it3
        /\ ProductItem.completed it3 = false
        /\ ProductItem.purchaseCount it3 = Z.max 0 (ProductItem.purchaseCount it - 1)
        /\ 0 <= ProductItem.purchaseCount it3).
Proof.
  intros Hk Hid Hc st1 st2. subst id.
  assert (H1 : nth_error (AppState.items st1) k
               = Some (ProductItem.mk (ProductItem.id it) (ProductItem.name it)
                         (ProductItem.categoryId it) false (ProductItem.onList it)
                         (ProductItem.purchaseCount it) None)).
  { unfold st1, toggleComplete, toggleComplete_items. simpl.
    rewrite (nth_error_map_some _ _ _ _ Hk).
    rewrite String.eqb_refl. unfold toggle_item. rewrite Hc. reflexivity. }
  split; [|split; [|split]].
  - eexists. split; [exact H1|]. split; reflexivity.
  - eexists. split.
    + unfold st2, toggleComplete, toggleComplete_items at 1. simpl.
      rewrite (nth_error_map_some _ _ _ _ H1). simpl.
      rewrite String.eqb_refl. unfold toggle_item. simpl. reflexivity.
    + split; reflexivity.
  - intros now x. apply toggle_item_count_monotone.
  - intros Hlast Hne.
    rewrite (undoCompletion_armed _ _ _ Hlast Hne). simpl.
    unfold undoCompletion_items.
    rewrite (nth_error_map_some _ _ _ _ Hk).
    rewrite String.eqb_refl. eexists. split; [reflexivity|].
    simpl. repeat split. lia.
Qed.

(** ** Daily rollover *)

Lemma rollover_item_prior_day (now t : Z) (item : ProductItem) :
  ProductItem.completed item = true ->
  ProductItem.completedAt item = Some t ->
  t <> 0 ->
  startOfDay t < startOfDay now ->
  rollover_item (startOfDay now) item
  = ProductItem.mk (ProductItem.id item) (ProductItem.name item)
      (ProductItem.categoryId item) false false
      (ProductItem.purchaseCount item) None.
Proof.
  intros Hc Ht Hnz Hlt. unfold rollover_item. rewrite Hc, Ht. simpl.
  destruct (Z.eqb_spec t 0) as [->|_]; [congruence|]. simpl.
  destruct (Z.ltb_spec (startOfDay t) (startOfDay now)); [reflexivity|lia].
Qed.

Lemma rollover_item_same_day (now t : Z) (item : ProductItem) :
  ProductItem.completedAt item = Some t ->
  startOfDay now <= startOfDay t ->
  rollover_item (startOfDay now) item = item.
Proof.
  intros Ht Hle. unfold rollover_item. rewrite Ht. simpl.
  destruct (Z.ltb_spec (startOfDay t) (startOfDay now)); [lia|].
  rewrite andb_false_r. reflexivity.
Qed.

Lemma rollover_item_not_completed (todayStr : Z) (item : ProductItem) :
  ProductItem.completed item = false ->
  rollover_item todayStr item = item.
Proof.
  intro Hc. unfold rollover_item. rewrite Hc. reflexivity.
Qed.

Lemma rollover_item_zero_instant (todayStr : Z) (item : ProductItem) :
  ProductItem.completedAt item = Some 0 ->
  rollover_item todayStr item = item.
Proof.
  intro Ht. unfold rollover_item. rewrite Ht. simpl.
  rewrite andb_false_r. reflexivity.
Qed.

(** Row by row, for every instant other than 0: a completed row of an
    earlier day is reset, every other row is returned as it is. *)
Lemma dailyRollover_rows (now : Z) (prev : list ProductItem) (k : nat)
  (item : ProductItem) :
  nth_error prev k = Some item ->
  ProductItem.completedAt item <> Some 0 ->
  nth_error (dailyRollover now prev) k
  = Some (match ProductItem.completed item, ProductItem.completedAt item with
          | true, Some t =>
              if startOfDay t <? startOfDay now
              then ProductItem.mk (ProductItem.id item) (ProductItem.name item)
                     (ProductItem.categoryId item) false false
                     (ProductItem.purchaseCount item) None
              else item
          | _, _ => item
          end).
Proof.
  intros Hk Hnz. unfold dailyRollover.
  rewrite (nth_error_map_some _ _ _ _ Hk). f_equal.
  unfold rollover_item.
  destruct (ProductItem.completed item); [|reflexivity].
  destruct (ProductItem.completedAt item) as [t|]; [|reflexivity].
  simpl. destruct (Z.eqb_spec t 0) as [->|_]; [congruence|reflexivity].
Qed.

(** ** Purchase log *)

Lemma todays_entry_map (today : Z) (f : PurchaseLog -> PurchaseLog)
  (currentLogs : list PurchaseLog) :
  (forall l, PurchaseLog.date (f l) = PurchaseLog.date l) ->
  todays_entry today (map f currentLogs)
  = option_map f (todays_entry today currentLogs).
Proof.
  intro Hf. unfold todays_entry.
  induction currentLogs as [|l ls IH]; simpl.
  - reflexivity.
  - rewrite Hf. destruct (startOfDay (PurchaseLog.date l) =? today).
    + reflexivity.
    + exact IH.
Qed.

Lemma log_append_today (itemForLog : LogItem) (now today : Z)
  (currentLogs : list PurchaseLog) :
  today = startOfDay now ->
  today_items today (log_append itemForLog now today currentLogs)
  = today_items today currentLogs ++ [itemForLog].
Proof.
  intro Hd. unfold today_items, log_append.
  destruct (todays_entry today currentLogs) as [e|] eqn:E.
  - rewrite todays_entry_map.
    + rewrite E. simpl. rewrite String.eqb_refl. reflexivity.
    + intro l. destruct (String.eqb _ _); reflexivity.
  - unfold todays_entry. simpl. rewrite <- Hd, Z.eqb_refl. reflexivity.
Qed.

Lemma lastIndexOf_none (l : list LogItem) (n : string) :
  (forall y, In y l -> LogItem.name y <> n) ->
  lastIndexOf (map LogItem.name l) n = None.
Proof.
  induction l as [|y l IH]; intro H; simpl.
  - reflexivity.
  - rewrite IH by (intros z Hz; apply H; now right).
    destruct (String.eqb_spec (LogItem.name y) n) as [e|_].
    + exfalso. apply (H y); [now left|exact e].
    + reflexivity.
Qed.

Lemma lastIndexOf_last_match (pre post : list LogItem) (x : LogItem) (n : string) :
  LogItem.name x = n ->
  (forall y, In y post -> LogItem.name y <> n) ->
  lastIndexOf (map LogItem.name (pre ++ x :: post)) n = Some (List.length pre).
Proof.
  intros Hx Hpost. induction pre as [|p pre IH]; simpl.
  - rewrite (lastIndexOf_none post n Hpost). rewrite Hx, String.eqb_refl. reflexivity.
  - rewrite IH. reflexivity.
Qed.

Lemma splice1_middle {A : Type} (pre post : list A) (x : A) :
  splice1 (List.length pre) (pre ++ x :: post) = pre ++ post.
Proof.
  induction pre as [|p pre IH]; simpl.
  - reflexivity.
  - rewrite IH. reflexivity.
Qed.

Lemma log_remove_last_today (n : string) (today : Z)
  (currentLogs : list PurchaseLog) (pre post : list LogItem) (x : LogItem) :
  today_items today currentLogs = pre ++ x :: post ->
  LogItem.name x = n ->
  (forall y, In y post -> LogItem.name y <> n) ->
  today_items today (log_remove_last n today currentLogs) = pre ++ post.
Proof.
  intros Hit Hx Hpost. unfold today_items in Hit. unfold log_remove_last.
  destruct (todays_entry today currentLogs) as [e|] eqn:E.
  - rewrite Hit. rewrite (lastIndexOf_last_match pre post x n Hx Hpost).
    rewrite splice1_middle. unfold today_items.
    rewrite todays_entry_map.
    + rewrite E. simpl. rewrite String.eqb_refl. reflexivity.
    + intro l. destruct (String.eqb _ _); reflexivity.
  - destruct pre; discriminate.
Qed.

Lemma log_remove_last_no_match (n : string) (today : Z)
  (currentLogs : list PurchaseLog) :
  (forall y, In y (today_items today currentLogs) -> LogItem.name y <> n) ->
  log_remove_last n today currentLogs = currentLogs.
Proof.
  intro H. unfold today_items in H. unfold log_remove_last.
  destruct (todays_entry today currentLogs) as [e|]; [|reflexivity].
  rewrite (lastIndexOf_none _ n H). reflexivity.
Qed.

Lemma toggleComplete_logs_no_row (id : string) (now today : Z)
  (prev : list ProductItem) (currentLogs : list PurchaseLog) :
  (forall j, In j prev -> ProductItem.id j <> id) ->
  toggleComplete_logs id now today prev currentLogs = currentLogs.
Proof.
  unfold toggleComplete_logs. revert currentLogs.
  induction prev as [|j prev IH]; intros lg H; simpl.
  - reflexivity.
  - destruct (String.eqb_spec (ProductItem.id j) id) as [e|_].
    + exfalso. apply (H j); [now left|exact e].
    + apply IH. intros z Hz. apply H. now right.
Qed.

Lemma toggleComplete_logs_one_row (now today : Z) (l1 l2 : list ProductItem)
  (it : ProductItem) (currentLogs : list PurchaseLog) :
  (forall j, In j (l1 ++ l2) -> ProductItem.id j <> ProductItem.id it) ->
  toggleComplete_logs (ProductItem.id it) now today (l1 ++ it :: l2) currentLogs
  = toggle_log now today it currentLogs.
Proof.
  intro H. unfold toggleComplete_logs. rewrite fold_left_app. simpl.
  rewrite String.eqb_refl.
  fold (toggleComplete_logs (ProductItem.id it) now today l1 currentLogs).
  rewrite toggleComplete_logs_no_row
    by (intros j Hj; apply H, in_or_app; now left).
  apply (toggleComplete_logs_no_row (ProductItem.id it) now today l2).
  intros j Hj. apply H, in_or_app. now right.
Qed.

Lemma find_unique_row (l1 l2 : list ProductItem) (it : ProductItem) :
  (forall j, In j (l1 ++ l2) -> ProductItem.id j <> ProductItem.id it) ->
  find (fun i => String.eqb (ProductItem.id i) (ProductItem.id it)) (l1 ++ it :: l2)
  = Some it.
Proof.
  intro H. induction l1 as [|j l1 IH]; simpl.
  - rewrite String.eqb_refl. reflexivity.
  - destruct (String.eqb_spec (ProductItem.id j) (ProductItem.id it)) as [e|_].
    + exfalso. apply (H j); [now left|exact e].
    + apply IH. intros z Hz. apply H. now right.
Qed.

Lemma completion_appends_one (now today : Z) (st : AppState)
  (l1 l2 : list ProductItem) (it : ProductItem) :
  AppState.items st = l1 ++ it :: l2 ->
  (forall j, In j (l1 ++ l2) -> ProductItem.id j <> ProductItem.id it) ->
  today = startOfDay now ->
  ProductItem.completed it = false ->
  today_items today (AppState.logs (toggleComplete (ProductItem.id it) now today st))
  = today_items today (AppState.logs st)
      ++ [LogItem.mk (ProductItem.name it) (ProductItem.categoryId it)].
Proof.
  intros Hit Hu Hd Hc. unfold toggleComplete. simpl. rewrite Hit.
  rewrite (toggleComplete_logs_one_row now today l1 l2 it _ Hu).
  unfold toggle_log. rewrite Hc. simpl.
  apply log_append_today. exact Hd.
Qed.

(** C6.  With the row of an item identified by its id: completing it adds
    one {name, categoryId} tuple at the end of today's entry (an entry
    being created when there was none); a second completion of the same
    item on that day leaves two such tuples; un-toggling a completed row,
    and the undo handler, remove the last tuple of today's entry carrying
    the item's name and keep the tuples before and after it. *)
Theorem purchase_log_bookkeeping
  (now today : Z) (st : AppState) (l1 l2 : list ProductItem) (it : ProductItem) :
  AppState.items st = l1 ++ it :: l2 ->
  (forall j, In j (l1 ++ l2) -> ProductItem.id j <> ProductItem.id it) ->
  today = startOfDay now ->
  let tup := LogItem.mk (ProductItem.name it) (ProductItem.categoryId it) in
  let logs1 := AppState.logs (toggleComplete (ProductItem.id it) now today st) in
  (ProductItem.completed it = false ->
   today_items today logs1 = today_items today (AppState.logs st) ++ [tup])
  /\ (ProductItem.completed it = false ->
      forall now' st' l1' l2' it',
        AppState.items st' = l1' ++ it' :: l2' ->
        (forall j, In j (l1' ++ l2') -> ProductItem.id j <> ProductItem.id it') ->
        today = startOfDay now' ->
        AppState.logs st' = logs1 ->
        ProductItem.name it' = ProductItem.name it ->
        ProductItem.categoryId it' = ProductItem.categoryId it ->
        ProductItem.completed it' = false ->
        today_items today
          (AppState.logs (toggleComplete (ProductItem.id it') now' today st'))
        = today_items today (AppState.logs st) ++ [tup; tup])
  /\ (ProductItem.completed it = true ->
      forall pre x post,
        today_items today (AppState.logs st) = pre ++ x :: post ->
        LogItem.name x = ProductItem.name it ->
        (forall y, In y post -> LogItem.name y <> ProductItem.name it) ->
        today_items today logs1 = pre ++ post)
  /\ (AppState.lastCompletedItem st = Some (ProductItem.id it) ->
      ProductItem.id it <> EmptyString ->
      forall pre x post,
        today_items today (AppState.logs st) = pre ++ x :: post ->
        LogItem.name x = ProductItem.name it ->
        (forall y, In y post -> LogItem.name y <> ProductItem.name it) ->
        today_items today (AppState.logs (undoCompletion today st)) = pre ++ post).
Proof.
  intros Hit Hu Hd tup logs1.
  assert (Hfirst : ProductItem.completed it = false ->
                   today_items today logs1
                   = today_items today (AppState.logs st) ++ [tup]).
  { intro Hc. apply (completion_appends_one now today st l1 l2 it Hit Hu Hd Hc). }
  split; [exact Hfirst|]. split; [|split].
  - intros Hc now' st' l1' l2' it' Hit' Hu' Hd' Hl Hn Hcat Hc'.
    rewrite (completion_appends_one now' today st' l1' l2' it' Hit' Hu' Hd' Hc').
    rewrite Hl, (Hfirst Hc), Hn, Hcat, <- app_assoc. reflexivity.
  - intros Hc pre x post Hlog Hx Hpost.
    unfold logs1, toggleComplete. simpl. rewrite Hit.
    rewrite (toggleComplete_logs_one_row now today l1 l2 it _ Hu).
    unfold toggle_log. rewrite Hc. simpl.
    apply (log_remove_last_today _ _ _ pre post x Hlog Hx Hpost).
  - intros Hlast Hne pre x post Hlog Hx Hpost.
    rewrite (undoCompletion_armed _ _ _ Hlast Hne). simpl.
    unfold undoCompletion_logs. rewrite Hit.
    rewrite (find_unique_row l1 l2 it Hu).
    apply (log_remove_last_today _ _ _ pre post x Hlog Hx Hpost).
Qed.

(** ** Finalize-add *)

Lemma find_first_index {A : Type} (p : A -> bool) (l : list A) (x : A) :
  find p l = Some x ->
  exists k, nth_error l k = Some x /\ p x = true
            /\ forall m y, (m < k)%nat -> nth_error l m = Some y -> p y = false.
Proof.
  induction l as [|a l IH]; simpl; intro H.
  - discriminate.
  - destruct (p a) eqn:Ea.
    + injection H as <-. exists O. split; [reflexivity|]. split; [exact Ea|].
      intros m y Hm. lia.
    + destruct (IH H) as [k [Hk [Hp Hmin]]].
      exists (S k). split; [exact Hk|]. split; [exact Hp|].
      intros [|m] y Hm Hy.
      * simpl in Hy. injection Hy as <-. exact Ea.
      * simpl in Hy. apply (Hmin m y); [lia|exact Hy].
Qed.

(** X30.  The merge of finalize-add, for a call whose snapshot [items]
    is the store it writes to.  When the normalised name is found among the
    items (compared in lower case), finalize-add keeps the number of rows
    and the ids; the found row ends with onList = requested || previous
    (so an on-list row
    stays on the list), with completed and completedAt cleared when
    onList = true was requested and kept otherwise, with the supplied
    category when it is not the sentinel id and its own category
    otherwise; name, id and purchase count are kept, and rows with another
    id are untouched. *)
Theorem finalize_add_merges_into_existing
  (items : list ProductItem) (name categoryId : string) (onList : bool)
  (tk : Tick) (existing : ProductItem) :
  find (fun i => same_name (ProductItem.name i) (capName name)) items = Some existing ->
  let items' := finalizeAddItem items name categoryId onList tk items in
  List.length items' = List.length items
  /\ map ProductItem.id items' = map ProductItem.id items
  /\ (exists k existing',
         nth_error items k = Some existing
         /\ nth_error items' k = Some existing'
         /\ ProductItem.onList existing' = onList || ProductItem.onList existing
         /\ (ProductItem.onList existing = true -> ProductItem.onList existing' = true)
         /\ (onList = true ->
             ProductItem.completed existing' = false
             /\ ProductItem.completedAt existing' = None)
         /\ (onList = false ->
             ProductItem.completed existing' = ProductItem.completed existing
             /\ ProductItem.completedAt existing' = ProductItem.completedAt existing)
         /\ (categoryId <> sentinel_id -> ProductItem.categoryId existing' = categoryId)
         /\ (categoryId = sentinel_id ->
             ProductItem.categoryId existing' = ProductItem.categoryId existing)
         /\ ProductItem.id existing' = ProductItem.id existing
         /\ ProductItem.name existing' = ProductItem.name existing
         /\ ProductItem.purchaseCount existing' = ProductItem.purchaseCount existing)
  /\ (forall k i, nth_error items k = Some i ->
                  ProductItem.id i <> ProductItem.id existing ->
                  nth_error items' k = Some i).
Proof.
  intros Hfind items'.
  assert (E : items' = map (fun i =>
                if String.eqb (ProductItem.id i) (ProductItem.id existing)
                then merge_item existing categoryId onList i else i) items).
  { unfold items', finalizeAddItem. rewrite Hfind. reflexivity. }
  destruct (find_first_index _ _ _ Hfind) as [k [Hk _]].
  split; [|split; [|split]].
  - rewrite E. apply length_map.
  - rewrite E, map_map. apply map_ext. intro a.
    destruct (String.eqb _ _); reflexivity.
  - exists k. eexists. split; [exact Hk|]. split.
    + rewrite E. apply nth_error_map_some. exact Hk.
    + cbv beta. rewrite String.eqb_refl. unfold merge_item. simpl.
      split; [reflexivity|]. split.
      { intro H. rewrite H. apply orb_true_r. }
      split. { intros ->. split; reflexivity. }
      split. { intros ->. split; reflexivity. }
      split. { intro H. destruct (String.eqb_spec categoryId sentinel_id); [contradiction|reflexivity]. }
      split. { intros ->. rewrite String.eqb_refl. reflexivity. }
      repeat split.
  - intros m i Hm Hne. rewrite E. rewrite (nth_error_map_some _ _ _ _ Hm).
    destruct (String.eqb_spec (ProductItem.id i) (ProductItem.id existing)); [contradiction|reflexivity].
Qed.

(** ** Generated ids *)

Lemma digit_char_not_n (d : Z) : 0 <= d < 10 -> digit_char d <> "n"%char.
Proof.
  intro H.
  assert (C : d = 0 \/ d = 1 \/ d = 2 \/ d = 3 \/ d = 4 \/ d = 5 \/ d = 6
              \/ d = 7 \/ d = 8 \/ d = 9) by lia.
  repeat (destruct C as [-> | C]); try subst d; compute; discriminate.
Qed.

Lemma digits_acc_head (fuel : nat) (n : Z) (acc : string) :
  exists d rest, 0 <= d < 10 /\ digits_acc (S fuel) n acc = String (digit_char d) rest.
Proof.
  revert n acc. induction fuel as [|fuel IH]; intros n acc.
  - exists (n mod 10), acc. split; [apply Z.mod_pos_bound; lia|].
    simpl. destruct (n / 10 =? 0); reflexivity.
  - change (digits_acc (S (S fuel)) n acc)
      with (let acc' := String (digit_char (n mod 10)) acc in
            if n / 10 =? 0 then acc' else digits_acc (S fuel) (n / 10) acc').
    cbv zeta. destruct (n / 10 =? 0).
    + exists (n mod 10), acc. split; [apply Z.mod_pos_bound; lia|reflexivity].
    + apply IH.
Qed.

Lemma Number_toString_head (n : Z) :
  exists c rest, Number_toString n = String c rest /\ c <> "n"%char.
Proof.
  unfold Number_toString. destruct (n <? 0).
  - eexists. eexists. split; [reflexivity|]. discriminate.
  - destruct (digits_acc_head (Z.to_nat (Z.log2 n)) n EmptyString)
      as [d [rest [Hd E]]].
    exists (digit_char d), rest. split; [exact E|]. apply digit_char_not_n. exact Hd.
Qed.

Lemma new_cat_id_now_not_sentinel (now : Z) :
  String.eqb (new_cat_id_now now) sentinel_id = false.
Proof.
  apply String.eqb_neq. unfold new_cat_id_now, sentinel_id.
  destruct (Number_toString_head now) as [c [rest [E Hc]]]. rewrite E. simpl.
  intro H. injection H as H _. apply Hc. exact H.
Qed.

Lemma new_cat_id_not_sentinel (tk : Tick) :
  String.eqb (new_cat_id tk) sentinel_id = false.
Proof.
  apply String.eqb_neq. unfold new_cat_id, sentinel_id.
  destruct (Number_toString_head (Tick.now tk)) as [c [rest [E Hc]]]. rewrite E. simpl.
  intro H. injection H as H _. apply Hc. exact H.
Qed.

Lemma new_cat_id_nonempty (tk : Tick) :
  str_or (new_cat_id tk) sentinel_id = new_cat_id tk.
Proof.
  unfold new_cat_id. reflexivity.
Qed.

(** ** Category listings *)

Lemma sentinel_last_snoc (l : list CategoryDef) (c : CategoryDef) :
  sentinel_last (l ++ [c]) = is_sentinel c.
Proof.
  unfold sentinel_last. rewrite map_app. simpl. rewrite last_last. reflexivity.
Qed.

Lemma systemNone_is_sentinel (cats : list CategoryDef) :
  is_sentinel (systemNone cats) = true.
Proof.
  unfold systemNone. destruct (find is_sentinel cats) as [c|] eqn:E.
  - apply (find_some _ _ E).
  - reflexivity.
Qed.

Lemma sentinel_last_inv (cats : list CategoryDef) :
  sentinel_last cats = true ->
  exists l c, cats = l ++ [c] /\ is_sentinel c = true.
Proof.
  intro H. destruct (exists_last (l := cats)) as [l [c E]].
  - intros ->. discriminate.
  - exists l, c. split; [exact E|]. rewrite E, sentinel_last_snoc in H. exact H.
Qed.

Lemma sentinel_last_two (l : list CategoryDef) (a c : CategoryDef) :
  sentinel_last (l ++ [a; c]) = is_sentinel c.
Proof.
  change (l ++ [a; c]) with (l ++ [a] ++ [c]).
  rewrite app_assoc. apply sentinel_last_snoc.
Qed.

Lemma saveCategory_cats_sentinel_last (editingCategory : option CategoryDef)
  (catName catEmoji : string) (now : Z) (prev : list CategoryDef) :
  sentinel_last (saveCategory_cats editingCategory catName catEmoji now prev) = true.
Proof.
  unfold saveCategory_cats. rewrite sentinel_last_two. apply systemNone_is_sentinel.
Qed.

Lemma reorderCats_sentinel_last (cats : list CategoryDef) :
  sentinel_last (reorderCats cats) = true.
Proof.
  unfold reorderCats. rewrite sentinel_last_snoc. apply systemNone_is_sentinel.
Qed.

Lemma performDeleteCategory_sentinel_last (id : string) (prev : list CategoryDef) :
  String.eqb id sentinel_id = false ->
  sentinel_last prev = true ->
  sentinel_last (performDeleteCategory_cats id prev) = true.
Proof.
  intros Hid H. destruct (sentinel_last_inv prev H) as [l [c [-> Hc]]].
  unfold performDeleteCategory_cats. rewrite filter_app. simpl.
  unfold is_sentinel in Hc. apply String.eqb_eq in Hc. rewrite Hc.
  rewrite String.eqb_sym, Hid. simpl.
  rewrite sentinel_last_snoc. unfold is_sentinel. rewrite Hc. apply String.eqb_refl.
Qed.

Lemma step_keeps_sentinel_last (st : AppState) (a : Action) :
  sentinel_last (AppState.categories st) = true ->
  sentinel_last (AppState.categories (step st a)) = true.
Proof.
  intro H. destruct a; simpl; try exact H.
  - unfold handleAddItemFromModal.
    destruct (trim addItemText); [exact H|].
    destruct (find _ (AppState.items st)); [exact H|].
    destruct (negb isAiEnabled || _); [exact H|].
    destruct ai; try exact H.
    destruct (find _ (AppState.categories st)); [exact H|].
    simpl. rewrite sentinel_last_two. apply systemNone_is_sentinel.
  - unfold undoCompletion. destruct (AppState.lastCompletedItem st) as [[|c r]|]; exact H.
  - destruct (openCategoryModal cat) as [e|]; [|exact H].
    unfold saveCategory. destruct (trim catName); [exact H|].
    simpl. apply saveCategory_cats_sentinel_last.
  - unfold deleteCategory. destruct (String.eqb id sentinel_id) eqn:E; [exact H|].
    simpl. apply performDeleteCategory_sentinel_last; assumption.
  - apply reorderCats_sentinel_last.
  - apply reorderCats_sentinel_last.
Qed.

(** C2, as amended.  From a state whose listing ends with the sentinel,
    every sequence of handler calls and remote events (category create,
    edit and delete, set expansion, acceptance of dictated items, AI
    categorisation, and all item operations) leads to a listing that ends
    with the sentinel. *)
Theorem sentinel_stays_last (st : AppState) (actions : list Action) :
  sentinel_last (AppState.categories st) = true ->
  sentinel_last (AppState.categories (run st actions)) = true.
Proof.
  unfold run. revert st.
  induction actions as [|a actions IH]; intros st H; simpl.
  - exact H.
  - apply IH. apply step_keeps_sentinel_last. exact H.
Qed.

Lemma filter_filter_and {A : Type} (p q : A -> bool) (l : list A) :
  filter p (filter (fun x => p x && q x) l) = filter q (filter p l).
Proof.
  induction l as [|a l IH]; simpl.
  - reflexivity.
  - destruct (p a) eqn:Ep; simpl.
    + destruct (q a); simpl; rewrite ?Ep, IH; reflexivity.
    + exact IH.
Qed.

Lemma filter_and_absorb {A : Type} (p q : A -> bool) (l : list A) :
  filter p (filter (fun x => p x && q x) l) = filter (fun x => p x && q x) l.
Proof.
  induction l as [|a l IH]; simpl.
  - reflexivity.
  - destruct (p a) eqn:Ep; simpl.
    + destruct (q a); simpl.
      * rewrite Ep, IH. reflexivity.
      * exact IH.
    + exact IH.
Qed.

(** C9, as amended.  Saving an edited non-sentinel category removes its
    old row and puts the new row (same id, new name and emoji) after all
    other non-sentinel categories, just before the sentinel; a created
    category is put at the same place; the other non-sentinel categories
    keep their order. *)
Theorem saved_category_goes_before_sentinel
  (cat editingCategory : option CategoryDef) (catName catEmoji : string)
  (now : Z) (prev : list CategoryDef) :
  openCategoryModal cat = Some editingCategory ->
  let cats' := saveCategory_cats editingCategory catName catEmoji now prev in
  cats' = others cats' ++ [systemNone prev]
  /\ others cats'
     = match editingCategory with
       | Some e =>
           filter (fun c => negb (String.eqb (CategoryDef.id c) (CategoryDef.id e)))
             (others prev)
           ++ [CategoryDef.mk (CategoryDef.id e) catName catEmoji]
       | None =>
           others prev ++ [CategoryDef.mk (new_cat_id_now now) catName catEmoji]
       end.
Proof.
  intros Hopen cats'.
  assert (Hnew : is_sentinel
                   (CategoryDef.mk
                      (match editingCategory with
                       | Some e => CategoryDef.id e
                       | None => new_cat_id_now now
                       end) catName catEmoji) = false).
  { unfold is_sentinel. simpl. destruct editingCategory as [e|].
    - destruct cat as [c|]; simpl in Hopen; [|discriminate].
      destruct (is_sentinel c) eqn:Ec; [discriminate|].
      injection Hopen as <-. exact Ec.
    - apply new_cat_id_now_not_sentinel. }
  assert (Hothers : others cats'
                    = filter (fun c =>
                                negb (is_sentinel c)
                                && match editingCategory with
                                   | Some e => negb (String.eqb (CategoryDef.id c) (CategoryDef.id e))
                                   | None => true
                                   end) prev
                      ++ [CategoryDef.mk
                            (match editingCategory with
                             | Some e => CategoryDef.id e
                             | None => new_cat_id_now now
                             end) catName catEmoji]).
  { unfold cats', saveCategory_cats, others. rewrite filter_app. simpl.
    rewrite Hnew, systemNone_is_sentinel. simpl.
    rewrite (filter_and_absorb (fun c => negb (is_sentinel c))).
    reflexivity. }
  split.
  - rewrite Hothers. unfold cats', saveCategory_cats.
    rewrite <- app_assoc. reflexivity.
  - rewrite Hothers. destruct editingCategory as [e|].
    + f_equal. unfold others.
      rewrite <- (filter_filter_and (fun c => negb (is_sentinel c))).
      symmetry. apply (filter_and_absorb (fun c => negb (is_sentinel c))).
    + f_equal. unfold others. apply filter_ext.
      intro a. apply andb_true_r.
Qed.

(** ** Set expansion *)

Lemma finalizeAddItem_keeps_row (items : list ProductItem)
  (name categoryId : string) (onList : bool) (tk : Tick)
  (prev : list ProductItem) (R : ProductItem) :
  ~ In (ProductItem.id R) (map ProductItem.id items) ->
  In R prev ->
  In R (finalizeAddItem items name categoryId onList tk prev).
Proof.
  intros Hfresh Hin. unfold finalizeAddItem.
  destruct (find _ items) as [existing|] eqn:E.
  - apply in_map_iff. exists R. split; [|exact Hin].
    destruct (String.eqb_spec (ProductItem.id R) (ProductItem.id existing)) as [e|_].
    + exfalso. apply Hfresh. rewrite e. apply in_map.
      apply (find_some _ _ E).
    + reflexivity.
  - right. exact Hin.
Qed.

Lemma expand_one_cases (items : list ProductItem) (C : list CategoryDef)
  (P : list ProductItem) (n cn em : string) (ctk itk : Tick) :
  exists C' cid,
    expand_one items (C, P) ((n, cn, em), (ctk, itk))
    = (C', finalizeAddItem items n cid true itk P)
    /\ (C' = C
        \/ C' = C ++ [CategoryDef.mk (new_cat_id ctk) cn (str_or em "📦")]).
Proof.
  unfold expand_one.
  destruct (find _ items) as [h|].
  - eexists. eexists. split; [reflexivity|]. now left.
  - destruct (find _ C) as [c|].
    + eexists. eexists. split; [reflexivity|]. now left.
    + eexists. eexists. split; [reflexivity|]. now right.
Qed.

Lemma expand_one_no_history (items : list ProductItem) (C : list CategoryDef)
  (P : list ProductItem) (n cn em : string) (ctk itk : Tick) :
  find (fun i => same_name (ProductItem.name i) n) items = None ->
  expand_one items (C, P) ((n, cn, em), (ctk, itk))
  = match find (fun c => same_name (CategoryDef.name c) cn) C with
    | Some cat => (C, finalizeAddItem items n (CategoryDef.id cat) true itk P)
    | None =>
        (C ++ [CategoryDef.mk (new_cat_id ctk) cn (str_or em "📦")],
         finalizeAddItem items n (new_cat_id ctk) true itk P)
    end.
Proof.
  intro H. unfold expand_one. rewrite H. reflexivity.
Qed.

Lemma expand_fold_keeps_row (items : list ProductItem) (rqs : list AddRequest)
  (C : list CategoryDef) (P : list ProductItem) (R : ProductItem) :
  ~ In (ProductItem.id R) (map ProductItem.id items) ->
  In R P ->
  In R (snd (fold_left (expand_one items) rqs (C, P))).
Proof.
  intro Hfresh. revert C P.
  induction rqs as [|[[[n cn] em] [ctk itk]] rqs IH]; intros C P Hin; cbn [fold_left].
  - exact Hin.
  - destruct (expand_one_cases items C P n cn em ctk itk) as [C' [cid [E _]]].
    rewrite E. apply IH. apply finalizeAddItem_keeps_row; assumption.
Qed.

Lemma expand_fold_cats_grow (items : list ProductItem) (rqs : list AddRequest)
  (C : list CategoryDef) (P : list ProductItem) (c : CategoryDef) :
  In c C -> In c (fst (fold_left (expand_one items) rqs (C, P))).
Proof.
  revert C P.
  induction rqs as [|[[[n cn] em] [ctk itk]] rqs IH]; intros C P Hin; cbn [fold_left].
  - exact Hin.
  - destruct (expand_one_cases items C P n cn em ctk itk) as [C' [cid [E [-> | ->]]]];
      rewrite E; apply IH.
    + exact Hin.
    + apply in_or_app. now left.
Qed.

Lemma expand_fold_cats_origin (items : list ProductItem) (rqs : list AddRequest)
  (C : list CategoryDef) (P : list ProductItem) (c : CategoryDef) :
  In c (fst (fold_left (expand_one items) rqs (C, P))) ->
  In c C
  \/ exists rq tk, In rq rqs
                   /\ CategoryDef.name c = rq_categoryName rq
                   /\ CategoryDef.id c = new_cat_id tk.
Proof.
  revert C P.
  induction rqs as [|[[[n cn] em] [ctk itk]] rqs IH]; intros C P Hin; cbn [fold_left] in Hin.
  - now left.
  - destruct (expand_one_cases items C P n cn em ctk itk) as [C' [cid [E [-> | ->]]]];
      rewrite E in Hin; destruct (IH _ _ Hin) as [H | [rq [tk [Hrq H]]]].
    + now left.
    + right. exists rq, tk. split; [now right|exact H].
    + apply in_app_or in H. destruct H as [H | [<- | []]].
      * now left.
      * right. exists ((n, cn, em), (ctk, itk)), ctk.
        split; [now left|]. split; reflexivity.
    + right. exists rq, tk. split; [now right|exact H].
Qed.

Lemma same_name_refl (a : string) : same_name a a = true.
Proof.
  unfold same_name. apply String.eqb_refl.
Qed.

Lemma expand_all_new_category (categories : list CategoryDef)
  (items : list ProductItem) (r1 r2 : list AddRequest)
  (n cn em : string) (ctk itk : Tick) :
  find (fun i => same_name (ProductItem.name i) n) items = None ->
  find (fun i => same_name (ProductItem.name i) (capName n)) items = None ->
  find (fun c => same_name (CategoryDef.name c) cn) categories = None ->
  ~ In (new_item_id itk) (map ProductItem.id items) ->
  let r := expand_all categories items (r1 ++ ((n, cn, em), (ctk, itk)) :: r2) in
  exists c,
    In c (fst r)
    /\ is_sentinel c = false
    /\ ~ In c categories
    /\ same_name (CategoryDef.name c) cn = true
    /\ ((forall y, In y r1 -> same_name (rq_categoryName y) cn = false) ->
        c = CategoryDef.mk (new_cat_id ctk) cn (str_or em "📦"))
    /\ In (ProductItem.mk (new_item_id itk) (capName n) (CategoryDef.id c)
             false true 0 None) (snd r).
Proof.
  intros H1 H1' H2 Hfresh r. unfold r, expand_all.
  rewrite fold_left_app. cbn [fold_left].
  destruct (fold_left (expand_one items) r1 (categories, items)) as [C1 P1] eqn:E1.
  assert (Horigin : forall c, In c C1 ->
            In c categories
            \/ exists rq tk, In rq r1
                             /\ CategoryDef.name c = rq_categoryName rq
                             /\ CategoryDef.id c = new_cat_id tk).
  { intros c Hc. apply (expand_fold_cats_origin items r1 categories items).
    rewrite E1. exact Hc. }
  assert (Hold : forall c, In c categories -> same_name (CategoryDef.name c) cn = false).
  { intros c Hc. apply (find_none _ _ H2 c Hc). }
  rewrite (expand_one_no_history items C1 P1 n cn em ctk itk H1).
  destruct (find (fun c => same_name (CategoryDef.name c) cn) C1) as [cat|] eqn:Ecat.
  - destruct (find_some _ _ Ecat) as [HinC1 Hsame].
    destruct (Horigin cat HinC1) as [Hc | [rq [tk [Hrq [Hname Hid]]]]].
    + rewrite (Hold cat Hc) in Hsame. discriminate.
    + exists cat. split.
      { apply expand_fold_cats_grow. exact HinC1. }
      split. { unfold is_sentinel. rewrite Hid. apply new_cat_id_not_sentinel. }
      split. { intro Hc. rewrite (Hold cat Hc) in Hsame. discriminate. }
      split. { exact Hsame. }
      split.
      { intro Hfirst. specialize (Hfirst rq Hrq).
        rewrite <- Hname, Hsame in Hfirst. discriminate. }
      apply expand_fold_keeps_row; [exact Hfresh|].
      unfold finalizeAddItem. rewrite H1'. left.
      rewrite Hid, new_cat_id_nonempty. reflexivity.
  - exists (CategoryDef.mk (new_cat_id ctk) cn (str_or em "📦")). split.
    { apply expand_fold_cats_grow. apply in_or_app. right. now left. }
    split. { unfold is_sentinel. simpl. apply new_cat_id_not_sentinel. }
    split.
    { intro Hc. pose proof (Hold _ Hc) as Hf. simpl in Hf.
      rewrite same_name_refl in Hf. discriminate. }
    split. { simpl. apply same_name_refl. }
    split. { intros _. reflexivity. }
    apply expand_fold_keeps_row; [exact Hfresh|].
    unfold finalizeAddItem. rewrite H1'. left.
    rewrite new_cat_id_nonempty. reflexivity.
Qed.

Lemma others_reorderCats (cats : list CategoryDef) :
  others (reorderCats cats) = others cats.
Proof.
  unfold others, reorderCats. rewrite filter_app. simpl.
  rewrite systemNone_is_sentinel. simpl. rewrite app_nil_r.
  induction cats as [|a l IH]; simpl.
  - reflexivity.
  - destruct (is_sentinel a) eqn:E; simpl.
    + exact IH.
    + rewrite E. simpl. rewrite IH. reflexivity.
Qed.

Lemma bump_usage_row (set : ShoppingSet) (prev : list ShoppingSet)
  (k : nat) (s : ShoppingSet) :
  nth_error prev k = Some s ->
  ShoppingSet.id s = ShoppingSet.id set ->
  nth_error (bump_usage set prev) k
  = Some (ShoppingSet.mk (ShoppingSet.id s) (ShoppingSet.name s)
            (ShoppingSet.emoji s) (ShoppingSet.items s)
            (Some (onum_or0 (ShoppingSet.usageCount s) + 1))).
Proof.
  intros Hk Hid. unfold bump_usage.
  rewrite (nth_error_map_some _ _ _ _ Hk). rewrite Hid, String.eqb_refl.
  rewrite <- Hid. reflexivity.
Qed.

(** C8.  Expanding a set adds 1 to the usage count of the stored set with
    that id, whatever tuples were chosen (an absent count reads as 0).  A
    chosen tuple whose name is found among the items neither as written
    nor in its normalised form, and whose category name is found among
    the categories under no letter case, leaves behind a category that
    was not there before, of that name up to letter case (and exactly the
    tuple's name and emoji when no earlier chosen tuple asked for that
    name), placed among the rows before the final sentinel row, and a new
    on-list item row of that category under the normalised name, provided
    the generated item id is not already in use. *)
Theorem set_expansion_usage_and_new_category :
  (forall (set : ShoppingSet) (itemsToAdd : list (SetItem * (Tick * Tick)))
          (st : AppState) (k : nat) (s : ShoppingSet),
      nth_error (AppState.sets st) k = Some s ->
      ShoppingSet.id s = ShoppingSet.id set ->
      exists s',
        nth_error (AppState.sets (addSpecificItemsFromSet set itemsToAdd st)) k = Some s'
        /\ ShoppingSet.usageCount s' = Some (onum_or0 (ShoppingSet.usageCount s) + 1)
        /\ ShoppingSet.id s' = ShoppingSet.id s
        /\ ShoppingSet.items s' = ShoppingSet.items s)
  /\ (forall (set : ShoppingSet) (r1 r2 : list (SetItem * (Tick * Tick)))
             (x : SetItem * (Tick * Tick)) (st : AppState),
      let n := SetItem.name (fst x) in
      let cn := SetItem.categoryName (fst x) in
      find (fun i => same_name (ProductItem.name i) n) (AppState.items st) = None ->
      find (fun i => same_name (ProductItem.name i) (capName n)) (AppState.items st) = None ->
      find (fun c => same_name (CategoryDef.name c) cn) (AppState.categories st) = None ->
      ~ In (new_item_id (snd (snd x))) (map ProductItem.id (AppState.items st)) ->
      let st' := addSpecificItemsFromSet set (r1 ++ x :: r2) st in
      exists c last,
        AppState.categories st' = others (AppState.categories st') ++ [last]
        /\ is_sentinel last = true
        /\ In c (others (AppState.categories st'))
        /\ ~ In c (AppState.categories st)
        /\ same_name (CategoryDef.name c) cn = true
        /\ ((forall y, In y r1 -> same_name (SetItem.categoryName (fst y)) cn = false) ->
            c = CategoryDef.mk (new_cat_id (fst (snd x))) cn
                  (str_or (SetItem.emoji (fst x)) "📦"))
        /\ In (ProductItem.mk (new_item_id (snd (snd x))) (capName n)
                 (CategoryDef.id c) false true 0 None) (AppState.items st')).
Proof.
  split.
  - intros set itemsToAdd st k s Hk Hid. eexists. split.
    + unfold addSpecificItemsFromSet. simpl. apply bump_usage_row; eassumption.
    + simpl. repeat split.
  - intros set r1 r2 [si [ctk itk]] st n cn H1 H1' H2 Hfresh st'.
    simpl in n, cn, Hfresh.
    destruct (expand_all_new_category (AppState.categories st) (AppState.items st)
                (map set_request r1) (map set_request r2)
                n cn (SetItem.emoji si) ctk itk H1 H1' H2 Hfresh)
      as [c [Hin [Hns [Hnew [Hsame [Hfirst Hrow]]]]]].
    assert (Ereq : map set_request (r1 ++ (si, (ctk, itk)) :: r2)
                   = map set_request r1
                     ++ ((n, cn, SetItem.emoji si), (ctk, itk)) :: map set_request r2).
    { rewrite map_app. reflexivity. }
    exists c, (systemNone (fst (expand_all (AppState.categories st) (AppState.items st)
                                   (map set_request (r1 ++ (si, (ctk, itk)) :: r2))))).
    unfold st', addSpecificItemsFromSet. cbn [AppState.categories AppState.items].
    rewrite others_reorderCats. rewrite Ereq.
    split. { reflexivity. }
    split. { apply systemNone_is_sentinel. }
    split. { unfold others. apply filter_In. split; [exact Hin|]. rewrite Hns. reflexivity. }
    split. { exact Hnew. }
    split. { exact Hsame. }
    split.
    { intro Hy. simpl. apply Hfirst. intros y Hin_y.
      apply in_map_iff in Hin_y. destruct Hin_y as [y0 [<- Hy0]].
      apply (Hy y0 Hy0). }
    exact Hrow.
Qed.

(** ** Agreement of [completed] and [completedAt] *)

Lemma map_coherent (f : ProductItem -> ProductItem) (l : list ProductItem) :
  (forall i, In i l -> coherent i = true -> coherent (f i) = true) ->
  Forall (fun i => coherent i = true) l ->
  Forall (fun i => coherent i = true) (map f l).
Proof.
  intros Hf Hl. apply Forall_forall. intros y Hy.
  apply in_map_iff in Hy. destruct Hy as [i [<- Hi]].
  apply Hf; [exact Hi|]. rewrite Forall_forall in Hl. apply Hl. exact Hi.
Qed.

Lemma filter_coherent (p : ProductItem -> bool) (l : list ProductItem) :
  Forall (fun i => coherent i = true) l ->
  Forall (fun i => coherent i = true) (filter p l).
Proof.
  intro Hl. apply Forall_forall. intros y Hy.
  apply filter_In in Hy. rewrite Forall_forall in Hl. apply Hl, Hy.
Qed.

Lemma merge_item_coherent (existing : ProductItem) (categoryId : string)
  (onList : bool) (i : ProductItem) :
  coherent i = true -> coherent (merge_item existing categoryId onList i) = true.
Proof.
  unfold coherent, merge_item. simpl. destruct onList; [reflexivity|]. intro H. exact H.
Qed.

Lemma finalizeAddItem_coherent (items : list ProductItem)
  (name categoryId : string) (onList : bool) (tk : Tick)
  (prev : list ProductItem) :
  Forall (fun i => coherent i = true) prev ->
  Forall (fun i => coherent i = true)
    (finalizeAddItem items name categoryId onList tk prev).
Proof.
  intro H. unfold finalizeAddItem. destruct (find _ items) as [existing|].
  - apply map_coherent; [|exact H]. intros i _ Hi.
    destruct (String.eqb _ _); [apply merge_item_coherent|]; exact Hi.
  - constructor; [reflexivity|exact H].
Qed.

Lemma toggle_item_coherent (now : Z) (item : ProductItem) :
  coherent (toggle_item now item) = true.
Proof.
  unfold toggle_item. destruct (negb (ProductItem.completed item)); reflexivity.
Qed.

Lemma rollover_item_coherent (todayStr : Z) (item : ProductItem) :
  coherent item = true -> coherent (rollover_item todayStr item) = true.
Proof.
  intro H. unfold rollover_item. destruct (_ && _); [reflexivity|exact H].
Qed.

Lemma handleBulkAdd_coherent (items : list ProductItem)
  (raw : list (string * Tick)) (bulkAddCategory : option string)
  (shouldAddToList : bool) (prev : list ProductItem) :
  Forall (fun i => coherent i = true) prev ->
  Forall (fun i => coherent i = true)
    (handleBulkAdd items raw bulkAddCategory shouldAddToList prev).
Proof.
  unfold handleBulkAdd. destruct bulkAddCategory as [[|c r]|]; try (intro H; exact H).
  generalize (bulk_lines raw). intro lines. revert prev.
  induction lines as [|l lines IH]; intros prev H; simpl.
  - exact H.
  - apply IH. apply finalizeAddItem_coherent. exact H.
Qed.

Lemma expand_fold_coherent (items : list ProductItem) (rqs : list AddRequest)
  (C : list CategoryDef) (P : list ProductItem) :
  Forall (fun i => coherent i = true) P ->
  Forall (fun i => coherent i = true) (snd (fold_left (expand_one items) rqs (C, P))).
Proof.
  revert C P.
  induction rqs as [|[[[n cn] em] [ctk itk]] rqs IH]; intros C P H; cbn [fold_left].
  - exact H.
  - destruct (expand_one_cases items C P n cn em ctk itk) as [C' [cid [E _]]].
    rewrite E. apply IH. apply finalizeAddItem_coherent. exact H.
Qed.

Lemma toggleHistoryItem_coherent (items : list ProductItem) (item : ProductItem)
  (tk : Tick) (prev : list ProductItem) :
  (forall i, In i prev -> ProductItem.id i = ProductItem.id item ->
             ProductItem.completed i = ProductItem.completed item) ->
  Forall (fun i => coherent i = true) prev ->
  Forall (fun i => coherent i = true) (toggleHistoryItem items item tk prev).
Proof.
  intros Hagree H. unfold toggleHistoryItem.
  destruct (ProductItem.onList item && negb (ProductItem.completed item)) eqn:E.
  - apply andb_true_iff in E. destruct E as [_ Enc].
    apply negb_true_iff in Enc.
    apply map_coherent; [|exact H]. intros i Hi Hc.
    destruct (String.eqb_spec (ProductItem.id i) (ProductItem.id item)) as [e|_];
      [|exact Hc].
    pose proof (Hagree i Hi e) as Hci. rewrite Enc in Hci.
    unfold coherent in *. simpl. rewrite Hci in Hc. exact Hc.
  - apply finalizeAddItem_coherent. exact H.
Qed.

Lemma saveCategory_items_coherent (items : list ProductItem)
  (editingCategory : option CategoryDef)
  (itemToUpdateAfterCategory : option PendingItem) (now : Z) (tk : Tick)
  (prev : list ProductItem) :
  Forall (fun i => coherent i = true) prev ->
  Forall (fun i => coherent i = true)
    (saveCategory_items items editingCategory itemToUpdateAfterCategory now tk prev).
Proof.
  intro H. unfold saveCategory_items.
  destruct editingCategory as [e|]; [exact H|].
  destruct itemToUpdateAfterCategory as [p|]; [|exact H].
  destruct (PendingItem.id p) as [[|c r]|].
  - apply finalizeAddItem_coherent. exact H.
  - apply map_coherent; [|exact H]. intros i _ Hi.
    destruct (String.eqb _ _); exact Hi.
  - apply finalizeAddItem_coherent. exact H.
Qed.

Lemma with_items_coherent (st : AppState) (items' : list ProductItem) :
  store_coherent st ->
  Forall (fun i => coherent i = true) items' ->
  store_coherent (with_items st items').
Proof.
  intros [_ Hd] H. split; [exact H|exact Hd].
Qed.

Lemma handleAddItemFromModal_coherent (addItemText targetId : string)
  (onList isAiEnabled : bool) (ai : AiOutcome) (now : Z) (tk : Tick)
  (st : AppState) :
  store_coherent st ->
  store_coherent
    (handleAddItemFromModal addItemText targetId onList isAiEnabled ai now tk st).
Proof.
  intro H. pose proof H as [Hi Hd]. unfold handleAddItemFromModal.
  destruct (trim addItemText); [exact H|].
  destruct (find _ (AppState.items st)).
  { apply with_items_coherent; [exact H|]. apply finalizeAddItem_coherent, Hi. }
  destruct (negb isAiEnabled || _).
  { apply with_items_coherent; [exact H|]. apply finalizeAddItem_coherent, Hi. }
  destruct ai.
  - apply with_items_coherent; [exact H|]. apply finalizeAddItem_coherent, Hi.
  - apply with_items_coherent; [exact H|]. apply finalizeAddItem_coherent, Hi.
  - destruct (find _ (AppState.categories st)).
    + apply with_items_coherent; [exact H|]. apply finalizeAddItem_coherent, Hi.
    + split; [|exact Hd]. simpl. apply finalizeAddItem_coherent, Hi.
Qed.

Lemma step_local_coherent (st : AppState) (a : Action) :
  is_remote_write a = false ->
  handed_row_agrees st a ->
  store_coherent st ->
  store_coherent (step st a).
Proof.
  intros Hl Ha H. pose proof H as [Hi Hd].
  destruct a; simpl in Hl; try discriminate; cbn [step].
  - apply with_items_coherent; [exact H|]. apply filter_coherent, Hi.
  - apply with_items_coherent; [exact H|]. unfold dailyRollover.
    apply map_coherent; [|exact Hi]. intros i _. apply rollover_item_coherent.
  - apply handleAddItemFromModal_coherent. exact H.
  - apply with_items_coherent; [exact H|]. apply handleBulkAdd_coherent, Hi.
  - split; [|exact Hd]. simpl. unfold toggleComplete_items.
    apply map_coherent; [|exact Hi]. intros i _ Hc.
    destruct (String.eqb _ _); [apply toggle_item_coherent|exact Hc].
  - unfold undoCompletion. destruct (AppState.lastCompletedItem st) as [[|c r]|];
      try exact H.
    split; [|exact Hd]. simpl. unfold undoCompletion_items.
    apply map_coherent; [|exact Hi]. intros i _ Hc.
    destruct (String.eqb _ _); [reflexivity|exact Hc].
  - apply with_items_coherent; [exact H|].
    apply toggleHistoryItem_coherent; [exact Ha|exact Hi].
  - split; simpl.
    + apply filter_coherent, Hi.
    + intros i Ei. injection Ei as <-. exact Ha.
  - apply with_items_coherent; [exact H|]. unfold undoDelete.
    destruct (AppState.lastDeletedItem st) as [it|] eqn:E; [|exact Hi].
    constructor; [apply Hd; reflexivity|exact Hi].
  - apply with_items_coherent; [exact H|]. unfold saveEditedItem.
    apply map_coherent; [|exact Hi]. intros i _ Hc.
    destruct (String.eqb _ _); [|exact Hc]. exact Ha.
  - destruct (openCategoryModal cat) as [e|]; [|exact H].
    unfold saveCategory. destruct (trim catName); [exact H|].
    split; [|exact Hd]. simpl. apply saveCategory_items_coherent, Hi.
  - unfold deleteCategory. destruct (String.eqb id sentinel_id); [exact H|].
    split; [|exact Hd]. simpl. unfold performDeleteCategory_items.
    apply map_coherent; [|exact Hi]. intros i _ Hc.
    destruct (String.eqb _ _); exact Hc.
  - split; [|exact Hd]. simpl. apply expand_fold_coherent, Hi.
  - split; [|exact Hd]. simpl. apply expand_fold_coherent, Hi.
Qed.

(** C5, as amended.  Every handler call, the daily rollover and the remote
    delete keep [completed] and [completedAt] in agreement on every row,
    when the row the handler was given agrees with the store.  A row built
    from a remote row (initial load, remote insert) has no completion
    instant and the remote [is_bought] as its completed flag; a remote
    update writes [is_bought] into the completed flag of the matching row
    and keeps its completion instant.  Such rows are in agreement exactly
    when [is_bought] says what the completion instant says. *)
Theorem coherence_local_steps_and_remote_rows :
  (forall (st : AppState) (a : Action),
      is_remote_write a = false ->
      handed_row_agrees st a ->
      store_coherent st ->
      store_coherent (step st a))
  /\ (forall ri : DbItem,
         ProductItem.completedAt (fromDb ri) = None
         /\ ProductItem.completed (fromDb ri) = DbItem.is_bought ri
         /\ coherent (fromDb ri) = negb (DbItem.is_bought ri))
  /\ (forall (updatedItem : DbItem) (prev : list ProductItem) (k : nat) (i : ProductItem),
         nth_error prev k = Some i ->
         ProductItem.id i = DbItem.id updatedItem ->
         exists i',
           nth_error (onUpdate updatedItem prev) k = Some i'
           /\ ProductItem.completedAt i' = ProductItem.completedAt i
           /\ ProductItem.completed i' = DbItem.is_bought updatedItem
           /\ coherent i'
              = Bool.eqb (DbItem.is_bought updatedItem)
                  (match ProductItem.completedAt i with Some _ => true | None => false end)).
Proof.
  split; [exact step_local_coherent|]. split.
  - intro ri. unfold coherent, fromDb. simpl.
    destruct (DbItem.is_bought ri); repeat split.
  - intros updatedItem prev k i Hk Hid. eexists. split.
    + unfold onUpdate. apply nth_error_map_some. exact Hk.
    + cbv beta. rewrite Hid, String.eqb_refl. unfold coherent. simpl.
      repeat split.
Qed.

(** ** Completion instants and the daily rollover *)

Lemma map_stamped (f : ProductItem -> ProductItem) (l : list ProductItem) :
  (forall i, stamped i = true -> stamped (f i) = true) ->
  Forall (fun i => stamped i = true) l ->
  Forall (fun i => stamped i = true) (map f l).
Proof.
  intros Hf Hl. induction Hl as [|i l Hi _ IH]; simpl; constructor.
  - apply Hf, Hi.
  - exact IH.
Qed.

Lemma filter_stamped (p : ProductItem -> bool) (l : list ProductItem) :
  Forall (fun i => stamped i = true) l ->
  Forall (fun i => stamped i = true) (filter p l).
Proof.
  intro Hl. induction Hl as [|i l Hi _ IH]; simpl; [constructor|].
  destruct (p i); [constructor; assumption|exact IH].
Qed.

Lemma fromDb_stamped (ri : DbItem) : stamped (fromDb ri) = true.
Proof. reflexivity. Qed.

Lemma finalizeAddItem_stamped (items : list ProductItem)
  (name categoryId : string) (onList : bool) (tk : Tick)
  (prev : list ProductItem) :
  Forall (fun i => stamped i = true) prev ->
  Forall (fun i => stamped i = true)
    (finalizeAddItem items name categoryId onList tk prev).
Proof.
  intro H. unfold finalizeAddItem. destruct (find _ items) as [existing|].
  - apply map_stamped; [|exact H]. intros i Hi.
    destruct (String.eqb _ _); [|exact Hi].
    unfold stamped, merge_item. simpl. destruct onList; [reflexivity|exact Hi].
  - constructor; [reflexivity|exact H].
Qed.

Lemma handleBulkAdd_stamped (items : list ProductItem)
  (raw : list (string * Tick)) (bulkAddCategory : option string)
  (shouldAddToList : bool) (prev : list ProductItem) :
  Forall (fun i => stamped i = true) prev ->
  Forall (fun i => stamped i = true)
    (handleBulkAdd items raw bulkAddCategory shouldAddToList prev).
Proof.
  unfold handleBulkAdd. destruct bulkAddCategory as [[|c r]|]; try (intro H; exact H).
  generalize (bulk_lines raw). intro lines. revert prev.
  induction lines as [|l lines IH]; intros prev H; simpl.
  - exact H.
  - apply IH. apply finalizeAddItem_stamped. exact H.
Qed.

Lemma expand_fold_stamped (items : list ProductItem) (rqs : list AddRequest)
  (C : list CategoryDef) (P : list ProductItem) :
  Forall (fun i => stamped i = true) P ->
  Forall (fun i => stamped i = true) (snd (fold_left (expand_one items) rqs (C, P))).
Proof.
  revert C P.
  induction rqs as [|[[[n cn] em] [ctk itk]] rqs IH]; intros C P H; cbn [fold_left].
  - exact H.
  - destruct (expand_one_cases items C P n cn em ctk itk) as [C' [cid [E _]]].
    rewrite E. apply IH. apply finalizeAddItem_stamped. exact H.
Qed.

Lemma saveCategory_items_stamped (items : list ProductItem)
  (editingCategory : option CategoryDef)
  (itemToUpdateAfterCategory : option PendingItem) (now : Z) (tk : Tick)
  (prev : list ProductItem) :
  Forall (fun i => stamped i = true) prev ->
  Forall (fun i => stamped i = true)
    (saveCategory_items items editingCategory itemToUpdateAfterCategory now tk prev).
Proof.
  intro H. unfold saveCategory_items.
  destruct editingCategory as [e|]; [exact H|].
  destruct itemToUpdateAfterCategory as [p|]; [|exact H].
  destruct (PendingItem.id p) as [[|c r]|].
  - apply finalizeAddItem_stamped. exact H.
  - apply map_stamped; [|exact H]. intros i Hi.
    destruct (String.eqb _ _); exact Hi.
  - apply finalizeAddItem_stamped. exact H.
Qed.

Lemma with_items_stamped (st : AppState) (items' : list ProductItem) :
  store_stamped st ->
  Forall (fun i => stamped i = true) items' ->
  store_stamped (with_items st items').
Proof.
  intros [_ Hd] H. split; [exact H|exact Hd].
Qed.

Lemma handleAddItemFromModal_stamped (addItemText targetId : string)
  (onList isAiEnabled : bool) (ai : AiOutcome) (now : Z) (tk : Tick)
  (st : AppState) :
  store_stamped st ->
  store_stamped
    (handleAddItemFromModal addItemText targetId onList isAiEnabled ai now tk st).
Proof.
  intro H. pose proof H as [Hi Hd]. unfold handleAddItemFromModal.
  destruct (trim addItemText); [exact H|].
  destruct (find _ (AppState.items st)).
  { apply with_items_stamped; [exact H|]. apply finalizeAddItem_stamped, Hi. }
  destruct (negb isAiEnabled || _).
  { apply with_items_stamped; [exact H|]. apply finalizeAddItem_stamped, Hi. }
  destruct ai.
  - apply with_items_stamped; [exact H|]. apply finalizeAddItem_stamped, Hi.
  - apply with_items_stamped; [exact H|]. apply finalizeAddItem_stamped, Hi.
  - destruct (find _ (AppState.categories st)).
    + apply with_items_stamped; [exact H|]. apply finalizeAddItem_stamped, Hi.
    + split; [|exact Hd]. simpl. apply finalizeAddItem_stamped, Hi.
Qed.

(** No handler, remote event or rollover writes the instant 0 into a row:
    the only instant written is the clock reading of [toggleComplete]. *)
Lemma step_stamped (st : AppState) (a : Action) :
  brings_stamped a = true ->
  store_stamped st ->
  store_stamped (step st a).
Proof.
  intros Ha H. pose proof H as [Hi Hd].
  destruct a; simpl in Ha; cbn [step].
  - apply with_items_stamped; [exact H|]. unfold loadItems.
    apply Forall_forall. intros y Hy. apply in_map_iff in Hy.
    destruct Hy as [ri [<- _]]. apply fromDb_stamped.
  - apply with_items_stamped; [exact H|]. unfold onInsert.
    destruct (find _ (AppState.items st)); [exact Hi|].
    apply Forall_app. split; [exact Hi|]. constructor; [apply fromDb_stamped|constructor].
  - apply with_items_stamped; [exact H|]. unfold onUpdate.
    apply map_stamped; [|exact Hi]. intros i Hs.
    destruct (String.eqb _ _); exact Hs.
  - apply with_items_stamped; [exact H|]. apply filter_stamped, Hi.
  - apply with_items_stamped; [exact H|]. unfold dailyRollover.
    apply map_stamped; [|exact Hi]. intros i Hs. unfold rollover_item.
    destruct (_ && _); [reflexivity|exact Hs].
  - apply handleAddItemFromModal_stamped. exact H.
  - apply with_items_stamped; [exact H|]. apply handleBulkAdd_stamped, Hi.
  - split; [|exact Hd]. simpl. unfold toggleComplete_items.
    apply map_stamped; [|exact Hi]. intros i Hs.
    destruct (String.eqb _ _); [|exact Hs].
    unfold toggle_item. destruct (negb (ProductItem.completed i)); [exact Ha|reflexivity].
  - unfold undoCompletion. destruct (AppState.lastCompletedItem st) as [[|c r]|];
      try exact H.
    split; [|exact Hd]. simpl. unfold undoCompletion_items.
    apply map_stamped; [|exact Hi]. intros i Hs.
    destruct (String.eqb _ _); [reflexivity|exact Hs].
  - apply with_items_stamped; [exact H|]. unfold toggleHistoryItem.
    destruct (_ && _).
    + apply map_stamped; [|exact Hi]. intros i Hs.
      destruct (String.eqb _ _); exact Hs.
    + apply finalizeAddItem_stamped, Hi.
  - split; simpl.
    + apply filter_stamped, Hi.
    + intros i Ei. injection Ei as <-. exact Ha.
  - apply with_items_stamped; [exact H|]. unfold undoDelete.
    destruct (AppState.lastDeletedItem st) as [it|] eqn:E; [|exact Hi].
    constructor; [apply Hd; reflexivity|exact Hi].
  - apply with_items_stamped; [exact H|]. unfold saveEditedItem.
    apply map_stamped; [|exact Hi]. intros i Hs.
    destruct (String.eqb _ _); [exact Ha|exact Hs].
  - destruct (openCategoryModal cat) as [e|]; [|exact H].
    unfold saveCategory. destruct (trim catName); [exact H|].
    split; [|exact Hd]. simpl. apply saveCategory_items_stamped, Hi.
  - unfold deleteCategory. destruct (String.eqb id sentinel_id); [exact H|].
    split; [|exact Hd]. simpl. unfold performDeleteCategory_items.
    apply map_stamped; [|exact Hi]. intros i Hs.
    destruct (String.eqb _ _); exact Hs.
  - split; [|exact Hd]. simpl. apply expand_fold_stamped, Hi.
  - split; [|exact Hd]. simpl. apply expand_fold_stamped, Hi.
Qed.

Lemma run_stamped (actions : list Action) (st : AppState) :
  store_stamped st ->
  Forall (fun a => brings_stamped a = true) actions ->
  store_stamped (run st actions).
Proof.
  unfold run. revert st.
  induction actions as [|a actions IH]; intros st H Ha; cbn [fold_left].
  - exact H.
  - inversion Ha as [|a' l' Ha1 Ha2]; subst.
    apply IH; [|exact Ha2]. apply step_stamped; assumption.
Qed.

(** C7.  On the item store that any sequence of handler calls, remote
    events and rollovers leaves, started from a store in which no
    completion instant is 0 (the empty store the component starts with,
    or any loaded one) and with clock readings other than 0, the daily
    rollover keeps the rows in place and treats each of them as follows:
    a completed row whose completion instant lies on a calendar day
    before today becomes not completed, off the list and without
    completion instant, its other fields kept; a row whose completion
    instant lies on today's calendar day (or a later one) is returned as
    it is; and a row that is not completed is returned as it is. *)
Theorem daily_rollover_resets_prior_days
  (st : AppState) (actions : list Action) (now : Z) :
  store_stamped st ->
  Forall (fun a => brings_stamped a = true) actions ->
  let prev := AppState.items (run st actions) in
  List.length (dailyRollover now prev) = List.length prev
  /\ forall k item, nth_error prev k = Some item ->
       (ProductItem.completed item = true ->
        forall t, ProductItem.completedAt item = Some t ->
          startOfDay t < startOfDay now ->
          nth_error (dailyRollover now prev) k
          = Some (ProductItem.mk (ProductItem.id item) (ProductItem.name item)
                    (ProductItem.categoryId item) false false
                    (ProductItem.purchaseCount item) None))
       /\ (forall t, ProductItem.completedAt item = Some t ->
             startOfDay now <= startOfDay t ->
             nth_error (dailyRollover now prev) k = Some item)
       /\ (ProductItem.completed item = false ->
           nth_error (dailyRollover now prev) k = Some item).
Proof.
  intros Hst Hact prev.
  destruct (run_stamped actions st Hst Hact) as [Hi _]. fold prev in Hi.
  split.
  { unfold dailyRollover. apply length_map. }
  intros k item Hk.
  assert (Hnz : ProductItem.completedAt item <> Some 0).
  { rewrite Forall_forall in Hi. pose proof (Hi item (nth_error_In _ _ Hk)) as Hs.
    unfold stamped in Hs. intro E. rewrite E in Hs. discriminate Hs. }
  rewrite (dailyRollover_rows now prev k item Hk Hnz).
  split; [|split].
  - intros Hc t Ht Hlt. rewrite Hc, Ht.
    destruct (Z.ltb_spec (startOfDay t) (startOfDay now)); [reflexivity|lia].
  - intros t Ht Heq. rewrite Ht.
    destruct (ProductItem.completed item); [|reflexivity].
    destruct (Z.ltb_spec (startOfDay t) (startOfDay now)); [lia|reflexivity].
  - intro Hc. rewrite Hc. reflexivity.
Qed.

(** * Further properties of the handlers *)

Lemma filter_all_true {A : Type} (p : A -> bool) (l : list A) :
  (forall x, In x l -> p x = true) -> filter p l = l.
Proof.
  induction l as [|a l IH]; intro H; simpl.
  - reflexivity.
  - rewrite (H a (or_introl eq_refl)). rewrite IH; [reflexivity|].
    intros x Hx. apply H. now right.
Qed.

Lemma find_none_all {A : Type} (p : A -> bool) (l : list A) :
  (forall x, In x l -> p x = false) -> find p l = None.
Proof.
  induction l as [|a l IH]; intro H; simpl.
  - reflexivity.
  - rewrite (H a (or_introl eq_refl)). apply IH. intros x Hx. apply H. now right.
Qed.

Lemma map_id_on {A : Type} (f : A -> A) (l : list A) :
  (forall x, In x l -> f x = x) -> map f l = l.
Proof.
  induction l as [|a l IH]; intro H; simpl.
  - reflexivity.
  - rewrite (H a (or_introl eq_refl)). rewrite IH; [reflexivity|].
    intros x Hx. apply H. now right.
Qed.

(** X1.  A remote insert of an id unknown to the store followed by the
    remote delete of that id gives back the store as it was. *)
Theorem remote_insert_then_delete_round_trip
  (newItem : DbItem) (prev : list ProductItem) :
  (forall i, In i prev -> ProductItem.id i <> DbItem.id newItem) ->
  onDelete (DbItem.id newItem) (onInsert newItem prev) = prev.
Proof.
  intro H. unfold onInsert.
  rewrite find_none_all.
  - unfold onDelete. rewrite filter_app. simpl. rewrite String.eqb_refl. simpl.
    rewrite app_nil_r. apply filter_all_true. intros x Hx.
    apply negb_true_iff, String.eqb_neq, H, Hx.
  - intros x Hx. apply String.eqb_neq, H, Hx.
Qed.

(** X2.  A remote update whose id is held by no local row changes
    nothing, and delivering any update twice gives what one delivery
    gives. *)
Theorem remote_update_unknown_id_and_repeat :
  (forall (updatedItem : DbItem) (prev : list ProductItem),
      (forall i, In i prev -> ProductItem.id i <> DbItem.id updatedItem) ->
      onUpdate updatedItem prev = prev)
  /\ (forall (updatedItem : DbItem) (prev : list ProductItem),
         onUpdate updatedItem (onUpdate updatedItem prev) = onUpdate updatedItem prev).
Proof.
  split.
  - intros u prev H. unfold onUpdate. apply map_id_on. intros x Hx.
    destruct (String.eqb_spec (ProductItem.id x) (DbItem.id u)) as [e|_]; [|reflexivity].
    exfalso. apply (H x Hx e).
  - intros u prev. unfold onUpdate. rewrite map_map. apply map_ext. intro a.
    destruct (String.eqb (ProductItem.id a) (DbItem.id u)) eqn:E; simpl; rewrite E;
      reflexivity.
Qed.

(** X3.  Deleting a stored item whose id no other row carries and then
    pressing undo puts the same rows back, the deleted one now first. *)
Theorem delete_then_undo_restores_rows
  (st : AppState) (l1 l2 : list ProductItem) (item : ProductItem) :
  AppState.items st = l1 ++ item :: l2 ->
  (forall j, In j (l1 ++ l2) -> ProductItem.id j <> ProductItem.id item) ->
  AppState.items (run st [DeleteItem item; UndoDelete]) = item :: l1 ++ l2
  /\ List.length (AppState.items (run st [DeleteItem item; UndoDelete]))
     = List.length (AppState.items st)
  /\ forall i, In i (AppState.items (run st [DeleteItem item; UndoDelete]))
               <-> In i (AppState.items st).
Proof.
  intros Hit Hu.
  assert (E : AppState.items (run st [DeleteItem item; UndoDelete]) = item :: l1 ++ l2).
  { unfold run. simpl. unfold performItemDelete. rewrite Hit.
    rewrite filter_app. simpl. rewrite String.eqb_refl. simpl.
    rewrite !filter_all_true; [reflexivity| |];
      intros x Hx; apply negb_true_iff, String.eqb_neq, Hu, in_or_app; auto. }
  split; [exact E|]. split.
  - rewrite E, Hit. simpl. rewrite !length_app. simpl. lia.
  - intro i. rewrite E, Hit. simpl. rewrite !in_app_iff. simpl. tauto.
Qed.

Lemma find_map_same_test {A : Type} (p : A -> bool) (f : A -> A) (l : list A) :
  (forall x, p (f x) = p x) ->
  find p (map f l) = option_map f (find p l).
Proof.
  intro H. induction l as [|a l IH]; simpl.
  - reflexivity.
  - rewrite H. destruct (p a); [reflexivity|exact IH].
Qed.

Lemma merge_item_twice (existing : ProductItem) (categoryId : string)
  (onList : bool) (i : ProductItem) :
  merge_item (merge_item existing categoryId onList existing) categoryId onList
    (merge_item existing categoryId onList i)
  = merge_item existing categoryId onList i.
Proof.
  unfold merge_item. simpl.
  destruct (negb (String.eqb categoryId sentinel_id)); destruct onList; reflexivity.
Qed.

(** X4.  When the normalised name is found among the items, a second
    finalize-add with the same arguments, made on the store the first one
    left, changes nothing. *)
Theorem finalize_add_again_changes_nothing
  (items : list ProductItem) (name categoryId : string) (onList : bool)
  (tk tk' : Tick) (existing : ProductItem) :
  find (fun i => same_name (ProductItem.name i) (capName name)) items = Some existing ->
  let items1 := finalizeAddItem items name categoryId onList tk items in
  finalizeAddItem items1 name categoryId onList tk' items1 = items1.
Proof.
  intros Hfind items1.
  assert (E : items1 = map (fun i =>
                if String.eqb (ProductItem.id i) (ProductItem.id existing)
                then merge_item existing categoryId onList i else i) items).
  { unfold items1, finalizeAddItem. rewrite Hfind. reflexivity. }
  assert (F : find (fun i => same_name (ProductItem.name i) (capName name)) items1
              = Some (merge_item existing categoryId onList existing)).
  { rewrite E, find_map_same_test.
    - rewrite Hfind. simpl. rewrite String.eqb_refl. reflexivity.
    - intro x. destruct (String.eqb _ _); reflexivity. }
  clearbody items1. unfold finalizeAddItem. rewrite F. rewrite E, map_map.
  apply map_ext. intro a. simpl.
  destruct (String.eqb (ProductItem.id a) (ProductItem.id existing)) eqn:Ea.
  - simpl. rewrite Ea. apply merge_item_twice.
  - rewrite Ea. reflexivity.
Qed.

(** X5.  Two finalize-adds in a row, each made on the settled store,
    under names that normalise to the same lower-case string and are not
    in the store yet, leave one new row: it is first, carries the first
    normalised name, a purchase count of 0, is on the list when either
    call asked for it, and has the second call's category unless that is
    the sentinel id. *)
Theorem two_adds_of_a_new_name_make_one_row
  (items : list ProductItem) (name1 name2 c1 c2 : string) (o1 o2 : bool)
  (tk1 tk2 : Tick) :
  find (fun i => same_name (ProductItem.name i) (capName name1)) items = None ->
  same_name (capName name1) (capName name2) = true ->
  let items1 := finalizeAddItem items name1 c1 o1 tk1 items in
  let items2 := finalizeAddItem items1 name2 c2 o2 tk2 items1 in
  List.length items2 = S (List.length items)
  /\ exists row rest,
      items2 = row :: rest
      /\ ProductItem.name row = capName name1
      /\ ProductItem.id row = new_item_id tk1
      /\ ProductItem.onList row = o2 || o1
      /\ ProductItem.completed row = false
      /\ ProductItem.completedAt row = None
      /\ ProductItem.purchaseCount row = 0
      /\ ProductItem.categoryId row
         = (if negb (String.eqb c2 sentinel_id) then c2 else str_or c1 sentinel_id).
Proof.
  intros Hnone Hsame items1 items2.
  set (row1 := ProductItem.mk (new_item_id tk1) (capName name1)
                 (str_or c1 sentinel_id) false o1 0 None).
  assert (E1 : items1 = row1 :: items).
  { unfold items1, finalizeAddItem. rewrite Hnone. reflexivity. }
  assert (E2 : items2 = map (fun i =>
                 if String.eqb (ProductItem.id i) (ProductItem.id row1)
                 then merge_item row1 c2 o2 i else i) items1).
  { unfold items2, finalizeAddItem. rewrite E1. simpl. rewrite Hsame. reflexivity. }
  split.
  - rewrite E2, length_map, E1. reflexivity.
  - rewrite E2, E1. simpl. rewrite String.eqb_refl.
    eexists. eexists. split; [reflexivity|]. unfold merge_item. simpl.
    repeat split; destruct o2; reflexivity.
Qed.

Lemma finalizeAddItem_create (items : list ProductItem)
  (name categoryId : string) (onList : bool) (tk : Tick) (prev : list ProductItem) :
  find (fun i => same_name (ProductItem.name i) (capName name)) items = None ->
  finalizeAddItem items name categoryId onList tk prev
  = ProductItem.mk (new_item_id tk) (capName name) (str_or categoryId sentinel_id)
      false onList 0 None :: prev.
Proof.
  intro H. unfold finalizeAddItem. rewrite H. reflexivity.
Qed.

(** X6.  A bulk add whose lines match no stored item adds one row per
    non-blank line in front of the untouched store, also when lines
    repeat: every line is looked up in the list the handler closed over,
    not in the rows added so far.  The new rows have the chosen category,
    the requested onList flag, a count of 0 and are not completed. *)
Theorem bulk_add_adds_one_row_per_line
  (items : list ProductItem) (raw : list (string * Tick))
  (c : ascii) (r : string) (shouldAddToList : bool) (prev : list ProductItem) :
  (forall l, In l (bulk_lines raw) ->
             find (fun i => same_name (ProductItem.name i) (capName (fst l))) items = None) ->
  exists added,
    handleBulkAdd items raw (Some (String c r)) shouldAddToList prev = added ++ prev
    /\ List.length added = List.length (bulk_lines raw)
    /\ forall row, In row added ->
         ProductItem.categoryId row = String c r
         /\ ProductItem.onList row = shouldAddToList
         /\ ProductItem.purchaseCount row = 0
         /\ ProductItem.completed row = false
         /\ ProductItem.completedAt row = None.
Proof.
  unfold handleBulkAdd. generalize (bulk_lines raw). intro lines. revert prev.
  induction lines as [|l lines IH]; intros prev H; simpl.
  - exists []. split; [reflexivity|]. split; [reflexivity|]. intros row [].
  - rewrite (finalizeAddItem_create items (fst l) (String c r) shouldAddToList (snd l) prev)
      by (apply H; now left).
    destruct (IH (ProductItem.mk (new_item_id (snd l)) (capName (fst l))
                    (str_or (String c r) sentinel_id) false shouldAddToList 0 None :: prev))
      as [added [E [Hlen Hrows]]].
    { intros l' Hl'. apply H. now right. }
    exists (added ++ [ProductItem.mk (new_item_id (snd l)) (capName (fst l))
                        (str_or (String c r) sentinel_id) false shouldAddToList 0 None]).
    split.
    + rewrite E, <- app_assoc. reflexivity.
    + split.
      * rewrite length_app, Hlen. simpl. lia.
      * intros row Hrow. apply in_app_or in Hrow. destruct Hrow as [Hrow | [<- | []]].
        -- apply Hrows, Hrow.
        -- simpl. repeat split.
Qed.

(** X7.  Deleting a category other than the sentinel removes exactly the
    rows of that id from the listing, keeps every item row in place with
    all its fields but the category, sends the items of the deleted
    category to the sentinel id, and leaves no item pointing at the
    deleted id; asked to delete the sentinel, the handler does nothing. *)
Theorem delete_category_reassigns_items (id : string) (st : AppState) :
  id <> sentinel_id ->
  let st' := deleteCategory id st in
  (forall c, In c (AppState.categories st')
             <-> In c (AppState.categories st) /\ CategoryDef.id c <> id)
  /\ (forall i', In i' (AppState.items st') -> ProductItem.categoryId i' <> id)
  /\ (forall k i, nth_error (AppState.items st) k = Some i ->
        exists i',
          nth_error (AppState.items st') k = Some i'
          /\ ProductItem.id i' = ProductItem.id i
          /\ ProductItem.name i' = ProductItem.name i
          /\ ProductItem.completed i' = ProductItem.completed i
          /\ ProductItem.onList i' = ProductItem.onList i
          /\ ProductItem.purchaseCount i' = ProductItem.purchaseCount i
          /\ ProductItem.completedAt i' = ProductItem.completedAt i
          /\ (ProductItem.categoryId i = id -> ProductItem.categoryId i' = sentinel_id)
          /\ (ProductItem.categoryId i <> id ->
              ProductItem.categoryId i' = ProductItem.categoryId i))
  /\ List.length (AppState.items st') = List.length (AppState.items st)
  /\ deleteCategory sentinel_id st = st.
Proof.
  intros Hid st'.
  assert (E : st' = AppState.mk
                      (performDeleteCategory_cats id (AppState.categories st))
                      (performDeleteCategory_items id (AppState.items st))
                      (AppState.sets st) (AppState.logs st)
                      (AppState.lastCompletedItem st) (AppState.lastDeletedItem st)).
  { unfold st', deleteCategory.
    destruct (String.eqb_spec id sentinel_id); [contradiction|reflexivity]. }
  rewrite E. simpl. split; [|split; [|split; [|split]]].
  - intro c. unfold performDeleteCategory_cats. rewrite filter_In.
    rewrite negb_true_iff, String.eqb_neq. reflexivity.
  - intros i' Hi'. unfold performDeleteCategory_items in Hi'.
    apply in_map_iff in Hi'. destruct Hi' as [i [<- _]].
    destruct (String.eqb_spec (ProductItem.categoryId i) id) as [e|n]; simpl.
    + intro H. apply Hid. symmetry. exact H.
    + exact n.
  - intros k i Hk. eexists. split.
    + unfold performDeleteCategory_items. apply nth_error_map_some. exact Hk.
    + destruct (String.eqb_spec (ProductItem.categoryId i) id) as [e|n]; simpl;
        repeat split; try reflexivity; intro H; try reflexivity; contradiction.
  - unfold performDeleteCategory_items. apply length_map.
  - unfold deleteCategory. rewrite String.eqb_refl. reflexivity.
Qed.

Lemma filter_disjoint_nil {A : Type} (p q : A -> bool) (l : list A) :
  (forall x, q x = true -> p x = false) -> filter p (filter q l) = [].
Proof.
  intro H. induction l as [|a l IH]; simpl.
  - reflexivity.
  - destruct (q a) eqn:E; simpl.
    + rewrite (H a E). exact IH.
    + exact IH.
Qed.

(** X8.  Whatever the listing was (no sentinel row, one, or several), the
    listing that a category save, a set expansion or an acceptance of
    dictated items writes back holds exactly one row with the sentinel
    id. *)
Theorem written_listing_has_one_sentinel :
  (forall (cat editingCategory : option CategoryDef) (catName catEmoji : string)
          (now : Z) (prev : list CategoryDef),
      openCategoryModal cat = Some editingCategory ->
      List.length
        (filter is_sentinel (saveCategory_cats editingCategory catName catEmoji now prev))
      = 1%nat)
  /\ (forall cats : list CategoryDef,
         List.length (filter is_sentinel (reorderCats cats)) = 1%nat).
Proof.
  split.
  - intros cat editingCategory catName catEmoji now prev Hopen.
    unfold saveCategory_cats. rewrite filter_app.
    rewrite filter_disjoint_nil.
    + simpl. rewrite systemNone_is_sentinel.
      assert (Hnew : is_sentinel
                       (CategoryDef.mk
                          (match editingCategory with
                           | Some e => CategoryDef.id e
                           | None => new_cat_id_now now
                           end) catName catEmoji) = false).
      { unfold is_sentinel. simpl. destruct editingCategory as [e|].
        - destruct cat as [c|]; simpl in Hopen; [|discriminate].
          destruct (is_sentinel c) eqn:Ec; [discriminate|].
          injection Hopen as <-. exact Ec.
        - apply new_cat_id_now_not_sentinel. }
      rewrite Hnew. reflexivity.
    + intros x Hx. apply andb_true_iff in Hx. destruct Hx as [Hx _].
      apply negb_true_iff in Hx. exact Hx.
  - intro cats. unfold reorderCats. rewrite filter_app.
    rewrite filter_disjoint_nil.
    + simpl. rewrite systemNone_is_sentinel. reflexivity.
    + intros x Hx. apply negb_true_iff in Hx. exact Hx.
Qed.

Lemma expand_fold_cats_append (items : list ProductItem) (rqs : list AddRequest)
  (C : list CategoryDef) (P : list ProductItem) :
  exists extra,
    fst (fold_left (expand_one items) rqs (C, P)) = C ++ extra
    /\ forall c, In c extra ->
         is_sentinel c = false
         /\ exists rq, In rq rqs /\ CategoryDef.name c = rq_categoryName rq.
Proof.
  revert C P.
  induction rqs as [|[[[n cn] em] [ctk itk]] rqs IH]; intros C P; cbn [fold_left].
  - exists []. split; [symmetry; apply app_nil_r|]. intros c [].
  - destruct (expand_one_cases items C P n cn em ctk itk) as [C' [cid [E [-> | ->]]]];
      rewrite E.
    + destruct (IH C (finalizeAddItem items n cid true itk P)) as [extra [Ex Hx]].
      exists extra. split; [exact Ex|]. intros c Hc.
      destruct (Hx c Hc) as [Hs [rq [Hrq Hn]]].
      split; [exact Hs|]. exists rq. split; [now right|exact Hn].
    + destruct (IH (C ++ [CategoryDef.mk (new_cat_id ctk) cn (str_or em "📦")])
                  (finalizeAddItem items n cid true itk P)) as [extra [Ex Hx]].
      exists (CategoryDef.mk (new_cat_id ctk) cn (str_or em "📦") :: extra).
      split.
      * rewrite Ex, <- app_assoc. reflexivity.
      * intros c [<- | Hc].
        -- split.
           ++ unfold is_sentinel. simpl. apply new_cat_id_not_sentinel.
           ++ exists ((n, cn, em), (ctk, itk)). split; [now left|reflexivity].
        -- destruct (Hx c Hc) as [Hs [rq [Hrq Hn]]].
           split; [exact Hs|]. exists rq. split; [now right|exact Hn].
Qed.

Lemma others_app (a b : list CategoryDef) : others (a ++ b) = others a ++ others b.
Proof.
  unfold others. apply filter_app.
Qed.

Lemma others_all_plain (l : list CategoryDef) :
  (forall c, In c l -> is_sentinel c = false) -> others l = l.
Proof.
  intro H. unfold others. apply filter_all_true. intros c Hc.
  rewrite (H c Hc). reflexivity.
Qed.

(** X9.  A set expansion, and an acceptance of dictated items, keep the
    non-sentinel categories that were there, in their order, and put the
    categories they create after them: the new listing of non-sentinel
    categories is the old one followed by new rows, each named after one
    of the processed tuples. *)
Theorem expansion_appends_after_existing_categories :
  (forall (set : ShoppingSet) (itemsToAdd : list (SetItem * (Tick * Tick)))
          (st : AppState),
      exists extra,
        others (AppState.categories (addSpecificItemsFromSet set itemsToAdd st))
        = others (AppState.categories st) ++ extra
        /\ forall c, In c extra ->
             is_sentinel c = false
             /\ exists x, In x itemsToAdd
                          /\ CategoryDef.name c = SetItem.categoryName (fst x))
  /\ (forall (parsedItems : list (ParsedItem * (Tick * Tick))) (st : AppState),
         exists extra,
           others (AppState.categories (acceptParsedItems parsedItems st))
           = others (AppState.categories st) ++ extra
           /\ forall c, In c extra ->
                is_sentinel c = false
                /\ exists x, In x parsedItems
                             /\ ParsedItem.selected (fst x) = true
                             /\ CategoryDef.name c = ParsedItem.categoryName (fst x)).
Proof.
  split.
  - intros set itemsToAdd st.
    destruct (expand_fold_cats_append (AppState.items st) (map set_request itemsToAdd)
                (AppState.categories st) (AppState.items st)) as [extra [E Hx]].
    exists extra. split.
    + unfold addSpecificItemsFromSet. cbn [AppState.categories].
      rewrite others_reorderCats. unfold expand_all. rewrite E, others_app.
      f_equal. apply others_all_plain. intros c Hc. apply (Hx c Hc).
    + intros c Hc. destruct (Hx c Hc) as [Hs [rq [Hrq Hn]]].
      split; [exact Hs|]. apply in_map_iff in Hrq. destruct Hrq as [x [<- Hin]].
      exists x. split; [exact Hin|exact Hn].
  - intros parsedItems st.
    destruct (expand_fold_cats_append (AppState.items st)
                (map parsed_request
                   (filter (fun x => ParsedItem.selected (fst x)) parsedItems))
                (AppState.categories st) (AppState.items st)) as [extra [E Hx]].
    exists extra. split.
    + unfold acceptParsedItems. cbn [AppState.categories].
      rewrite others_reorderCats. unfold expand_all. rewrite E, others_app.
      f_equal. apply others_all_plain. intros c Hc. apply (Hx c Hc).
    + intros c Hc. destruct (Hx c Hc) as [Hs [rq [Hrq Hn]]].
      split; [exact Hs|]. apply in_map_iff in Hrq. destruct Hrq as [x [<- Hin]].
      apply filter_In in Hin. destruct Hin as [Hin Hsel].
      exists x. split; [exact Hin|]. split; [exact Hsel|exact Hn].
Qed.

(** X10.  Pressing the completion undo a second time does nothing: the
    first call empties the slot it reads. *)
Theorem undo_completion_twice_is_once (today1 today2 : Z) (st : AppState) :
  undoCompletion today2 (undoCompletion today1 st) = undoCompletion today1 st.
Proof.
  assert (Hidle : forall today,
             AppState.lastCompletedItem st = None
             \/ AppState.lastCompletedItem st = Some EmptyString ->
             undoCompletion today st = st).
  { intros today [E | E]; unfold undoCompletion; rewrite E; reflexivity. }
  destruct (AppState.lastCompletedItem st) as [[|c r]|] eqn:E.
  - rewrite (Hidle today1) by (now right). apply Hidle. now right.
  - rewrite (undoCompletion_armed today1 st (String c r) E) by discriminate.
    reflexivity.
  - rewrite (Hidle today1) by (now left). apply Hidle. now left.
Qed.

Lemma toggleComplete_items_one_row (now : Z) (l1 l2 : list ProductItem)
  (it : ProductItem) :
  (forall j, In j (l1 ++ l2) -> ProductItem.id j <> ProductItem.id it) ->
  toggleComplete_items (ProductItem.id it) now (l1 ++ it :: l2)
  = l1 ++ toggle_item now it :: l2.
Proof.
  intro H. unfold toggleComplete_items. rewrite map_app. simpl.
  rewrite String.eqb_refl.
  rewrite !map_id_on; [reflexivity| |]; intros x Hx;
    (destruct (String.eqb_spec (ProductItem.id x) (ProductItem.id it)) as [e|_];
     [exfalso; apply (H x); [apply in_or_app; auto|exact e]|reflexivity]).
Qed.

Lemma undoCompletion_items_one_row (l1 l2 : list ProductItem) (it : ProductItem) :
  (forall j, In j (l1 ++ l2) -> ProductItem.id j <> ProductItem.id it) ->
  undoCompletion_items (ProductItem.id it) (l1 ++ it :: l2)
  = l1 ++ undo_item it :: l2.
Proof.
  intro H. unfold undoCompletion_items. rewrite map_app. simpl.
  rewrite String.eqb_refl.
  rewrite !map_id_on; [reflexivity| |]; intros x Hx;
    (destruct (String.eqb_spec (ProductItem.id x) (ProductItem.id it)) as [e|_];
     [exfalso; apply (H x); [apply in_or_app; auto|exact e]|reflexivity]).
Qed.

Lemma toggleComplete_last_armed (l1 l2 : list ProductItem) (it : ProductItem)
  (last : option string) :
  ProductItem.completed it = false ->
  toggleComplete_last (ProductItem.id it) (l1 ++ it :: l2) last
  = Some (ProductItem.id it).
Proof.
  intro Hc. unfold toggleComplete_last.
  rewrite existsb_app. simpl. rewrite String.eqb_refl, Hc. simpl.
  rewrite orb_true_r. reflexivity.
Qed.

(** X11.  Completing an uncompleted item and then pressing the completion
    undo brings the store back: the item rows are what they were (count,
    flags and completion instant included) and today's log entry lists
    what it listed before; the undo slot is left empty.  This needs the
    item's id to name one row and be non-empty, a count that is not
    negative and an uncompleted row without completion instant. *)
Theorem complete_then_undo_round_trip
  (now today : Z) (st : AppState) (l1 l2 : list ProductItem) (it : ProductItem) :
  AppState.items st = l1 ++ it :: l2 ->
  (forall j, In j (l1 ++ l2) -> ProductItem.id j <> ProductItem.id it) ->
  ProductItem.id it <> EmptyString ->
  ProductItem.completed it = false ->
  ProductItem.completedAt it = None ->
  0 <= ProductItem.purchaseCount it ->
  today = startOfDay now ->
  let st' := undoCompletion today (toggleComplete (ProductItem.id it) now today st) in
  AppState.items st' = AppState.items st
  /\ today_items today (AppState.logs st') = today_items today (AppState.logs st)
  /\ AppState.lastCompletedItem st' = None
  /\ AppState.categories st' = AppState.categories st
  /\ AppState.sets st' = AppState.sets st.
Proof.
  intros Hit Hu Hne Hc Hat Hpc Hd st'.
  assert (Hlast : AppState.lastCompletedItem
                    (toggleComplete (ProductItem.id it) now today st)
                  = Some (ProductItem.id it)).
  { unfold toggleComplete. simpl. rewrite Hit.
    apply toggleComplete_last_armed. exact Hc. }
  unfold st'. rewrite (undoCompletion_armed _ _ _ Hlast Hne). simpl.
  rewrite Hit. rewrite (toggleComplete_items_one_row now l1 l2 it Hu).
  assert (Hu' : forall j, In j (l1 ++ l2) ->
                          ProductItem.id j <> ProductItem.id (toggle_item now it)).
  { intros j Hj. unfold toggle_item. destruct (negb _); simpl; apply Hu, Hj. }
  assert (Eid : ProductItem.id (toggle_item now it) = ProductItem.id it).
  { unfold toggle_item. destruct (negb _); reflexivity. }
  split; [|split; [|split; [|split]]]; try reflexivity.
  - rewrite <- Eid.
    rewrite (undoCompletion_items_one_row l1 l2 (toggle_item now it) Hu').
    f_equal. f_equal. unfold undo_item, toggle_item. rewrite Hc. simpl.
    destruct it as [i n c co ol pc ca]. simpl in *. subst co ca.
    f_equal. lia.
  - unfold undoCompletion_logs. rewrite <- Eid.
    rewrite (find_unique_row l1 l2 (toggle_item now it) Hu').
    rewrite Eid. rewrite (toggleComplete_logs_one_row now today l1 l2 it _ Hu).
    unfold toggle_log, toggle_item. rewrite Hc. simpl.
    rewrite <- (app_nil_r (today_items today (AppState.logs st))).
    apply (log_remove_last_today _ _ _ (today_items today (AppState.logs st)) []
             (LogItem.mk (ProductItem.name it) (ProductItem.categoryId it))).
    + apply log_append_today. exact Hd.
    + reflexivity.
    + intros y [].
Qed.

(** X12.  Completing an uncompleted item and then un-toggling it leaves
    today's log entry listing what it listed before, while the row keeps
    the raised count: it is uncompleted, without completion instant, and
    counts one purchase more. *)
Theorem complete_then_untoggle_keeps_the_count
  (now now' today : Z) (st : AppState) (l1 l2 : list ProductItem) (it : ProductItem) :
  AppState.items st = l1 ++ it :: l2 ->
  (forall j, In j (l1 ++ l2) -> ProductItem.id j <> ProductItem.id it) ->
  ProductItem.completed it = false ->
  today = startOfDay now ->
  let st' := toggleComplete (ProductItem.id it) now' today
               (toggleComplete (ProductItem.id it) now today st) in
  AppState.items st'
  = l1 ++ ProductItem.mk (ProductItem.id it) (ProductItem.name it)
            (ProductItem.categoryId it) false (ProductItem.onList it)
            (ProductItem.purchaseCount it + 1) None :: l2
  /\ today_items today (AppState.logs st') = today_items today (AppState.logs st).
Proof.
  intros Hit Hu Hc Hd st'.
  assert (Hu' : forall j, In j (l1 ++ l2) ->
                          ProductItem.id j <> ProductItem.id (toggle_item now it)).
  { intros j Hj. unfold toggle_item. destruct (negb _); simpl; apply Hu, Hj. }
  assert (Eid : ProductItem.id (toggle_item now it) = ProductItem.id it).
  { unfold toggle_item. destruct (negb _); reflexivity. }
  unfold st', toggleComplete. simpl. rewrite Hit.
  rewrite (toggleComplete_items_one_row now l1 l2 it Hu).
  rewrite (toggleComplete_logs_one_row now today l1 l2 it _ Hu).
  rewrite <- Eid.
  rewrite (toggleComplete_items_one_row now' l1 l2 (toggle_item now it) Hu').
  rewrite (toggleComplete_logs_one_row now' today l1 l2 (toggle_item now it) _ Hu').
  split.
  - unfold toggle_item. rewrite Hc. reflexivity.
  - unfold toggle_log, toggle_item. rewrite Hc. simpl.
    rewrite <- (app_nil_r (today_items today (AppState.logs st))).
    apply (log_remove_last_today _ _ _ (today_items today (AppState.logs st)) []
             (LogItem.mk (ProductItem.name it) (ProductItem.categoryId it))).
    + apply log_append_today. exact Hd.
    + reflexivity.
    + intros y [].
Qed.

Lemma getTodayPurchaseCount_today_items (today : Z) (logs : list PurchaseLog)
  (n : string) :
  getTodayPurchaseCount today logs n = count_name n (today_items today logs).
Proof.
  unfold getTodayPurchaseCount, today_items, count_name.
  destruct (todays_entry today logs); reflexivity.
Qed.

Lemma count_name_app (n : string) (a b : list LogItem) :
  count_name n (a ++ b) = (count_name n a + count_name n b)%nat.
Proof.
  unfold count_name. rewrite filter_app, length_app. reflexivity.
Qed.

Lemma count_name_single (n : string) (x : LogItem) :
  count_name n [x] = if String.eqb (LogItem.name x) n then 1%nat else O.
Proof.
  unfold count_name. simpl. destruct (String.eqb _ n); reflexivity.
Qed.

Lemma count_name_none (n : string) (l : list LogItem) :
  (forall y, In y l -> LogItem.name y <> n) -> count_name n l = O.
Proof.
  intro H. unfold count_name. induction l as [|a l IH]; simpl.
  - reflexivity.
  - destruct (String.eqb_spec (LogItem.name a) n) as [e|_].
    + exfalso. apply (H a); [now left|exact e].
    + apply IH. intros y Hy. apply H. now right.
Qed.

Lemma last_match_split (n : string) (l : list LogItem) :
  (exists pre x post,
      l = pre ++ x :: post /\ LogItem.name x = n
      /\ forall y, In y post -> LogItem.name y <> n)
  \/ (forall y, In y l -> LogItem.name y <> n).
Proof.
  induction l as [|a l IH].
  - right. intros y [].
  - destruct IH as [[pre [x [post [E [Hx Hp]]]]] | Hnone].
    + left. exists (a :: pre), x, post. split; [rewrite E; reflexivity|]. split; assumption.
    + destruct (String.eqb_spec (LogItem.name a) n) as [e|ne].
      * left. exists [], a, l. split; [reflexivity|]. split; assumption.
      * right. intros y [<- | Hy]; [exact ne|apply Hnone, Hy].
Qed.

Lemma log_remove_last_count (n m : string) (today : Z) (logs : list PurchaseLog) :
  getTodayPurchaseCount today (log_remove_last n today logs) m
  = if String.eqb n m
    then Nat.pred (getTodayPurchaseCount today logs m)
    else getTodayPurchaseCount today logs m.
Proof.
  rewrite !getTodayPurchaseCount_today_items.
  destruct (last_match_split n (today_items today logs))
    as [[pre [x [post [E [Hx Hp]]]]] | Hnone].
  - rewrite (log_remove_last_today n today logs pre post x E Hx Hp), E.
    rewrite !count_name_app.
    change (x :: post) with ([x] ++ post).
    rewrite count_name_app, count_name_single, Hx.
    destruct (String.eqb n m); simpl; lia.
  - rewrite (log_remove_last_no_match n today logs Hnone).
    destruct (String.eqb_spec n m) as [<-|_]; [|reflexivity].
    rewrite (count_name_none n _ Hnone). reflexivity.
Qed.

(** X13.  The badge count [getTodayPurchaseCount]: completing an item
    raises the count of its name by one, un-toggling a completed item
    lowers it by one (staying at 0 when today's entry holds no tuple of
    that name), and the counts of all other names stay as they are. *)
Theorem today_count_follows_toggles
  (now today : Z) (st : AppState) (l1 l2 : list ProductItem) (it : ProductItem) :
  AppState.items st = l1 ++ it :: l2 ->
  (forall j, In j (l1 ++ l2) -> ProductItem.id j <> ProductItem.id it) ->
  today = startOfDay now ->
  let logs := AppState.logs st in
  let logs1 := AppState.logs (toggleComplete (ProductItem.id it) now today st) in
  (ProductItem.completed it = false ->
   getTodayPurchaseCount today logs1 (ProductItem.name it)
   = S (getTodayPurchaseCount today logs (ProductItem.name it)))
  /\ (ProductItem.completed it = true ->
      getTodayPurchaseCount today logs1 (ProductItem.name it)
      = Nat.pred (getTodayPurchaseCount today logs (ProductItem.name it)))
  /\ (forall m, m <> ProductItem.name it ->
                getTodayPurchaseCount today logs1 m = getTodayPurchaseCount today logs m).
Proof.
  intros Hit Hu Hd logs logs1.
  assert (E : logs1 = toggle_log now today it logs).
  { unfold logs1, toggleComplete. simpl. rewrite Hit.
    apply toggleComplete_logs_one_row. exact Hu. }
  assert (Happ : forall m,
             getTodayPurchaseCount today
               (log_append (LogItem.mk (ProductItem.name it) (ProductItem.categoryId it))
                  now today logs) m
             = (getTodayPurchaseCount today logs m
                + if String.eqb (ProductItem.name it) m then 1 else 0)%nat).
  { intro m. rewrite !getTodayPurchaseCount_today_items.
    rewrite (log_append_today _ now today logs Hd), count_name_app, count_name_single.
    reflexivity. }
  split; [|split].
  - intro Hc. rewrite E. unfold toggle_log. rewrite Hc. simpl.
    rewrite Happ, String.eqb_refl. lia.
  - intro Hc. rewrite E. unfold toggle_log. rewrite Hc. simpl.
    rewrite log_remove_last_count, String.eqb_refl. reflexivity.
  - intros m Hm. rewrite E. unfold toggle_log.
    destruct (ProductItem.completed it); simpl.
    + rewrite log_remove_last_count.
      destruct (String.eqb_spec (ProductItem.name it) m) as [e|_]; [|reflexivity].
      exfalso. apply Hm. symmetry. exact e.
    + rewrite Happ.
      destruct (String.eqb_spec (ProductItem.name it) m) as [e|_]; [|lia].
      exfalso. apply Hm. symmetry. exact e.
Qed.

Lemma rollover_item_twice (todayStr : Z) (item : ProductItem) :
  rollover_item todayStr (rollover_item todayStr item) = rollover_item todayStr item.
Proof.
  destruct (ProductItem.completed item && truthy_num (ProductItem.completedAt item)
            && (startOfDay (onum_or0 (ProductItem.completedAt item)) <? todayStr)) eqn:E.
  - assert (H : rollover_item todayStr item
                = ProductItem.mk (ProductItem.id item) (ProductItem.name item)
                    (ProductItem.categoryId item) false false
                    (ProductItem.purchaseCount item) None)
      by (unfold rollover_item; rewrite E; reflexivity).
    rewrite H. reflexivity.
  - assert (H : rollover_item todayStr item = item)
      by (unfold rollover_item; rewrite E; reflexivity).
    rewrite H. exact H.
Qed.

(** X14.  The daily rollover can be run again without effect, keeps the
    number of rows, never changes an id, a name, a category or a purchase
    count, and never turns a flag on: a row that is on the list or
    completed afterwards was so before. *)
Theorem rollover_is_idempotent_and_only_clears
  (now : Z) (prev : list ProductItem) :
  dailyRollover now (dailyRollover now prev) = dailyRollover now prev
  /\ List.length (dailyRollover now prev) = List.length prev
  /\ forall k i, nth_error prev k = Some i ->
       exists i',
         nth_error (dailyRollover now prev) k = Some i'
         /\ ProductItem.id i' = ProductItem.id i
         /\ ProductItem.name i' = ProductItem.name i
         /\ ProductItem.categoryId i' = ProductItem.categoryId i
         /\ ProductItem.purchaseCount i' = ProductItem.purchaseCount i
         /\ (ProductItem.onList i' = true -> ProductItem.onList i = true)
         /\ (ProductItem.completed i' = true -> ProductItem.completed i = true).
Proof.
  split; [|split].
  - unfold dailyRollover. rewrite map_map. apply map_ext.
    intro a. apply rollover_item_twice.
  - unfold dailyRollover. apply length_map.
  - intros k i Hk. eexists. split.
    + unfold dailyRollover. apply nth_error_map_some. exact Hk.
    + unfold rollover_item. destruct (_ && _); simpl; repeat split;
        try reflexivity; intro H; try exact H; discriminate.
Qed.

(** ** Derived views *)

(** X15.  On the buy list, the uncompleted rows and the rows completed
    today are disjoint.  A row built from a remote row with [is_bought]
    set is on the buy list and in neither of the two, whatever the day;
    a row just completed by the toggle at a non-zero instant of today is
    among the rows completed today when it is on the list. *)
Theorem visible_lists_and_remote_rows :
  (forall (todayStr : Z) (bl : list ProductItem) (i : ProductItem),
      In i (activeOf bl) -> ~ In i (completedTodayOf todayStr bl))
  /\ (forall (todayStr : Z) (ri : DbItem) (items : list ProductItem),
         DbItem.is_bought ri = true ->
         In (fromDb ri) items ->
         In (fromDb ri) (buyListFor "All" items)
         /\ ~ In (fromDb ri) (activeOf (buyListFor "All" items))
         /\ ~ In (fromDb ri) (completedTodayOf todayStr (buyListFor "All" items)))
  /\ (forall (now : Z) (item : ProductItem) (items : list ProductItem),
         now <> 0 ->
         ProductItem.completed item = false ->
         ProductItem.onList item = true ->
         In (toggle_item now item) items ->
         In (toggle_item now item)
           (completedTodayOf (startOfDay now) (buyListFor "All" items))).
Proof.
  split; [|split].
  - intros todayStr bl i Ha Hc. unfold activeOf in Ha. unfold completedTodayOf in Hc.
    apply filter_In in Ha. apply filter_In in Hc.
    destruct Ha as [_ Ha]. destruct Hc as [_ Hc].
    destruct (ProductItem.completed i); simpl in *; discriminate.
  - intros todayStr ri items Hb Hin.
    assert (Hbl : In (fromDb ri) (buyListFor "All" items)).
    { unfold buyListFor. simpl. apply filter_In. split; [exact Hin|reflexivity]. }
    split; [exact Hbl|]. split.
    + intro H. unfold activeOf in H. apply filter_In in H. destruct H as [_ H].
      simpl in H. rewrite Hb in H. discriminate.
    + intro H. unfold completedTodayOf in H. apply filter_In in H. destruct H as [_ H].
      simpl in H. rewrite andb_false_r in H. discriminate.
  - intros now item items Hnz Hc Hol Hin.
    unfold completedTodayOf, buyListFor. simpl.
    apply filter_In. split.
    + apply filter_In. split; [exact Hin|].
      unfold toggle_item. rewrite Hc. simpl. exact Hol.
    + unfold toggle_item. rewrite Hc. simpl.
      destruct (Z.eqb_spec now 0) as [e|_]; [contradiction|].
      simpl. apply Z.eqb_refl.
Qed.

Lemma set_has_add_string (s : list string) (x c : string) :
  set_has String.eqb (set_add String.eqb s x) c
  = set_has String.eqb s c || String.eqb c x.
Proof.
  unfold set_add.
  destruct (set_has String.eqb s x) eqn:E.
  - destruct (String.eqb_spec c x) as [->|_].
    + rewrite E. reflexivity.
    + rewrite orb_false_r. reflexivity.
  - unfold set_has. rewrite existsb_app. simpl. rewrite orb_false_r. reflexivity.
Qed.

Lemma set_add_NoDup_string (s : list string) (x : string) :
  NoDup s -> NoDup (set_add String.eqb s x).
Proof.
  intro H. unfold set_add. destruct (set_has String.eqb s x) eqn:E; [exact H|].
  apply NoDup_app; [exact H|repeat constructor; intros []|].
  intros a Ha [e | []]. subst a. unfold set_has in E.
  assert (Ht : existsb (String.eqb x) s = true).
  { apply existsb_exists. exists x. split; [exact Ha|apply String.eqb_refl]. }
  rewrite Ht in E. discriminate.
Qed.

Lemma activeCategoryIds_fold (items : list ProductItem) (s : list string) (c : string) :
  set_has String.eqb
    (fold_left
       (fun activeIds item =>
          if ProductItem.onList item && negb (ProductItem.completed item)
          then set_add String.eqb activeIds (ProductItem.categoryId item)
          else activeIds) items s) c
  = set_has String.eqb s c || hasActiveItems c items.
Proof.
  revert s. induction items as [|i items IH]; intro s; simpl.
  - rewrite orb_false_r. reflexivity.
  - rewrite IH. destruct (ProductItem.onList i && negb (ProductItem.completed i)); simpl.
    + rewrite set_has_add_string, (String.eqb_sym c), orb_assoc. reflexivity.
    + reflexivity.
Qed.

Lemma activeCategoryIds_fold_NoDup (items : list ProductItem) (s : list string) :
  NoDup s ->
  NoDup (fold_left
           (fun activeIds item =>
              if ProductItem.onList item && negb (ProductItem.completed item)
              then set_add String.eqb activeIds (ProductItem.categoryId item)
              else activeIds) items s).
Proof.
  revert s. induction items as [|i items IH]; intros s H; simpl.
  - exact H.
  - apply IH. destruct (_ && _); [apply set_add_NoDup_string|]; exact H.
Qed.

Lemma active_ids_agree_with_filter_reset_aux (items : list ProductItem) (c : string) :
  set_has String.eqb (activeCategoryIds items) c = hasActiveItems c items
  /\ NoDup (activeCategoryIds items).
Proof.
  split.
  - unfold activeCategoryIds. rewrite activeCategoryIds_fold. reflexivity.
  - unfold activeCategoryIds. apply activeCategoryIds_fold_NoDup. constructor.
Qed.

(** X16.  The set of active category ids and the test that resets the
    category filter agree: an id is in the set exactly when some item of
    that category is on the list and not completed.  The set lists each
    id once. *)
Theorem active_ids_agree_with_filter_reset (items : list ProductItem) (c : string) :
  set_has String.eqb (activeCategoryIds items) c = hasActiveItems c items
  /\ NoDup (activeCategoryIds items)
  /\ (In c (activeCategoryIds items)
      <-> exists i, In i items
                    /\ ProductItem.onList i = true
                    /\ ProductItem.completed i = false
                    /\ ProductItem.categoryId i = c).
Proof.
  assert (H1 : set_has String.eqb (activeCategoryIds items) c = hasActiveItems c items).
  { unfold activeCategoryIds. rewrite activeCategoryIds_fold. reflexivity. }
  split; [exact H1|]. split.
  - unfold activeCategoryIds. apply activeCategoryIds_fold_NoDup. constructor.
  - split.
    + intro Hin.
      assert (Ht : set_has String.eqb (activeCategoryIds items) c = true).
      { unfold set_has. apply existsb_exists. exists c.
        split; [exact Hin|apply String.eqb_refl]. }
      rewrite H1 in Ht. unfold hasActiveItems in Ht.
      apply existsb_exists in Ht. destruct Ht as [i [Hi Ht]].
      apply andb_true_iff in Ht. destruct Ht as [Ht Hc].
      apply andb_true_iff in Ht. destruct Ht as [Hol Hnc].
      exists i. split; [exact Hi|]. split; [exact Hol|].
      split; [apply negb_true_iff, Hnc|apply String.eqb_eq, Hc].
    + intros [i [Hi [Hol [Hnc Hc]]]].
      assert (Ht : set_has String.eqb (activeCategoryIds items) c = true).
      { rewrite H1. unfold hasActiveItems. apply existsb_exists. exists i.
        split; [exact Hi|]. rewrite Hol, Hnc, Hc, String.eqb_refl. reflexivity. }
      unfold set_has in Ht. apply existsb_exists in Ht.
      destruct Ht as [x [Hx Hcx]]. apply String.eqb_eq in Hcx. subst x. exact Hx.
Qed.

Lemma rec_get_set (r : list (string * Z)) (k k' : string) (v : Z) :
  rec_get (rec_set r k v) k' = if String.eqb k k' then Some v else rec_get r k'.
Proof.
  unfold rec_get. induction r as [|[a b] r IH]; simpl.
  - destruct (String.eqb k k'); reflexivity.
  - destruct (String.eqb_spec a k) as [->|ne]; simpl.
    + destruct (String.eqb k k'); reflexivity.
    + destruct (String.eqb_spec a k') as [->|ne'].
      * destruct (String.eqb_spec k k') as [e|_]; [|reflexivity].
        exfalso. apply ne. symmetry. exact e.
      * exact IH.
Qed.

Lemma category_total_cons (c : string) (i : ProductItem) (l : list ProductItem) :
  category_total c (i :: l)
  = (if String.eqb (ProductItem.categoryId i) c then ProductItem.purchaseCount i else 0)
    + category_total c l.
Proof.
  unfold category_total. simpl. destruct (String.eqb _ c); reflexivity.
Qed.

Lemma category_total_none (c : string) (items : list ProductItem) :
  existsb (fun i => String.eqb (ProductItem.categoryId i) c) items = false ->
  category_total c items = 0.
Proof.
  induction items as [|i items IH]; intro H.
  - reflexivity.
  - simpl in H. apply orb_false_iff in H. destruct H as [Hi H].
    rewrite category_total_cons, Hi, (IH H). reflexivity.
Qed.

Lemma categoryRankings_fold (items : list ProductItem) (r : list (string * Z))
  (c : string) :
  rec_get
    (fold_left
       (fun rankings item =>
          rec_set rankings (ProductItem.categoryId item)
            (onum_or0 (rec_get rankings (ProductItem.categoryId item))
             + ProductItem.purchaseCount item)) items r) c
  = if existsb (fun i => String.eqb (ProductItem.categoryId i) c) items
    then Some (onum_or0 (rec_get r c) + category_total c items)
    else rec_get r c.
Proof.
  revert r. induction items as [|i items IH]; intro r.
  - reflexivity.
  - cbn [fold_left existsb]. rewrite IH, rec_get_set, category_total_cons.
    destruct (String.eqb_spec (ProductItem.categoryId i) c) as [e|ne].
    + rewrite e. cbn [orb].
      destruct (existsb (fun i0 => String.eqb (ProductItem.categoryId i0) c) items) eqn:E.
      * cbn [onum_or0]. f_equal. lia.
      * rewrite (category_total_none c items E). f_equal. lia.
    + reflexivity.
Qed.

Lemma ranking_total_aux (items : list ProductItem) (c : string) :
  onum_or0 (rec_get (categoryRankings items) c) = category_total c items.
Proof.
  unfold categoryRankings. rewrite categoryRankings_fold.
  destruct (existsb (fun i => String.eqb (ProductItem.categoryId i) c) items) eqn:E.
  - reflexivity.
  - rewrite (category_total_none c items E).
    destruct (rec_get [] c) eqn:Eg; [discriminate Eg|reflexivity].
Qed.

(** X17.  The ranking of a category is the sum of the purchase counts of
    the items of that category; a category without items has no entry
    and reads as 0. *)
Theorem ranking_is_total_purchase_count (items : list ProductItem) (c : string) :
  onum_or0 (rec_get (categoryRankings items) c) = category_total c items
  /\ (rec_get (categoryRankings items) c = None
      <-> forall i, In i items -> ProductItem.categoryId i <> c).
Proof.
  unfold categoryRankings. rewrite categoryRankings_fold.
  destruct (existsb (fun i => String.eqb (ProductItem.categoryId i) c) items) eqn:E.
  - split; [simpl; reflexivity|]. split; [discriminate|].
    intro H. apply existsb_exists in E. destruct E as [i [Hi Hc]].
    apply String.eqb_eq in Hc. exfalso. apply (H i Hi Hc).
  - split.
    + rewrite (category_total_none c items E).
      destruct (rec_get [] c) eqn:Eg; [discriminate Eg|reflexivity].
    + split; [|reflexivity]. intros _ i Hi Hc.
      assert (Ht : existsb (fun i => String.eqb (ProductItem.categoryId i) c) items = true).
      { apply existsb_exists. exists i. split; [exact Hi|]. apply String.eqb_eq, Hc. }
      rewrite Ht in E. discriminate.
Qed.

Lemma category_total_app (c : string) (a b : list ProductItem) :
  category_total c (a ++ b) = category_total c a + category_total c b.
Proof.
  unfold category_total. rewrite filter_app, map_app.
  induction (map ProductItem.purchaseCount
               (filter (fun i => String.eqb (ProductItem.categoryId i) c) a))
    as [|x l IH]; simpl.
  - reflexivity.
  - rewrite IH. lia.
Qed.

(** X18.  Completing an item raises the ranking of its category by one
    and leaves every other ranking alone; un-toggling a completed item
    changes no ranking. *)
Theorem completion_raises_category_ranking
  (now today : Z) (st : AppState) (l1 l2 : list ProductItem) (it : ProductItem)
  (c : string) :
  AppState.items st = l1 ++ it :: l2 ->
  (forall j, In j (l1 ++ l2) -> ProductItem.id j <> ProductItem.id it) ->
  onum_or0 (rec_get
              (categoryRankings
                 (AppState.items (toggleComplete (ProductItem.id it) now today st))) c)
  = onum_or0 (rec_get (categoryRankings (AppState.items st)) c)
    + (if negb (ProductItem.completed it) && String.eqb (ProductItem.categoryId it) c
       then 1 else 0).
Proof.
  intros Hit Hu.
  rewrite !ranking_total_aux.
  unfold toggleComplete. simpl. rewrite Hit.
  rewrite (toggleComplete_items_one_row now l1 l2 it Hu).
  rewrite !category_total_app, !category_total_cons.
  unfold toggle_item.
  destruct (ProductItem.completed it); simpl;
    destruct (String.eqb (ProductItem.categoryId it) c); lia.
Qed.

(** ** Sorted views *)

Lemma sort_insert_perm {A : Type} (cmp : A -> A -> Z) (x : A) (l : list A) :
  Permutation (sort_insert cmp x l) (x :: l).
Proof.
  induction l as [|y l IH]; simpl.
  - apply Permutation_refl.
  - destruct (cmp x y <=? 0).
    + apply Permutation_refl.
    + apply perm_trans with (y :: x :: l).
      * apply perm_skip. exact IH.
      * apply perm_swap.
Qed.

Lemma js_sort_perm {A : Type} (cmp : A -> A -> Z) (l : list A) :
  Permutation (js_sort cmp l) l.
Proof.
  unfold js_sort. induction l as [|x l IH]; simpl.
  - apply Permutation_refl.
  - apply perm_trans with (x :: fold_right (sort_insert cmp) [] l).
    + apply sort_insert_perm.
    + apply perm_skip. exact IH.
Qed.

Lemma sort_insert_sorted {A : Type} (cmp : A -> A -> Z) (key : A -> Z)
  (x : A) (l : list A) :
  (forall a b, cmp a b <= 0 -> key b <= key a) ->
  (forall a b, 0 < cmp a b -> key a <= key b) ->
  StronglySorted (fun a b => key b <= key a) l ->
  StronglySorted (fun a b => key b <= key a) (sort_insert cmp x l).
Proof.
  intros Hle Hgt. induction l as [|y l IH]; intro Hs; simpl.
  - constructor; constructor.
  - apply StronglySorted_inv in Hs. destruct Hs as [Hs Hall].
    destruct (Z.leb_spec (cmp x y) 0) as [Hc|Hc].
    + constructor.
      * constructor; assumption.
      * constructor; [apply Hle, Hc|].
        apply Forall_forall. intros z Hz. rewrite Forall_forall in Hall.
        specialize (Hall z Hz). specialize (Hle x y Hc). lia.
    + constructor.
      * apply IH. exact Hs.
      * apply (Permutation_Forall (Permutation_sym (sort_insert_perm cmp x l))).
        constructor; [apply Hgt, Hc|exact Hall].
Qed.

Lemma js_sort_sorted {A : Type} (cmp : A -> A -> Z) (key : A -> Z) (l : list A) :
  (forall a b, cmp a b <= 0 -> key b <= key a) ->
  (forall a b, 0 < cmp a b -> key a <= key b) ->
  StronglySorted (fun a b => key b <= key a) (js_sort cmp l).
Proof.
  intros Hle Hgt. unfold js_sort. induction l as [|x l IH]; simpl.
  - constructor.
  - apply (sort_insert_sorted cmp key); assumption.
Qed.

(** X19.  The sets are shown in an order that holds the same sets and
    never puts a set before one that was used more often; a set without
    usage count ranks as 0. *)
Theorem sorted_sets_are_ordered_by_usage (sets : list ShoppingSet) :
  Permutation (sortedSets sets) sets
  /\ StronglySorted
       (fun a b => onum_or0 (ShoppingSet.usageCount b) <= onum_or0 (ShoppingSet.usageCount a))
       (sortedSets sets).
Proof.
  split.
  - apply js_sort_perm.
  - unfold sortedSets.
    apply (js_sort_sorted _ (fun s => onum_or0 (ShoppingSet.usageCount s)));
      intros a b H; lia.
Qed.

(** X20.  The category chips are exactly the listed categories that have
    an item on the list and not completed, ordered so that no chip comes
    before one whose category totals more purchases. *)
Theorem active_chips_are_ordered_by_ranking
  (categories : list CategoryDef) (items : list ProductItem) :
  (forall cat, In cat (sortedActiveCategories categories items)
               <-> In cat categories /\ hasActiveItems (CategoryDef.id cat) items = true)
  /\ StronglySorted
       (fun a b => category_total (CategoryDef.id b) items
                   <= category_total (CategoryDef.id a) items)
       (sortedActiveCategories categories items).
Proof.
  split.
  - intro cat. unfold sortedActiveCategories. split.
    + intro H. apply (Permutation_in _ (js_sort_perm _ _)) in H.
      apply filter_In in H.
      rewrite (proj1 (active_ids_agree_with_filter_reset_aux items (CategoryDef.id cat))) in H.
      exact H.
    + intro H. apply (Permutation_in _ (Permutation_sym (js_sort_perm _ _))).
      apply filter_In.
      rewrite (proj1 (active_ids_agree_with_filter_reset_aux items (CategoryDef.id cat))).
      exact H.
  - unfold sortedActiveCategories.
    apply (js_sort_sorted _ (fun c => category_total (CategoryDef.id c) items));
      intros a b H;
      rewrite !(ranking_total_aux items) in H; lia.
Qed.

Lemma find_app_first {A : Type} (p : A -> bool) (a b : list A) (x : A) :
  find p a = Some x -> find p (a ++ b) = Some x.
Proof.
  induction a as [|y a IH]; simpl; intro H.
  - discriminate.
  - destruct (p y); [exact H|apply IH, H].
Qed.

Lemma find_app_second {A : Type} (p : A -> bool) (a b : list A) :
  find p a = None -> find p (a ++ b) = find p b.
Proof.
  induction a as [|y a IH]; simpl; intro H.
  - reflexivity.
  - destruct (p y); [discriminate|apply IH, H].
Qed.

Lemma existsb_key (unique : list (string * ProductItem)) (k : string) :
  existsb (fun kv => String.eqb (fst kv) k) unique = true <-> In k (map fst unique).
Proof.
  rewrite existsb_exists, in_map_iff. split.
  - intros [kv [Hin He]]. exists kv. split; [apply String.eqb_eq, He|exact Hin].
  - intros [kv [He Hin]]. exists kv. split; [exact Hin|apply String.eqb_eq, He].
Qed.

Lemma unique_ok_step (seen : list ProductItem) (unique : list (string * ProductItem))
  (x : ProductItem) :
  unique_ok seen unique ->
  unique_ok (seen ++ [x])
    (if existsb (fun kv => String.eqb (fst kv) (toLowerCase (ProductItem.name x))) unique
     then unique
     else unique ++ [(toLowerCase (ProductItem.name x), x)]).
Proof.
  intros [Hnd [Hfirst Hcover]].
  destruct (existsb (fun kv => String.eqb (fst kv) (toLowerCase (ProductItem.name x))) unique)
    eqn:E.
  - apply existsb_key in E. split; [exact Hnd|]. split.
    + intros k i Hin. destruct (Hfirst k i Hin) as [Hk Hf].
      split; [exact Hk|]. apply find_app_first. exact Hf.
    + intros j Hj. apply in_app_or in Hj. destruct Hj as [Hj | [<- | []]].
      * apply Hcover, Hj.
      * exact E.
  - assert (Hnew : ~ In (toLowerCase (ProductItem.name x)) (map fst unique)).
    { intro H. apply existsb_key in H. rewrite H in E. discriminate. }
    split; [|split].
    + rewrite map_app. simpl. apply NoDup_app; [exact Hnd|repeat constructor; intros []|].
      intros a Ha [e | []]. subst a. apply Hnew, Ha.
    + intros k i Hin. apply in_app_or in Hin. destruct Hin as [Hin | [Hin | []]].
      * destruct (Hfirst k i Hin) as [Hk Hf].
        split; [exact Hk|]. apply find_app_first. exact Hf.
      * injection Hin as <- <-. split; [reflexivity|].
        rewrite find_app_second.
        -- simpl. rewrite same_name_refl. reflexivity.
        -- apply find_none_all. intros j Hj.
           destruct (same_name (ProductItem.name j) (ProductItem.name x)) eqn:Es;
             [|reflexivity].
           exfalso. apply Hnew. unfold same_name in Es. apply String.eqb_eq in Es.
           rewrite <- Es. apply Hcover, Hj.
    + intros j Hj. rewrite map_app. apply in_or_app.
      apply in_app_or in Hj. destruct Hj as [Hj | [<- | []]].
      * left. apply Hcover, Hj.
      * right. now left.
Qed.

Lemma unique_ok_fold (rest seen : list ProductItem)
  (unique : list (string * ProductItem)) :
  unique_ok seen unique ->
  unique_ok (seen ++ rest)
    (fold_left
       (fun unique item =>
          if existsb (fun kv => String.eqb (fst kv) (toLowerCase (ProductItem.name item))) unique
          then unique
          else unique ++ [(toLowerCase (ProductItem.name item), item)]) rest unique).
Proof.
  revert seen unique. induction rest as [|x rest IH]; intros seen unique H.
  - rewrite app_nil_r. exact H.
  - cbn [fold_left]. change (x :: rest) with ([x] ++ rest). rewrite app_assoc.
    apply IH. apply unique_ok_step. exact H.
Qed.

Lemma historyList_unique_ok (items : list ProductItem) :
  unique_ok items (historyList_unique items).
Proof.
  unfold historyList_unique.
  apply (unique_ok_fold items [] []).
  split; [constructor|]. split.
  - intros k i [].
  - intros j [].
Qed.

(** X21.  The history list shows one row per lower-case name: no two of
    its rows share one, each is the first stored row of its name, and
    every stored row has a row of its name in the list; the list never
    puts a row before one with a higher purchase count. *)
Theorem history_list_has_one_row_per_name (items : list ProductItem) :
  NoDup (map (fun i => toLowerCase (ProductItem.name i)) (historyList items))
  /\ (forall i, In i (historyList items) ->
        find (fun j => same_name (ProductItem.name j) (ProductItem.name i)) items = Some i)
  /\ (forall j, In j items ->
        exists i, In i (historyList items)
                  /\ toLowerCase (ProductItem.name i) = toLowerCase (ProductItem.name j))
  /\ StronglySorted
       (fun a b => ProductItem.purchaseCount b <= ProductItem.purchaseCount a)
       (historyList items).
Proof.
  destruct (historyList_unique_ok items) as [Hnd [Hfirst Hcover]].
  assert (Hkeys : map fst (historyList_unique items)
                  = map (fun i => toLowerCase (ProductItem.name i))
                      (map snd (historyList_unique items))).
  { rewrite map_map. apply map_ext_in. intros [k i] Hin. simpl.
    apply (Hfirst k i Hin). }
  split; [|split; [|split]].
  - apply (Permutation_NoDup
             (l := map (fun i => toLowerCase (ProductItem.name i))
                     (map snd (historyList_unique items)))).
    + apply Permutation_map, Permutation_sym, js_sort_perm.
    + rewrite <- Hkeys. exact Hnd.
  - intros i Hi. apply (Permutation_in _ (js_sort_perm _ _)) in Hi.
    apply in_map_iff in Hi. destruct Hi as [[k i'] [Hs Hin]]. simpl in Hs. subst i'.
    apply (Hfirst k i Hin).
  - intros j Hj. specialize (Hcover j Hj). rewrite Hkeys in Hcover.
    apply in_map_iff in Hcover. destruct Hcover as [i [He Hi]].
    exists i. split; [|exact He].
    apply (Permutation_in _ (Permutation_sym (js_sort_perm _ _))). exact Hi.
  - unfold historyList. apply (js_sort_sorted _ ProductItem.purchaseCount).
    + intros a b H. unfold history_cmp in H.
      destruct (Z.eqb_spec (ProductItem.purchaseCount b) (ProductItem.purchaseCount a));
        simpl in H; lia.
    + intros a b H. unfold history_cmp in H.
      destruct (Z.eqb_spec (ProductItem.purchaseCount b) (ProductItem.purchaseCount a));
        simpl in H; lia.
Qed.

(** ** Set registry *)

Lemma map_throwing_some {A B : Type} (f : A -> option B) (l : list A) (ys : list B) :
  map_throwing f l = Some ys ->
  List.length ys = List.length l
  /\ forall y, In y ys -> exists x, In x l /\ f x = Some y.
Proof.
  revert ys. induction l as [|x l IH]; intros ys H; simpl in H.
  - injection H as <-. split; [reflexivity|]. intros y [].
  - destruct (f x) as [y0|] eqn:Ex; [|discriminate].
    destruct (map_throwing f l) as [ys0|]; [|discriminate].
    injection H as <-. destruct (IH ys0 eq_refl) as [Hlen Hin]. split.
    + simpl. rewrite Hlen. reflexivity.
    + intros y [<- | Hy].
      * exists x. split; [now left|exact Ex].
      * destruct (Hin y Hy) as [x' [Hx' Hf]]. exists x'. split; [now right|exact Hf].
Qed.

Lemma map_throwing_none {A B : Type} (f : A -> option B) (l : list A) (x : A) :
  In x l -> f x = None -> map_throwing f l = None.
Proof.
  induction l as [|a l IH]; intros Hin Hx; simpl.
  - destruct Hin.
  - destruct Hin as [<- | Hin].
    + rewrite Hx. reflexivity.
    + destruct (f a); [|reflexivity]. rewrite (IH Hin Hx). reflexivity.
Qed.

Lemma set_tuple_names_category (categories : list CategoryDef) (name : string)
  (categoryId : option string) (t : SetItem) :
  set_tuple categories name categoryId = Some t ->
  SetItem.name t = name
  /\ exists c, In c categories
               /\ SetItem.categoryName t = CategoryDef.name c
               /\ SetItem.emoji t = str_or (CategoryDef.emoji c) "📦"
               /\ (categoryId = Some (CategoryDef.id c) \/ is_sentinel c = true).
Proof.
  unfold set_tuple. intro H.
  destruct categoryId as [cid|].
  - destruct (find (fun c => String.eqb (CategoryDef.id c) cid) categories) as [c|] eqn:E.
    + injection H as <-. split; [reflexivity|]. exists c.
      destruct (find_some _ _ E) as [Hin Hid]. apply String.eqb_eq in Hid.
      split; [exact Hin|]. split; [reflexivity|]. split; [reflexivity|].
      left. rewrite Hid. reflexivity.
    + destruct (find is_sentinel categories) as [c|] eqn:Es; [|discriminate].
      injection H as <-. split; [reflexivity|]. exists c.
      destruct (find_some _ _ Es) as [Hin Hs].
      split; [exact Hin|]. split; [reflexivity|]. split; [reflexivity|]. now right.
  - destruct (find is_sentinel categories) as [c|] eqn:Es; [|discriminate].
    injection H as <-. split; [reflexivity|]. exists c.
    destruct (find_some _ _ Es) as [Hin Hs].
    split; [exact Hin|]. split; [reflexivity|]. split; [reflexivity|]. now right.
Qed.

Lemma drop_nulls_in {A : Type} (l : list (option A)) (x : A) :
  In x (drop_nulls l) <-> In (Some x) l.
Proof.
  induction l as [|[v|] l IH]; simpl.
  - reflexivity.
  - rewrite IH. split; intros [H | H]; auto; left; congruence.
  - rewrite IH. split; [auto|]. intros [H | H]; [discriminate|exact H].
Qed.

(** X22.  Saving an edited set keeps the number of sets, and the id and
    the usage count of every set at its place; sets with another id are
    not touched; the sets with the edited id take the new name and
    emoji. *)
Theorem set_edit_keeps_ids_and_usage
  (categories : list CategoryDef) (items : list ProductItem)
  (newSetName newSetEmoji : string) (mode : SetCreationMode)
  (editingSet : ShoppingSet) (now : Z) (prev result : list ShoppingSet) :
  handleManualSetCreate categories items newSetName newSetEmoji mode
    (Some editingSet) now prev = Some result ->
  List.length result = List.length prev
  /\ map ShoppingSet.id result = map ShoppingSet.id prev
  /\ map ShoppingSet.usageCount result = map ShoppingSet.usageCount prev
  /\ (forall k s, nth_error prev k = Some s ->
        ShoppingSet.id s <> ShoppingSet.id editingSet ->
        nth_error result k = Some s)
  /\ (result = prev
      \/ forall k s, nth_error prev k = Some s ->
           ShoppingSet.id s = ShoppingSet.id editingSet ->
           exists s', nth_error result k = Some s'
                      /\ ShoppingSet.name s' = newSetName
                      /\ ShoppingSet.emoji s' = newSetEmoji).
Proof.
  unfold handleManualSetCreate. intro H.
  assert (Hsame : Some prev = Some result ->
            List.length result = List.length prev
            /\ map ShoppingSet.id result = map ShoppingSet.id prev
            /\ map ShoppingSet.usageCount result = map ShoppingSet.usageCount prev
            /\ (forall k s, nth_error prev k = Some s ->
                  ShoppingSet.id s <> ShoppingSet.id editingSet ->
                  nth_error result k = Some s)
            /\ (result = prev
                \/ forall k s, nth_error prev k = Some s ->
                     ShoppingSet.id s = ShoppingSet.id editingSet ->
                     exists s', nth_error result k = Some s'
                                /\ ShoppingSet.name s' = newSetName
                                /\ ShoppingSet.emoji s' = newSetEmoji)).
  { intro E. injection E as <-. repeat split; auto. }
  destruct (trim newSetName); [exact (Hsame H)|].
  destruct (build_setItems categories items mode) as [[setItems|]|];
    [|discriminate|exact (Hsame H)].
  injection H as <-. split; [apply length_map|]. split.
  { rewrite map_map. apply map_ext. intro s0. destruct (String.eqb _ _); reflexivity. }
  split.
  { rewrite map_map. apply map_ext. intro s0. destruct (String.eqb _ _); reflexivity. }
  split.
  - intros k s0 Hk Hne. rewrite (nth_error_map_some _ _ _ _ Hk).
    destruct (String.eqb_spec (ShoppingSet.id s0) (ShoppingSet.id editingSet));
      [contradiction|reflexivity].
  - right. intros k s0 Hk He. eexists. split.
    + apply nth_error_map_some. exact Hk.
    + cbv beta. rewrite He, String.eqb_refl. split; reflexivity.
Qed.

(** X23.  In the text and the history mode every tuple of the saved set
    carries the name of a listed category and its emoji (or the default
    emoji): the category of the matching item when it is listed, the
    sentinel otherwise.  The text mode makes one tuple per non-blank
    line.  When a tuple needs the sentinel and the listing has no
    sentinel row, the handler throws and no set is written. *)
Theorem set_tuples_name_listed_categories :
  (forall (categories : list CategoryDef) (items : list ProductItem)
          (mode : SetCreationMode) (setItems : list SetItem),
      (forall preview, mode <> ModeAi preview) ->
      build_setItems categories items mode = Some (Some setItems) ->
      forall t, In t setItems ->
        exists c, In c categories
                  /\ SetItem.categoryName t = CategoryDef.name c
                  /\ SetItem.emoji t = str_or (CategoryDef.emoji c) "📦")
  /\ (forall (categories : list CategoryDef) (items : list ProductItem)
             (lines : list string) (setItems : list SetItem),
         build_setItems categories items (ModeText lines) = Some (Some setItems) ->
         List.length setItems
         = List.length (filter (fun s => negb (String.eqb s EmptyString)) (map trim lines)))
  /\ (forall (categories : list CategoryDef) (items : list ProductItem)
             (newSetName newSetEmoji : string) (lines : list string)
             (editingSet : option ShoppingSet) (now : Z) (prev : list ShoppingSet)
             (line : string),
         trim newSetName <> EmptyString ->
         find is_sentinel categories = None ->
         In line lines ->
         trim line <> EmptyString ->
         find (fun it => same_name (ProductItem.name it) (trim line)) items = None ->
         handleManualSetCreate categories items newSetName newSetEmoji
           (ModeText lines) editingSet now prev = None).
Proof.
  split; [|split].
  - intros categories items mode setItems Hmode H t Ht.
    destruct mode as [lines|selected|preview]; unfold build_setItems in H.
    + destruct (filter _ (map trim lines)) as [|a raw] eqn:Er; [discriminate|].
      assert (H' : map_throwing (text_tuple categories items) (a :: raw) = Some setItems)
        by (injection H as H; exact H).
      destruct (map_throwing_some (text_tuple categories items) (a :: raw) setItems H')
        as [_ Hin].
      destruct (Hin t Ht) as [x [_ Hx]]. unfold text_tuple in Hx.
      destruct (set_tuple_names_category _ _ _ _ Hx) as [_ [c [Hc [Hn [He _]]]]].
      exists c. split; [exact Hc|]. split; assumption.
    + destruct selected as [|a sel]; [discriminate|].
      assert (H' : option_map drop_nulls
                     (map_throwing (history_tuple categories items) (a :: sel))
                   = Some setItems) by (injection H as H; exact H).
      clear H.
      destruct (map_throwing (history_tuple categories items) (a :: sel)) as [ys|] eqn:Em;
        [|discriminate H'].
      injection H' as <-. apply drop_nulls_in in Ht.
      destruct (map_throwing_some (history_tuple categories items) (a :: sel) ys Em)
        as [_ Hin].
      destruct (Hin _ Ht) as [x [_ Hx]]. unfold history_tuple in Hx.
      destruct (find _ items) as [item|]; [|discriminate].
      destruct (set_tuple categories (ProductItem.name item)
                  (Some (ProductItem.categoryId item))) as [t'|] eqn:Et; [|discriminate].
      injection Hx as ->.
      destruct (set_tuple_names_category _ _ _ _ Et) as [_ [c [Hc [Hn [He _]]]]].
      exists c. split; [exact Hc|]. split; assumption.
    + exfalso. apply (Hmode preview). reflexivity.
  - intros categories items lines setItems H. unfold build_setItems in H.
    destruct (filter _ (map trim lines)) as [|a raw] eqn:Er; [discriminate|].
    assert (H' : map_throwing (text_tuple categories items) (a :: raw) = Some setItems)
      by (injection H as H; exact H).
    apply (map_throwing_some (text_tuple categories items) (a :: raw) setItems H').
  - intros categories items newSetName newSetEmoji lines editingSet now prev line
           Hname Hsent Hin Hline Hhist.
    unfold handleManualSetCreate.
    destruct (trim newSetName) as [|c0 r0] eqn:En; [contradiction|].
    assert (Hraw : In (trim line)
                     (filter (fun s => negb (String.eqb s EmptyString)) (map trim lines))).
    { apply filter_In. split; [apply in_map, Hin|].
      apply negb_true_iff, String.eqb_neq, Hline. }
    unfold build_setItems.
    destruct (filter (fun s => negb (String.eqb s EmptyString)) (map trim lines))
      as [|a raw] eqn:Er; [destruct Hraw|].
    rewrite (map_throwing_none (text_tuple categories items) (a :: raw) (trim line) Hraw).
    + reflexivity.
    + unfold text_tuple, set_tuple. rewrite Hhist. simpl. rewrite Hsent. reflexivity.
Qed.

(** X24.  A saved new set goes in front of the registry with a usage
    count of 0, the sets already there are kept as they are, and deleting
    the new set gives the registry back when its generated id is not in
    use. *)
Theorem set_create_then_delete_round_trip
  (categories : list CategoryDef) (items : list ProductItem)
  (newSetName newSetEmoji : string) (mode : SetCreationMode) (now : Z)
  (prev : list ShoppingSet) (setItems : list SetItem) :
  trim newSetName <> EmptyString ->
  build_setItems categories items mode = Some (Some setItems) ->
  (forall s, In s prev -> ShoppingSet.id s <> Number_toString now) ->
  let newSet := ShoppingSet.mk (Number_toString now) newSetName newSetEmoji
                  setItems (Some 0) in
  handleManualSetCreate categories items newSetName newSetEmoji mode None now prev
  = Some (newSet :: prev)
  /\ performSetDelete newSet (newSet :: prev) = prev.
Proof.
  intros Hname Hbuild Hfresh newSet. split.
  - unfold handleManualSetCreate.
    destruct (trim newSetName); [contradiction|]. rewrite Hbuild. reflexivity.
  - unfold performSetDelete. simpl. rewrite String.eqb_refl. simpl.
    apply filter_all_true. intros s Hs.
    apply negb_true_iff, String.eqb_neq, Hfresh, Hs.
Qed.

(** ** Retrying an AI call *)

Lemma callWithRetry_rejected {T : Type} (e : AiError) (rest : list (Attempt T))
  (retries : Z) (idx : nat) :
  callWithRetry (Rejected e :: rest) retries idx
  = if isModelError e && (idx <? 1)%nat
    then match callWithRetry rest retries (S idx) with
         | Some (r, i, calls) => Some (r, i, S calls)
         | None => None
         end
    else if (0 <? retries) && isRetryable e
    then match callWithRetry rest (retries - 1) idx with
         | Some (r, i, calls) => Some (r, i, S calls)
         | None => None
         end
    else Some (Thrown e, idx, 1%nat).
Proof.
  reflexivity.
Qed.

(** X25.  [callWithRetry] settles after at most one call, plus one per
    allowed retry, plus one per model still to fall back to: when that
    many outcomes are at hand it returns or throws within them.  With
    the defaults (5 retries, first model) that is 7 calls. *)
Theorem retry_settles_within_bound {T : Type}
  (attempts : list (Attempt T)) (retries : Z) (currentModelIndex : nat) :
  (Z.to_nat retries + (1 - currentModelIndex) + 1 <= List.length attempts)%nat ->
  exists r idx calls,
    callWithRetry attempts retries currentModelIndex = Some (r, idx, calls)
    /\ (calls <= Z.to_nat retries + (1 - currentModelIndex) + 1)%nat.
Proof.
  revert retries currentModelIndex.
  induction attempts as [|a attempts IH]; intros retries idx Hlen.
  - cbn [List.length] in Hlen. lia.
  - cbn [List.length] in Hlen. destruct a as [v|e].
    + exists (Returned v), idx, 1%nat. split; [reflexivity|lia].
    + rewrite callWithRetry_rejected.
      destruct (isModelError e && (idx <? 1)%nat) eqn:Em.
      * apply andb_true_iff in Em. destruct Em as [_ Hi]. apply Nat.ltb_lt in Hi.
        destruct (IH retries (S idx)) as [r [i [calls [E Hb]]]].
        { lia. }
        rewrite E. exists r, i, (S calls). split; [reflexivity|lia].
      * destruct ((0 <? retries) && isRetryable e) eqn:Er.
        -- apply andb_true_iff in Er. destruct Er as [Hr _]. apply Z.ltb_lt in Hr.
           destruct (IH (retries - 1) idx) as [r [i [calls [E Hb]]]].
           { lia. }
           rewrite E. exists r, i, (S calls). split; [reflexivity|lia].
        -- exists (Thrown e), idx, 1%nat. split; [reflexivity|lia].
Qed.

(** X26.  When [callWithRetry] settles after [calls] calls, every call
    before the last was rejected and the last one decides: its value is
    returned, or its error is thrown.  A thrown error that asks for
    another model finds no model left, and a thrown error that could be
    retried comes after more calls than retries were allowed.  The model
    index only grows, and never past the second model. *)
Theorem retry_outcome_is_the_last_call {T : Type}
  (attempts : list (Attempt T)) (retries : Z) (currentModelIndex : nat)
  (r : Settled T) (idx calls : nat) :
  callWithRetry attempts retries currentModelIndex = Some (r, idx, calls) ->
  (currentModelIndex <= idx <= Nat.max currentModelIndex 1)%nat
  /\ (1 <= calls <= List.length attempts)%nat
  /\ (forall k, (k < calls - 1)%nat -> exists e, nth_error attempts k = Some (Rejected e))
  /\ match r with
     | Returned v => nth_error attempts (calls - 1) = Some (Resolved v)
     | Thrown e =>
         nth_error attempts (calls - 1) = Some (Rejected e)
         /\ (isModelError e = true -> (1 <= idx)%nat)
         /\ (isRetryable e = true -> (Z.to_nat retries < calls)%nat)
     end.
Proof.
  revert retries currentModelIndex r idx calls.
  induction attempts as [|a attempts IH]; intros retries cur r idx calls H.
  - discriminate.
  - destruct a as [v|e].
    + simpl in H. injection H as <- <- <-.
      split; [lia|]. split; [simpl; lia|]. split; [intros k Hk; simpl in Hk; lia|].
      reflexivity.
    + rewrite callWithRetry_rejected in H.
      destruct (isModelError e && (cur <? 1)%nat) eqn:Em.
      * apply andb_true_iff in Em. destruct Em as [_ Hi]. apply Nat.ltb_lt in Hi.
        destruct (callWithRetry attempts retries (S cur)) as [[[r' i'] calls']|] eqn:E;
          [|discriminate].
        injection H as <- <- <-.
        destruct (IH _ _ _ _ _ E) as [Hidx [Hcalls [Hrej Hlast]]].
        split; [lia|]. split; [simpl; lia|]. split.
        -- intros [|k] Hk; [exists e; reflexivity|].
           simpl. apply Hrej. lia.
        -- replace (S calls' - 1)%nat with (S (calls' - 1)) by lia.
           simpl. destruct r'; [exact Hlast|].
           destruct Hlast as [Hn [Hm Hr]]. split; [exact Hn|]. split; [exact Hm|].
           intro Hre. specialize (Hr Hre). lia.
      * destruct ((0 <? retries) && isRetryable e) eqn:Er.
        -- apply andb_true_iff in Er. destruct Er as [Hr0 _]. apply Z.ltb_lt in Hr0.
           destruct (callWithRetry attempts (retries - 1) cur) as [[[r' i'] calls']|] eqn:E;
             [|discriminate].
           injection H as <- <- <-.
           destruct (IH _ _ _ _ _ E) as [Hidx [Hcalls [Hrej Hlast]]].
           split; [lia|]. split; [simpl; lia|]. split.
           ++ intros [|k] Hk; [exists e; reflexivity|].
              simpl. apply Hrej. lia.
           ++ replace (S calls' - 1)%nat with (S (calls' - 1)) by lia.
              simpl. destruct r'; [exact Hlast|].
              destruct Hlast as [Hn [Hm Hr]]. split; [exact Hn|]. split; [exact Hm|].
              intro Hre. specialize (Hr Hre). lia.
        -- injection H as <- <- <-.
           split; [lia|]. split; [simpl; lia|]. split; [intros k Hk; simpl in Hk; lia|].
           split; [reflexivity|]. split.
           ++ intro Hm. rewrite Hm in Em. simpl in Em.
              apply Nat.ltb_ge in Em. exact Em.
           ++ intro Hre. rewrite Hre, andb_true_r in Er.
              apply Z.ltb_ge in Er. lia.
Qed.

(** ** Adding from the modal *)

Lemma finalizeAddItem_length (items : list ProductItem)
  (name categoryId : string) (onList : bool) (tk : Tick) (prev : list ProductItem) :
  (List.length prev <= List.length (finalizeAddItem items name categoryId onList tk prev)
   <= S (List.length prev))%nat.
Proof.
  unfold finalizeAddItem. destruct (find _ items).
  - rewrite length_map. lia.
  - simpl. lia.
Qed.

(** X27.  Adding from the modal never touches the sets, the logs or the
    undo slots, adds at most one item row and removes none, and leaves
    the category listing alone unless AI is enabled and its answer names
    a category that matches no listed one. *)
Theorem modal_add_frame
  (addItemText targetId : string) (onList isAiEnabled : bool) (ai : AiOutcome)
  (now : Z) (tk : Tick) (st : AppState) :
  let st' := handleAddItemFromModal addItemText targetId onList isAiEnabled ai now tk st in
  AppState.sets st' = AppState.sets st
  /\ AppState.logs st' = AppState.logs st
  /\ AppState.lastCompletedItem st' = AppState.lastCompletedItem st
  /\ AppState.lastDeletedItem st' = AppState.lastDeletedItem st
  /\ (List.length (AppState.items st) <= List.length (AppState.items st')
      <= S (List.length (AppState.items st)))%nat
  /\ (AppState.categories st' = AppState.categories st
      \/ (isAiEnabled = true
          /\ exists smart,
              ai = AiSmart smart
              /\ find (fun c => same_name (CategoryDef.name c)
                                  (SmartCategoryResponse.categoryName smart))
                   (AppState.categories st) = None
              /\ AppState.categories st'
                 = others (AppState.categories st)
                   ++ [CategoryDef.mk (new_cat_id_now now)
                         (SmartCategoryResponse.categoryName smart)
                         (str_or (SmartCategoryResponse.suggestedEmoji smart) "📦");
                       systemNone (AppState.categories st)])).
Proof.
  intro st'. unfold st', handleAddItemFromModal.
  destruct (trim addItemText) as [|c0 r0].
  { repeat split; try lia. now left. }
  destruct (find _ (AppState.items st)).
  { simpl. repeat split; try apply finalizeAddItem_length. now left. }
  destruct (negb isAiEnabled || _) eqn:Eai.
  { simpl. repeat split; try apply finalizeAddItem_length. now left. }
  apply orb_false_iff in Eai. destruct Eai as [Eai _]. apply negb_false_iff in Eai.
  destruct ai as [| |smart].
  - simpl. repeat split; try apply finalizeAddItem_length. now left.
  - simpl. repeat split; try apply finalizeAddItem_length. now left.
  - destruct (find _ (AppState.categories st)) eqn:Ec.
    + simpl. repeat split; try apply finalizeAddItem_length. now left.
    + simpl. repeat split; try apply finalizeAddItem_length.
      right. split; [exact Eai|]. exists smart. split; [reflexivity|].
      split; [exact Ec|reflexivity].
Qed.

(** X28.  When the AI call fails for a name that is not in the store,
    the item is still added: a new first row under the normalised name,
    in the sentinel category, with the requested onList flag, and the
    category listing is not changed. *)
Theorem ai_failure_falls_back_to_sentinel
  (addItemText targetId : string) (onList : bool) (now : Z) (tk : Tick)
  (st : AppState) :
  trim addItemText <> EmptyString ->
  find (fun i => same_name (ProductItem.name i) (trim addItemText)) (AppState.items st) = None ->
  find (fun i => same_name (ProductItem.name i) (capName (trim addItemText)))
    (AppState.items st) = None ->
  targetId = sentinel_id \/ targetId = "other"%string ->
  let st' := handleAddItemFromModal addItemText targetId onList true AiThrows now tk st in
  AppState.items st'
  = ProductItem.mk (new_item_id tk) (capName (trim addItemText)) sentinel_id
      false onList 0 None :: AppState.items st
  /\ AppState.categories st' = AppState.categories st.
Proof.
  intros Hne Hraw Hcap Htarget st'. unfold st', handleAddItemFromModal.
  destruct (trim addItemText) as [|c0 r0] eqn:Et; [contradiction|].
  rewrite Hraw.
  assert (Epath : negb true
                  || negb (String.eqb targetId sentinel_id)
                     && negb (String.eqb targetId "other") = false).
  { destruct Htarget as [-> | ->]; reflexivity. }
  rewrite Epath. simpl.
  rewrite (finalizeAddItem_create _ _ _ _ _ _ Hcap). split; reflexivity.
Qed.

(** ** Days of history *)

Lemma days_fold_map (logs : list PurchaseLog) (s : list Z) :
  fold_left (fun s l => set_add Z.eqb s (startOfDay (PurchaseLog.date l))) logs s
  = fold_left (fun s d => set_add Z.eqb s d)
      (map (fun l => startOfDay (PurchaseLog.date l)) logs) s.
Proof.
  revert s. induction logs as [|l logs IH]; intro s; simpl.
  - reflexivity.
  - apply IH.
Qed.

Lemma days_fold_cons (days : list Z) (d : Z) (s : list Z) :
  (forall x, In x days -> x <> d) ->
  fold_left (fun s x => set_add Z.eqb s x) days (d :: s)
  = d :: fold_left (fun s x => set_add Z.eqb s x) days s.
Proof.
  revert s. induction days as [|x days IH]; intros s H; simpl.
  - reflexivity.
  - assert (Hx : x <> d) by (apply H; now left).
    assert (E : set_add Z.eqb (d :: s) x = d :: set_add Z.eqb s x).
    { unfold set_add, set_has. simpl.
      destruct (Z.eqb_spec x d) as [e|_]; [contradiction|]. simpl.
      destruct (existsb (Z.eqb x) s); reflexivity. }
    rewrite E. apply IH. intros y Hy. apply H. now right.
Qed.

Lemma days_count_map (f : PurchaseLog -> PurchaseLog) (logs : list PurchaseLog) :
  (forall l, PurchaseLog.date (f l) = PurchaseLog.date l) ->
  uniqueHistoryDaysCount (map f logs) = uniqueHistoryDaysCount logs.
Proof.
  intro H. unfold uniqueHistoryDaysCount. rewrite !days_fold_map, map_map.
  f_equal. f_equal. apply map_ext. intro l. rewrite H. reflexivity.
Qed.

Lemma days_count_log_remove_last (n : string) (today : Z) (logs : list PurchaseLog) :
  uniqueHistoryDaysCount (log_remove_last n today logs) = uniqueHistoryDaysCount logs.
Proof.
  unfold log_remove_last.
  destruct (todays_entry today logs) as [e|]; [|reflexivity].
  destruct (lastIndexOf _ n); [|reflexivity].
  apply days_count_map. intro l. destruct (String.eqb _ _); reflexivity.
Qed.

Lemma days_count_log_append (tup : LogItem) (now today : Z) (logs : list PurchaseLog) :
  today = startOfDay now ->
  uniqueHistoryDaysCount (log_append tup now today logs)
  = (uniqueHistoryDaysCount logs
     + match todays_entry today logs with Some _ => 0 | None => 1 end)%nat.
Proof.
  intro Hd. unfold log_append.
  destruct (todays_entry today logs) as [e|] eqn:E.
  - rewrite days_count_map; [lia|].
    intro l. destruct (String.eqb _ _); reflexivity.
  - unfold uniqueHistoryDaysCount. rewrite !days_fold_map. simpl.
    unfold set_add at 2. simpl. rewrite days_fold_cons.
    + simpl. lia.
    + intros x Hx. apply in_map_iff in Hx. destruct Hx as [l [<- Hl]].
      unfold todays_entry in E. pose proof (find_none _ _ E l Hl) as Hn.
      apply Z.eqb_neq in Hn. rewrite <- Hd. exact Hn.
Qed.

(** X29.  The number of days with history grows by one when an item is
    completed on a day that has no log entry yet, and is unchanged by a
    completion on a day that has one and by every un-toggle. *)
Theorem history_days_grow_with_first_completion_of_a_day
  (now today : Z) (st : AppState) (l1 l2 : list ProductItem) (it : ProductItem) :
  AppState.items st = l1 ++ it :: l2 ->
  (forall j, In j (l1 ++ l2) -> ProductItem.id j <> ProductItem.id it) ->
  today = startOfDay now ->
  uniqueHistoryDaysCount
    (AppState.logs (toggleComplete (ProductItem.id it) now today st))
  = (uniqueHistoryDaysCount (AppState.logs st)
     + if ProductItem.completed it then 0
       else match todays_entry today (AppState.logs st) with
            | Some _ => 0
            | None => 1
            end)%nat.
Proof.
  intros Hit Hu Hd. unfold toggleComplete. simpl. rewrite Hit.
  rewrite (toggleComplete_logs_one_row now today l1 l2 it _ Hu).
  unfold toggle_log. destruct (ProductItem.completed it); simpl.
  - rewrite days_count_log_remove_last. lia.
  - apply days_count_log_append. exact Hd.
Qed.

End Engine.

(** * The model run on the sample data, with ASCII strings and UTC days *)

#[local] Existing Instance ascii_strings.
#[local] Existing Instance utc_days.

(** Re-adding "milk" while "Milk" is stored, off the list and purchased. *)
Lemma finalize_add_merges_milk :
  find (fun i => same_name (ProductItem.name i) (capName "milk")) [ex_milk]
  = Some ex_milk
  /\ List.length (finalizeAddItem [ex_milk] "milk" "dept_none" true ex_tick [ex_milk])
     = List.length [ex_milk].
Proof.
  split.
  - reflexivity.
  - exact (proj1 (finalize_add_merges_into_existing
                    [ex_milk] "milk" "dept_none" true ex_tick ex_milk eq_refl)).
Defined.

(** C2, counterexample.  The listing holds the sentinel at its head; after
    the deletion of "dept_1" the sentinel is still at the head, and the
    last row is "dept_2". *)
Lemma sentinel_first_stays_first_after_delete :
  contains_sentinel (AppState.categories ex_state_sentinel_first) = true
  /\ AppState.categories (run ex_state_sentinel_first [DeleteCategory "dept_1"])
     = [ex_none; ex_dairy]
  /\ sentinel_last
       (AppState.categories (run ex_state_sentinel_first [DeleteCategory "dept_1"]))
     = false.
Proof.
  split; [reflexivity|]. split; reflexivity.
Qed.

Lemma sentinel_stays_last_run :
  sentinel_last (AppState.categories ex_state) = true
  /\ sentinel_last
       (AppState.categories
          (run ex_state
             [DeleteCategory "dept_1";
              SaveCategory None "Veg" "V" None 5 ex_tick;
              AddItemsFromSet ex_set [(ex_flour, (ex_tick, ex_tick))]]))
     = true.
Proof.
  split.
  - reflexivity.
  - apply (sentinel_stays_last ex_state). reflexivity.
Defined.

Lemma retoggle_milk :
  nth_error (AppState.items ex_state) 0 = Some ex_milk
  /\ exists it2,
      nth_error
        (AppState.items (toggleComplete "i1" 20 0 (toggleComplete "i1" 10 0 ex_state))) 0
      = Some it2
      /\ ProductItem.completed it2 = true
      /\ ProductItem.purchaseCount it2 = 3 + 1.
Proof.
  split.
  - reflexivity.
  - exact (proj1 (proj2 (retoggle_counts_once_more "i1" 10 20 0 0 0 ex_state 0 ex_milk
                           eq_refl eq_refl eq_refl))).
Defined.

Lemma remote_insert_of_milk_again :
  In ex_milk [ex_milk]
  /\ ProductItem.id ex_milk = DbItem.id ex_db_milk
  /\ onInsert ex_db_milk [ex_milk] = [ex_milk].
Proof.
  split; [left; reflexivity|]. split; [reflexivity|].
  exact (proj1 (remote_insert_of_known_id_is_noop ex_db_milk [ex_milk] ex_milk
                  (or_introl eq_refl) eq_refl)).
Defined.

(** C5, counterexample.  The initial load of one remote row with
    [is_bought] set stores a row that is completed and has no completion
    instant. *)
Lemma loaded_bought_row_has_no_instant :
  AppState.items (step ex_state_fresh (RemoteLoad [ex_db_milk]))
  = [ProductItem.mk "i1" "Oat milk" "dept_none" true true 7 None]
  /\ exists i,
      In i (AppState.items (step ex_state_fresh (RemoteLoad [ex_db_milk])))
      /\ ProductItem.completed i = true
      /\ ProductItem.completedAt i = None.
Proof.
  split; [reflexivity|].
  eexists. split; [left; reflexivity|]. split; reflexivity.
Qed.

Lemma toggle_keeps_store_coherent :
  is_remote_write (ToggleComplete "i1" 10 0) = false
  /\ handed_row_agrees ex_state (ToggleComplete "i1" 10 0)
  /\ store_coherent ex_state
  /\ store_coherent (step ex_state (ToggleComplete "i1" 10 0)).
Proof.
  assert (H : store_coherent ex_state).
  { split.
    - constructor; [reflexivity|constructor].
    - intros i Hi. discriminate Hi. }
  split; [reflexivity|]. split; [exact I|]. split; [exact H|].
  exact (proj1 coherence_local_steps_and_remote_rows ex_state
           (ToggleComplete "i1" 10 0) eq_refl I H).
Defined.

(** Un-toggling "Bread" on a day whose entry reads Bread, Milk, Bread. *)
Lemma untoggle_removes_last_bread :
  AppState.items ex_state_bread = [] ++ ex_bread :: []
  /\ 0 = startOfDay 50
  /\ today_items 0 (AppState.logs (toggleComplete "i2" 50 0 ex_state_bread))
     = [ex_bread_tuple; LogItem.mk "Milk" "dept_2"].
Proof.
  split; [reflexivity|]. split; [reflexivity|].
  exact (proj1 (proj2 (proj2
           (purchase_log_bookkeeping 50 0 ex_state_bread [] [] ex_bread
              eq_refl (fun j (H : In j []) => match H with end) eq_refl)))
           eq_refl [ex_bread_tuple; LogItem.mk "Milk" "dept_2"] ex_bread_tuple []
           eq_refl eq_refl (fun y (H : In y []) => match H with end)).
Defined.

(** "Eggs" is completed on one day and the rollover runs on the next:
    the row is reset and taken off the list. *)
Lemma rollover_after_completing_eggs_yesterday :
  store_stamped ex_state_eggs
  /\ startOfDay 90000000 < startOfDay 180000000
  /\ nth_error
       (dailyRollover 180000000
          (AppState.items (run ex_state_eggs [ToggleComplete "i3" 90000000 86400000])))
       0
     = Some (ProductItem.mk "i3" "Eggs" "dept_2" false false 3 None).
Proof.
  assert (H : store_stamped ex_state_eggs).
  { split; [repeat constructor|]. intros i E. discriminate E. }
  assert (Ha : Forall (fun a => brings_stamped a = true)
                  [ToggleComplete "i3" 90000000 86400000]).
  { constructor; [reflexivity|constructor]. }
  split; [exact H|]. split; [reflexivity|].
  exact (proj1
           (proj2
              (daily_rollover_resets_prior_days ex_state_eggs
                 [ToggleComplete "i3" 90000000 86400000] 180000000 H Ha)
              0%nat _ eq_refl)
           eq_refl 90000000 eq_refl eq_refl).
Defined.

(** The truthiness test of the rollover on a row outside [stamped]:
    "Bread" carries the instant 0 and is returned as it is. *)
Lemma rollover_skips_row_stamped_zero :
  stamped ex_bread = false
  /\ dailyRollover 172800000 [ex_bread] = [ex_bread].
Proof.
  split; reflexivity.
Qed.

(** C1, the failing input.  "Milk" is stored, "Eggs" is not, and the
    bulk-add text holds the line "eggs" twice.  The first line creates the
    row "Eggs".  The second line is looked up in the same snapshot of the
    items, which does not hold that row, although the store the call
    writes to does: a second row "Eggs" is created, and the store grows
    by one more row. *)
Theorem repeated_bulk_line_makes_a_second_row :
  find (fun i => same_name (ProductItem.name i) (capName "eggs"))
    (finalizeAddItem [ex_milk] "eggs" "dept_2" true
       (Tick.mk 1700000000000 "k3x9q") [ex_milk])
  = Some ex_eggs_first
  /\ finalizeAddItem [ex_milk] "eggs" "dept_2" true (Tick.mk 1700000000000 "p07ma")
       (finalizeAddItem [ex_milk] "eggs" "dept_2" true
          (Tick.mk 1700000000000 "k3x9q") [ex_milk])
     = [ex_eggs_second; ex_eggs_first; ex_milk]
  /\ AppState.items (step ex_state (BulkAdd ex_bulk_eggs (Some "dept_2"%string) true))
     = [ex_eggs_second; ex_eggs_first; ex_milk]
  /\ same_name (ProductItem.name ex_eggs_second) (ProductItem.name ex_eggs_first) = true.
Proof.
  split; [reflexivity|]. split; [reflexivity|]. split; reflexivity.
Qed.

(** The scenario of the specification: the set holds Flour / Baking and
    no category Baking exists. *)
Lemma expand_flour_set :
  (exists s',
      nth_error
        (AppState.sets
           (addSpecificItemsFromSet ex_set [(ex_flour, (ex_tick, ex_tick))] ex_state_fresh)) 0
      = Some s'
      /\ ShoppingSet.usageCount s' = Some (0 + 1)
      /\ ShoppingSet.id s' = "s1"%string
      /\ ShoppingSet.items s' = [ex_flour])
  /\ AppState.categories
       (addSpecificItemsFromSet ex_set [(ex_flour, (ex_tick, ex_tick))] ex_state_fresh)
     = [CategoryDef.mk "dept_17000000000000.5" "Baking" "B"; ex_none]
  /\ exists c last,
      AppState.categories
        (addSpecificItemsFromSet ex_set ([] ++ (ex_flour, (ex_tick, ex_tick)) :: [])
           ex_state_fresh)
      = others
          (AppState.categories
             (addSpecificItemsFromSet ex_set ([] ++ (ex_flour, (ex_tick, ex_tick)) :: [])
                ex_state_fresh))
        ++ [last]
      /\ is_sentinel last = true
      /\ In c (others
                 (AppState.categories
                    (addSpecificItemsFromSet ex_set
                       ([] ++ (ex_flour, (ex_tick, ex_tick)) :: []) ex_state_fresh)))
      /\ ~ In c (AppState.categories ex_state_fresh)
      /\ same_name (CategoryDef.name c) "Baking" = true
      /\ ((forall y : SetItem * (Tick * Tick),
              In y [] -> same_name (SetItem.categoryName (fst y)) "Baking" = false) ->
          c = CategoryDef.mk (new_cat_id ex_tick) "Baking" (str_or "B" "📦"))
      /\ In (ProductItem.mk (new_item_id ex_tick) (capName "Flour")
               (CategoryDef.id c) false true 0 None)
           (AppState.items
              (addSpecificItemsFromSet ex_set
                 ([] ++ (ex_flour, (ex_tick, ex_tick)) :: []) ex_state_fresh)).
Proof.
  split; [|split].
  - exact (proj1 set_expansion_usage_and_new_category ex_set
             [(ex_flour, (ex_tick, ex_tick))] ex_state_fresh 0%nat ex_set
             eq_refl eq_refl).
  - reflexivity.
  - exact (proj2 set_expansion_usage_and_new_category ex_set [] []
             (ex_flour, (ex_tick, ex_tick)) ex_state_fresh
             eq_refl eq_refl eq_refl (fun H : In _ [] => match H with end)).
Defined.

(** C9, counterexample.  Saving the edited first category puts it behind
    the second one. *)
Lemma edited_category_changes_place :
  saveCategory_cats (Some ex_fruit) "Fruits" "F" 5 [ex_fruit; ex_dairy; ex_none]
  = [ex_dairy; CategoryDef.mk "dept_1" "Fruits" "F"; ex_none]
  /\ map CategoryDef.id
       (others (saveCategory_cats (Some ex_fruit) "Fruits" "F" 5
                  [ex_fruit; ex_dairy; ex_none]))
     <> map CategoryDef.id (others [ex_fruit; ex_dairy; ex_none]).
Proof.
  split; [reflexivity|]. intro H. discriminate H.
Qed.

Lemma edited_fruit_goes_before_sentinel :
  openCategoryModal (Some ex_fruit) = Some (Some ex_fruit)
  /\ others (saveCategory_cats (Some ex_fruit) "Fruits" "F" 5
               [ex_fruit; ex_dairy; ex_none])
     = [ex_dairy; CategoryDef.mk "dept_1" "Fruits" "F"].
Proof.
  split.
  - reflexivity.
  - exact (proj2 (saved_category_goes_before_sentinel (Some ex_fruit) (Some ex_fruit)
                    "Fruits" "F" 5 [ex_fruit; ex_dairy; ex_none] eq_refl)).
Defined.

Lemma remote_update_of_milk :
  nth_error [ex_milk] 0 = Some ex_milk
  /\ ProductItem.id ex_milk = DbItem.id ex_db_milk
  /\ map ProductItem.onList (onUpdate ex_db_milk [ex_milk])
     = map ProductItem.onList [ex_milk].
Proof.
  split; [reflexivity|]. split; [reflexivity|].
  exact (proj2 (proj2 (proj2 (remote_update_frame ex_db_milk [ex_milk] 0 ex_milk
                                eq_refl eq_refl)))).
Defined.

(** ** Further properties on the sample data *)

#[local] Existing Instance code_collate.

Lemma insert_then_delete_salt :
  (forall i, In i [ex_milk] -> ProductItem.id i <> DbItem.id ex_db_salt)
  /\ onDelete "i9" (onInsert ex_db_salt [ex_milk]) = [ex_milk].
Proof.
  assert (H : forall i, In i [ex_milk] -> ProductItem.id i <> DbItem.id ex_db_salt).
  { intros i [<- | []]. intro E. discriminate E. }
  split; [exact H|].
  exact (remote_insert_then_delete_round_trip ex_db_salt [ex_milk] H).
Defined.

Lemma update_of_unknown_salt :
  (forall i, In i [ex_milk] -> ProductItem.id i <> DbItem.id ex_db_salt)
  /\ onUpdate ex_db_salt [ex_milk] = [ex_milk].
Proof.
  assert (H : forall i, In i [ex_milk] -> ProductItem.id i <> DbItem.id ex_db_salt).
  { intros i [<- | []]. intro E. discriminate E. }
  split; [exact H|].
  exact (proj1 remote_update_unknown_id_and_repeat ex_db_salt [ex_milk] H).
Defined.

Lemma delete_milk_then_undo :
  AppState.items ex_state_two = [ex_eggs] ++ ex_milk :: []
  /\ AppState.items (run ex_state_two [DeleteItem ex_milk; UndoDelete])
     = [ex_milk; ex_eggs].
Proof.
  split; [reflexivity|].
  refine (proj1 (delete_then_undo_restores_rows ex_state_two [ex_eggs] [] ex_milk
                   eq_refl _)).
  intros j [<- | []]. intro E. discriminate E.
Defined.

Lemma add_milk_again_changes_nothing :
  find (fun i => same_name (ProductItem.name i) (capName "milk")) [ex_milk] = Some ex_milk
  /\ finalizeAddItem
       (finalizeAddItem [ex_milk] "milk" "dept_1" true ex_tick [ex_milk])
       "milk" "dept_1" true ex_tick
       (finalizeAddItem [ex_milk] "milk" "dept_1" true ex_tick [ex_milk])
     = finalizeAddItem [ex_milk] "milk" "dept_1" true ex_tick [ex_milk].
Proof.
  split; [reflexivity|].
  exact (finalize_add_again_changes_nothing [ex_milk] "milk" "dept_1" true
           ex_tick ex_tick ex_milk eq_refl).
Defined.

(** "apple", then "APPLE": one row more. *)
Lemma add_apple_twice :
  find (fun i => same_name (ProductItem.name i) (capName "apple")) [ex_milk] = None
  /\ same_name (capName "apple") (capName "APPLE") = true
  /\ List.length
       (finalizeAddItem
          (finalizeAddItem [ex_milk] "apple" "dept_none" true ex_tick [ex_milk])
          "APPLE" "dept_none" true ex_tick
          (finalizeAddItem [ex_milk] "apple" "dept_none" true ex_tick [ex_milk]))
     = 2%nat.
Proof.
  split; [reflexivity|]. split; [reflexivity|].
  exact (proj1 (two_adds_of_a_new_name_make_one_row [ex_milk] "apple" "APPLE"
                  "dept_none" "dept_none" true true ex_tick ex_tick eq_refl eq_refl)).
Defined.

(** Two lines reading "eggs" and a blank one: two rows are added. *)
Lemma bulk_add_of_repeated_line :
  exists added,
    handleBulkAdd [ex_milk] ex_bulk_lines (Some "dept_2"%string) true [ex_milk]
    = added ++ [ex_milk]
    /\ List.length added = 2%nat.
Proof.
  assert (H : forall l, In l (bulk_lines ex_bulk_lines) ->
                find (fun i => same_name (ProductItem.name i) (capName (fst l))) [ex_milk]
                = None).
  { intros l [<- | [<- | []]]; reflexivity. }
  destruct (bulk_add_adds_one_row_per_line [ex_milk] ex_bulk_lines "d" "ept_2" true
              [ex_milk] H) as [added [E [L _]]].
  exists added. split; [exact E|exact L].
Defined.

Lemma delete_dairy_category :
  "dept_2"%string <> sentinel_id
  /\ List.length (AppState.items (deleteCategory "dept_2" ex_state_two))
     = List.length (AppState.items ex_state_two).
Proof.
  assert (H : "dept_2"%string <> sentinel_id) by (intro E; discriminate E).
  split; [exact H|].
  exact (proj1 (proj2 (proj2 (proj2 (delete_category_reassigns_items "dept_2"
                                        ex_state_two H))))).
Defined.

(** A listing with the sentinel twice is written back with one. *)
Lemma save_repairs_doubled_sentinel :
  openCategoryModal (Some ex_fruit) = Some (Some ex_fruit)
  /\ List.length
       (filter is_sentinel
          (saveCategory_cats (Some ex_fruit) "Fruits" "F" 5 [ex_none; ex_fruit; ex_none]))
     = 1%nat.
Proof.
  split; [reflexivity|].
  exact (proj1 written_listing_has_one_sentinel (Some ex_fruit) (Some ex_fruit)
           "Fruits"%string "F"%string 5 [ex_none; ex_fruit; ex_none] eq_refl).
Defined.

Lemma expansion_after_fruit_and_dairy :
  exists extra,
    others (AppState.categories
              (addSpecificItemsFromSet ex_set [(ex_flour, (ex_tick, ex_tick))] ex_state))
    = others (AppState.categories ex_state) ++ extra.
Proof.
  destruct (proj1 expansion_appends_after_existing_categories ex_set
              [(ex_flour, (ex_tick, ex_tick))] ex_state) as [extra [E _]].
  exists extra. exact E.
Defined.

Lemma complete_eggs_then_undo :
  AppState.items ex_state_eggs = [] ++ ex_eggs :: []
  /\ 86400000 = startOfDay 90000000
  /\ AppState.items
       (undoCompletion 86400000 (toggleComplete "i3" 90000000 86400000 ex_state_eggs))
     = AppState.items ex_state_eggs.
Proof.
  split; [reflexivity|]. split; [reflexivity|].
  refine (proj1 (complete_then_undo_round_trip 90000000 86400000 ex_state_eggs [] []
                   ex_eggs eq_refl _ _ eq_refl eq_refl _ eq_refl)).
  - intros j [].
  - intro E. discriminate E.
  - intro E. discriminate E.
Defined.

Lemma complete_eggs_then_untoggle :
  AppState.items
    (toggleComplete "i3" 90000001 86400000
       (toggleComplete "i3" 90000000 86400000 ex_state_eggs))
  = [ProductItem.mk "i3" "Eggs" "dept_2" false true 3 None].
Proof.
  refine (proj1 (complete_then_untoggle_keeps_the_count 90000000 90000001 86400000
                   ex_state_eggs [] [] ex_eggs eq_refl _ eq_refl eq_refl)).
  intros j [].
Defined.

Lemma count_of_eggs_after_completion :
  getTodayPurchaseCount 86400000
    (AppState.logs (toggleComplete "i3" 90000000 86400000 ex_state_eggs)) "Eggs"
  = 1%nat.
Proof.
  refine (proj1 (today_count_follows_toggles 90000000 86400000 ex_state_eggs [] []
                   ex_eggs eq_refl _ eq_refl) eq_refl).
  intros j [].
Defined.

Lemma rollover_twice_on_milk :
  dailyRollover 172800000 (dailyRollover 172800000 [ex_milk])
  = dailyRollover 172800000 [ex_milk].
Proof.
  exact (proj1 (rollover_is_idempotent_and_only_clears 172800000 [ex_milk])).
Defined.

Lemma bought_remote_milk_is_hidden :
  DbItem.is_bought ex_db_milk = true
  /\ In (fromDb ex_db_milk) (buyListFor "All" [fromDb ex_db_milk])
  /\ ~ In (fromDb ex_db_milk) (activeOf (buyListFor "All" [fromDb ex_db_milk]))
  /\ ~ In (fromDb ex_db_milk)
         (completedTodayOf 86400000 (buyListFor "All" [fromDb ex_db_milk])).
Proof.
  split; [reflexivity|].
  exact (proj1 (proj2 visible_lists_and_remote_rows) 86400000 ex_db_milk
           [fromDb ex_db_milk] eq_refl (or_introl eq_refl)).
Defined.

Lemma dairy_is_active_with_eggs :
  set_has String.eqb (activeCategoryIds [ex_milk; ex_eggs]) "dept_2"%string
  = hasActiveItems "dept_2" [ex_milk; ex_eggs].
Proof.
  exact (proj1 (active_ids_agree_with_filter_reset [ex_milk; ex_eggs] "dept_2"%string)).
Defined.

Lemma dairy_ranking :
  onum_or0 (rec_get (categoryRankings [ex_milk; ex_eggs]) "dept_2")
  = category_total "dept_2" [ex_milk; ex_eggs].
Proof.
  exact (proj1 (ranking_is_total_purchase_count [ex_milk; ex_eggs] "dept_2"%string)).
Defined.

Lemma dairy_ranking_after_completing_eggs :
  AppState.items ex_state_eggs = [] ++ ex_eggs :: []
  /\ onum_or0
       (rec_get
          (categoryRankings
             (AppState.items (toggleComplete "i3" 90000000 86400000 ex_state_eggs)))
          "dept_2")
     = onum_or0 (rec_get (categoryRankings (AppState.items ex_state_eggs)) "dept_2") + 1.
Proof.
  split; [reflexivity|].
  refine (completion_raises_category_ranking 90000000 86400000 ex_state_eggs [] []
            ex_eggs "dept_2" eq_refl _).
  intros j [].
Defined.

Lemma chips_of_the_two_item_store :
  In ex_dairy (sortedActiveCategories [ex_fruit; ex_dairy; ex_none] [ex_eggs; ex_milk])
  <-> In ex_dairy [ex_fruit; ex_dairy; ex_none]
      /\ hasActiveItems (CategoryDef.id ex_dairy) [ex_eggs; ex_milk] = true.
Proof.
  exact (proj1 (active_chips_are_ordered_by_ranking [ex_fruit; ex_dairy; ex_none]
                  [ex_eggs; ex_milk]) ex_dairy).
Defined.

(** "Milk" and "MILK" are stored: the history list shows the first. *)
Lemma history_of_milk_and_MILK :
  In ex_milk (historyList [ex_milk; ex_milk_upper])
  /\ find (fun j => same_name (ProductItem.name j) (ProductItem.name ex_milk))
       [ex_milk; ex_milk_upper] = Some ex_milk.
Proof.
  assert (H : In ex_milk (historyList [ex_milk; ex_milk_upper])) by (left; reflexivity).
  split; [exact H|].
  exact (proj1 (proj2 (history_list_has_one_row_per_name [ex_milk; ex_milk_upper]))
           ex_milk H).
Defined.

Lemma edit_of_the_cake_set :
  handleManualSetCreate [ex_none] [] "Cake 2" "K" (ModeAi [(ex_flour, None)])
    (Some ex_set) 5 [ex_set]
  = Some [ShoppingSet.mk "s1" "Cake 2" "K" [ex_flour] None]
  /\ map ShoppingSet.usageCount [ShoppingSet.mk "s1" "Cake 2" "K" [ex_flour] None]
     = map ShoppingSet.usageCount [ex_set].
Proof.
  split; [reflexivity|].
  exact (proj1 (proj2 (proj2 (set_edit_keeps_ids_and_usage [ex_none] [] "Cake 2" "K"
                                (ModeAi [(ex_flour, None)]) ex_set 5 [ex_set]
                                [ShoppingSet.mk "s1" "Cake 2" "K" [ex_flour] None]
                                eq_refl)))).
Defined.

(** A text-mode set with an unknown product, and no sentinel listed. *)
Lemma text_set_without_sentinel_throws :
  find is_sentinel [ex_fruit] = None
  /\ handleManualSetCreate [ex_fruit] [ex_milk] "Party" "P" (ModeText ["salt"%string])
       None 5 [ex_set]
     = None.
Proof.
  split; [reflexivity|].
  refine (proj2 (proj2 set_tuples_name_listed_categories) [ex_fruit] [ex_milk]
            "Party"%string "P"%string ["salt"%string] None 5 [ex_set] "salt"%string _ eq_refl
            (or_introl eq_refl) _ eq_refl).
  - intro E. discriminate E.
  - intro E. discriminate E.
Defined.

Lemma create_then_delete_cake_set :
  build_setItems [ex_none] [] (ModeAi [(ex_flour, Some true)]) = Some (Some [ex_flour])
  /\ performSetDelete (ShoppingSet.mk (Number_toString 5) "Pie" "P" [ex_flour] (Some 0))
       (ShoppingSet.mk (Number_toString 5) "Pie" "P" [ex_flour] (Some 0) :: [ex_set])
     = [ex_set].
Proof.
  split; [reflexivity|].
  refine (proj2 (set_create_then_delete_round_trip [ex_none] [] "Pie" "P"
                   (ModeAi [(ex_flour, Some true)]) 5 [ex_set] [ex_flour] _ eq_refl _)).
  - intro E. discriminate E.
  - intros s [<- | []]. intro E. discriminate E.
Defined.

(** Five retries and the first model: seven outcomes are enough. *)
Lemma retry_with_defaults_settles :
  exists r idx calls,
    callWithRetry ex_attempts_long 5 0 = Some (r, idx, calls) /\ (calls <= 7)%nat.
Proof.
  exact (retry_settles_within_bound ex_attempts_long 5 0 (le_n 7)).
Defined.

Lemma retry_after_model_and_rate_errors :
  callWithRetry ex_attempts 5 0 = Some (Returned 7, 1%nat, 3%nat)
  /\ nth_error ex_attempts (3 - 1) = Some (Resolved 7).
Proof.
  split; [reflexivity|].
  exact (proj2 (proj2 (proj2 (retry_outcome_is_the_last_call ex_attempts 5 0
                                (Returned 7) 1 3 eq_refl)))).
Defined.

Lemma ai_failure_adds_salt_without_category :
  trim " salt " <> EmptyString
  /\ AppState.categories
       (handleAddItemFromModal " salt " "dept_none" true true AiThrows 5 ex_tick
          ex_state_fresh)
     = AppState.categories ex_state_fresh.
Proof.
  assert (H : trim " salt " <> EmptyString) by (intro E; discriminate E).
  split; [exact H|].
  exact (proj2 (ai_failure_falls_back_to_sentinel " salt " "dept_none" true 5 ex_tick
                  ex_state_fresh H eq_refl eq_refl (or_introl eq_refl))).
Defined.

Lemma first_completion_opens_a_day :
  AppState.items ex_state_eggs = [] ++ ex_eggs :: []
  /\ uniqueHistoryDaysCount
       (AppState.logs (toggleComplete "i3" 90000000 86400000 ex_state_eggs))
     = 1%nat.
Proof.
  split; [reflexivity|].
  refine (history_days_grow_with_first_completion_of_a_day 90000000 86400000
            ex_state_eggs [] [] ex_eggs eq_refl _ eq_refl).
  intros j [].
Defined.
